(** * PIKNDEL integration: a shallow embedding of the service and its routes

    The development follows the JavaScript sources:
      - [services/pikndelService.js]: the token cache, [request],
        [handlePikndelResponse], [login], [placeOrder], [getOrderStatus];
      - [routes/orderRoutes.js]: [verifyWebhookSecret] and the webhook
        handler [POST /pikndel/status];
      - [models/WebhookResponse.js]: the persisted document.

    JavaScript values are untyped, so payloads are modelled as a tree of
    JSON-like values; the operators the code relies on ([!v], [a || b],
    [a ?? b], [String(v)], [parseFloat(v)], property reads, template
    literals) are written out with the results and the exceptions the
    language gives them. Module state ([cachedToken]), the network, the console
    and the collection are threaded explicitly.

    Layout: [Js] (values and operators), [Process] (environment, world,
    state and exceptions), [PikndelService], [OrderRoutes],
    [DecimalRuntime] (a runtime to evaluate with), [Spec] (the vocabulary
    of the specification), [Samples], [Notions] (further vocabulary);
    then the proofs: [Facts], [PlaceOrder], [Client], [Webhook],
    [Requests], [OrderBody], [Routes]. *)

From Stdlib Require Import String Ascii List ZArith Bool Lia DecimalString.
Import ListNotations.

#[global] Set Warnings "-register-all".
Open Scope string_scope.

(* ================================================================== *)
(** * JavaScript values and the operators the program uses             *)
(* ================================================================== *)

Module Js.

Section Values.
Variable number : Type.

(** The values a parsed JSON body, a response body or an object literal
    of the program can hold. An object keeps its properties in insertion
    order; a property read takes the first binding of the key. *)
Inductive jsval : Type :=
| JUndefined
| JNull
| JBool (b : bool)
| JNum (n : number)
| JStr (s : string)
| JArr (elems : list jsval)
| JObj (props : list (string * jsval)).
End Values.

Arguments JUndefined {number}.
Arguments JNull {number}.
Arguments JBool {number} b.
Arguments JNum {number} n.
Arguments JStr {number} s.
Arguments JArr {number} elems.
Arguments JObj {number} props.

(** The part of the runtime that works on IEEE doubles and on text is kept
  abstract: every theorem below holds for any implementation of it. *)
Class Runtime (number : Type) : Type := {
  (** [ToBoolean] on a number: false exactly for [+0], [-0] and [NaN]. *)
  num_truthy : number -> bool;
  (** [Number::toString], as used by [String(n)] and template literals. *)
  num_to_string : number -> string;
  (** [Number(s)] on a string; also the value of the numeric literal [s]. *)
  Number_string : string -> number;
  (** [parseFloat(s)] on a string. *)
  parseFloat_string : string -> number;
  (** [JSON.stringify(v, null, space)]: a string, or nothing for the
      values it answers [undefined] to. *)
  JSON_stringify : jsval number -> nat -> option string;
}.

(** What a [throw] carries. [Error m None] is [new Error(m)];
  [Error m (Some (c, d))] is
  [Object.assign(new Error(m), { statusCode: c, pikndelData: d })].
  A [TypeError] is raised by the runtime itself; its text is the engine's
  and is not reproduced, [detail] records the operation that failed. *)
Inductive thrown (number : Type) : Type :=
| TypeError (detail : string)
| Error (message : string) (extra : option (Z * jsval number)).

Arguments TypeError {number} detail.
Arguments Error {number} message extra.

Inductive result (number A : Type) : Type :=
| Ok (a : A)
| Throw (e : thrown number).

Arguments Ok {number A} a.
Arguments Throw {number A} e.

Section Ops.
Context {number : Type} {RT : Runtime number}.

Local Abbreviation value := (jsval number).
Local Abbreviation res := (result number).

Definition bind {A B} (r : res A) (k : A -> res B) : res B :=
  match r with
  | Ok a => k a
  | Throw e => Throw e
  end.

Local Notation "x <- r ;; k" := (bind r (fun x => k))
  (at level 61, r at next level, right associativity).

(** A numeric literal of the source, written as its text. *)
Definition lit (s : string) : value := JNum (Number_string s).

(** [ToBoolean]. *)
Definition truthy (v : value) : bool :=
  match v with
  | JUndefined | JNull => false
  | JBool b => b
  | JNum n => num_truthy n
  | JStr s => negb (s =? "")
  | JArr _ | JObj _ => true
  end.

Definition nullish (v : value) : bool :=
  match v with
  | JUndefined | JNull => true
  | _ => false
  end.

(** [typeof v]. *)
Definition typeof (v : value) : string :=
  match v with
  | JUndefined => "undefined"
  | JBool _ => "boolean"
  | JNum _ => "number"
  | JStr _ => "string"
  | JNull | JArr _ | JObj _ => "object"
  end.

Definition isArray (v : value) : bool :=
  match v with
  | JArr _ => true
  | _ => false
  end.

(** The elements of an array; nothing for any other value. *)
Definition elements (v : value) : list value :=
  match v with
  | JArr elems => elems
  | _ => []
  end.

Fixpoint lookup (k : string) (props : list (string * value)) : option value :=
  match props with
  | [] => None
  | (k', v) :: rest => if k =? k' then Some v else lookup k rest
  end.

Definition has_own (k : string) (props : list (string * value)) : bool :=
  match lookup k props with
  | Some _ => true
  | None => false
  end.

(** [v.k] for the property names the program reads on values coming from
    JSON. None of those names ([UserId], [Info], [Token], [short_code],
    ...) is a member of [Object.prototype], [Array.prototype] or a
    primitive wrapper, so a read on anything but an object holding the
    key gives [undefined]; on [null] and [undefined] it throws. *)
Definition prop (v : value) (k : string) : value :=
  match v with
  | JObj props =>
      match lookup k props with
      | Some x => x
      | None => JUndefined
      end
  | _ => JUndefined
  end.

Definition get (v : value) (k : string) : res value :=
  if nullish v
  then Throw (TypeError ("Cannot read properties of null or undefined: " ++ k))
  else Ok (prop v k).

(** [v?.k]. *)
Definition get_opt (v : value) (k : string) : value :=
  if nullish v then JUndefined else prop v k.

(** [v[0]] on an array. *)
Definition first (elems : list value) : value := nth 0 elems JUndefined.

(** [a || b] and [a ?? b]; the right operand is evaluated only when it is
    needed, so an exception in it is raised only then. *)
Definition or_else (a b : res value) : res value :=
  x <- a ;; if truthy x then Ok x else b.

(** [a === b] on two strings or absent values, the only operands the
    program compares. *)
Definition strict_eq (a b : value) : bool :=
  match a, b with
  | JStr s, JStr t => s =? t
  | JUndefined, JUndefined => true
  | JNull, JNull => true
  | _, _ => false
  end.

(** [a || b] on operands that cannot throw. *)
Definition or_ (a b : value) : value := if truthy a then a else b.

Definition coalesce (a b : res value) : res value :=
  x <- a ;; if nullish x then b else Ok x.

(** [ToString]. On a plain object [Object.prototype.toString] answers,
    unless the object has an own [toString] property: coming from JSON it
    is no function, [valueOf] then returns the object itself and the
    conversion throws. An array is joined with commas, [null] and
    [undefined] elements giving the empty text. *)
Fixpoint ToString (v : value) : res string :=
  match v with
  | JUndefined => Ok "undefined"
  | JNull => Ok "null"
  | JBool true => Ok "true"
  | JBool false => Ok "false"
  | JNum n => Ok (num_to_string n)
  | JStr s => Ok s
  | JArr elems =>
      (fix join (l : list value) : res string :=
         match l with
         | [] => Ok ""
         | x :: rest =>
             s <- (if nullish x then Ok "" else ToString x) ;;
             match rest with
             | [] => Ok s
             | _ :: _ => r <- join rest ;; Ok (s ++ "," ++ r)
             end
         end) elems
  | JObj props =>
      if has_own "toString" props
      then Throw (TypeError "Cannot convert object to primitive value")
      else Ok "[object Object]"
  end.

(** Whether [v] can be written into a template literal. *)
Definition printable (v : value) : bool :=
  match ToString v with
  | Ok _ => true
  | Throw _ => false
  end.

(** [String(v)] and [parseFloat(v)]. *)
Definition String_ (v : value) : res value :=
  s <- ToString v ;; Ok (JStr s).

Definition parseFloat (v : value) : res value :=
  s <- ToString v ;; Ok (JNum (parseFloat_string s)).

(** An object literal: the property expressions are evaluated in source
    order and the first exception aborts the literal. *)
Fixpoint object (fields : list (string * res value)) : res (list (string * value)) :=
  match fields with
  | [] => Ok []
  | (k, e) :: rest =>
      v <- e ;; vs <- object rest ;; Ok ((k, v) :: vs)
  end.

(** The expression an object literal gives for the key [k]. *)
Fixpoint expression_of (k : string) (fields : list (string * res value))
  : option (res value) :=
  match fields with
  | [] => None
  | (k', e) :: rest => if k =? k' then Some e else expression_of k rest
  end.

(** [xs.map(f)] where [f] may throw. *)
Fixpoint map_throwing {A B} (f : A -> res B) (xs : list A) : res (list B) :=
  match xs with
  | [] => Ok []
  | x :: rest =>
      y <- f x ;; ys <- map_throwing f rest ;; Ok (y :: ys)
  end.

(** Storing a property: an existing key keeps its position. *)
Fixpoint set_prop (k : string) (v : value) (props : list (string * value))
  : list (string * value) :=
  match props with
  | [] => [(k, v)]
  | (k', v') :: rest =>
      if k =? k' then (k, v) :: rest else (k', v') :: set_prop k v rest
  end.

(** The key of the element at index [i]. *)
Definition index_key (i : nat) : string :=
  NilZero.string_of_uint (Nat.to_uint i).

Fixpoint indexed {A} (i : nat) (xs : list A) : list (string * A) :=
  match xs with
  | [] => []
  | x :: rest => (index_key i, x) :: indexed (S i) rest
  end.

Fixpoint characters (s : string) : list value :=
  match s with
  | EmptyString => []
  | String c rest => JStr (String c EmptyString) :: characters rest
  end.

(** [{ ...target, ...source }]: the own enumerable properties of [source]
    are stored one by one. An array contributes its indices, a string its
    characters, any other primitive nothing. *)
Definition own_enumerable (source : value) : list (string * value) :=
  match source with
  | JObj props => props
  | JArr elems => indexed 0 elems
  | JStr s => indexed 0 (characters s)
  | _ => []
  end.

Definition spread (target : list (string * value)) (source : value)
  : list (string * value) :=
  fold_left (fun acc kv => set_prop (fst kv) (snd kv) acc)
            (own_enumerable source) target.

(** The value of the expression [JSON.stringify(v, null, space)]. *)
Definition stringify (v : value) (space : nat) : value :=
  match JSON_stringify v space with
  | Some s => JStr s
  | None => JUndefined
  end.

(** A status code or a literal integer printed in decimal. *)
Definition Z_to_string (z : Z) : string :=
  NilZero.string_of_int (Z.to_int z).

(** [err.message]. *)
Definition message_of (e : thrown number) : string :=
  match e with
  | TypeError detail => detail
  | Error message _ => message
  end.
End Ops.

Declare Scope js_scope.
Notation "x <- r ;; k" := (bind r (fun x => k))
  (at level 61, r at next level, right associativity) : js_scope.

End Js.

Import Js.
Open Scope js_scope.

(* ================================================================== *)
(** * The process: environment, module state and the outside world     *)
(* ================================================================== *)

Module Process.

(** [process.env]; a variable that is not set reads as [undefined]. *)
Record environment : Type := {
  PIKNDEL_BASE_URL : option string;
  PIKNDEL_SOURCE : option string;
  PIKNDEL_USERNAME : option string;
  PIKNDEL_PASSWORD : option string;
  PIKNDEL_WEBHOOK_SECRET : option string;
}.

Inductive level : Type := log | warn | error.

Section World.
Context {number : Type}.
Local Abbreviation value := (jsval number).

Definition env_value (o : option string) : value :=
  match o with
  | Some s => JStr s
  | None => JUndefined
  end.

(** The configuration object handed to [axios]. *)
Record axios_config : Type := {
  method : string;
  url : string;
  data : value;
  headers : list (string * string);
  timeout : Z;
}.

(** [headers[name]] *)
Fixpoint header (name : string) (hs : list (string * string)) : value :=
  match hs with
  | [] => JUndefined
  | (k, v) :: rest => if k =? name then JStr v else header name rest
  end.

(** What [axios] does with a call: the provider answered with a status and
    a decoded body, or no response was received at all. *)
Inductive axios_outcome : Type :=
| Responded (status : Z) (body : value)
| Failed (message : string).

(** [models/WebhookResponse.js]: the document given to
    [WebhookResponse.create]. The driver's own work on it (schema casts,
    [createdAt]/[updatedAt]) is outside the model. *)
Record WebhookResponse : Type := {
  AWBNo : value;
  short_code : value;
  activity : value;
  timestamp : value;
  rawPayload : value;
}.

(** Everything a handler can change: the token cache of the service
    module, the calls made through [axios], the console, the collection. *)
Record world : Type := {
  cachedToken : value;
  outbound : list axios_config;
  console : list (level * string);
  collection : list WebhookResponse;
}.

(** What the outside supplies to one call of [request]. *)
Record io : Type := {
  uuidv4 : string;
  unix_seconds : number;      (* Math.floor(Date.now() / 1000) *)
  axios : axios_config -> axios_outcome;
}.

(** State and exceptions. *)
Definition M (A : Type) : Type := world -> result number A * world.

Definition ret {A} (a : A) : M A := fun w => (Ok a, w).

Definition throw {A} (e : thrown number) : M A := fun w => (Throw e, w).

Definition bindM {A B} (m : M A) (k : A -> M B) : M B :=
  fun w =>
    match m w with
    | (Ok a, w') => k a w'
    | (Throw e, w') => (Throw e, w')
    end.

Definition lift {A} (r : result number A) : M A := fun w => (r, w).

(** [try { m } catch (err) { handler err }] *)
Definition try_catch {A} (m : M A) (handler : thrown number -> M A) : M A :=
  fun w =>
    match m w with
    | (Ok a, w') => (Ok a, w')
    | (Throw e, w') => handler e w'
    end.

Definition read_token : M value := fun w => (Ok (cachedToken w), w).

Definition write_token (t : value) : M unit :=
  fun w => (Ok tt, {| cachedToken := t; outbound := outbound w;
                      console := console w; collection := collection w |}).

Definition console_print (l : level) (text : string) : M unit :=
  fun w => (Ok tt, {| cachedToken := cachedToken w; outbound := outbound w;
                      console := console w ++ [(l, text)];
                      collection := collection w |}).

Definition record_call (c : axios_config) : M unit :=
  fun w => (Ok tt, {| cachedToken := cachedToken w;
                      outbound := outbound w ++ [c];
                      console := console w; collection := collection w |}).

Definition insert_document (d : WebhookResponse) : M unit :=
  fun w => (Ok tt, {| cachedToken := cachedToken w; outbound := outbound w;
                      console := console w;
                      collection := collection w ++ [d] |}).
End World.

Arguments axios_config : clear implicits.
Arguments axios_outcome : clear implicits.
Arguments WebhookResponse : clear implicits.
Arguments world : clear implicits.
Arguments io : clear implicits.
Arguments M : clear implicits.

Declare Scope process_scope.
Notation "x <== m ;; k" := (bindM m (fun x => k))
  (at level 61, m at next level, right associativity) : process_scope.
Notation "m ;;; k" := (bindM m (fun _ => k))
  (at level 61, right associativity) : process_scope.

End Process.

Import Process.
Open Scope process_scope.

(* ================================================================== *)
(** * services/pikndelService.js                                       *)
(* ================================================================== *)

Module PikndelService.

Section Service.
Context {number : Type} {RT : Runtime number}.
Variable env : environment.

Local Abbreviation value := (jsval number).
Local Abbreviation res := (result number).

(** [s.replace(/\/$/, "")]: one trailing slash is dropped. *)
Fixpoint strip_trailing_slash (s : string) : string :=
  match s with
  | EmptyString => EmptyString
  | String c EmptyString => if Ascii.eqb c "/"%char then EmptyString else s
  | String c rest => String c (strip_trailing_slash rest)
  end.

Definition BASE_URL : string :=
  strip_trailing_slash
    match PIKNDEL_BASE_URL env with
    | Some s => if s =? "" then "https://api.pikndel.com" else s
    | None => "https://api.pikndel.com"
    end.

(** [a || d] with a literal on the right. *)
Definition default_to (a : res value) (d : value) : res value :=
  or_else a (Ok d).

(** [buildControl(version = 1)] *)
Definition buildControl (w : io number) (version : value) : res value :=
  let version := match version with JUndefined => lit "1" | _ => version end in
  props <- object [
    ("RequestId", Ok (JStr (uuidv4 w)));
    ("Source",
       Ok (match PIKNDEL_SOURCE env with
           | Some s => if s =? "" then lit "3" else JNum (Number_string s)
           | None => lit "3"
           end));
    ("RequestTime", Ok (JNum (unix_seconds w)));
    ("Version", String_ version)
  ] ;;
  Ok (JObj props).

(** [handlePikndelResponse(response)], with [{ status, data } = response]. *)
Definition handlePikndelResponse (status : Z) (data : value) : M number value :=
  if (status =? 200)%Z then
    ret data
  else if (status =? 400)%Z then
    text <== lift (m <- default_to (Ok (get_opt data "Message"))
                                   (stringify data 0) ;;
                   ToString m) ;;
    throw (Error ("PIKNDEL Bad Request (400): " ++ text) (Some (400%Z, data)))
  else if (status =? 401)%Z then
    write_token JNull ;;;
    text <== lift (m <- default_to (Ok (get_opt data "Message"))
                                   (JStr "Invalid or expired token.") ;;
                   ToString m) ;;
    throw (Error ("PIKNDEL Unauthorized (401): " ++ text) (Some (401%Z, data)))
  else if (status =? 500)%Z then
    text <== lift (m <- default_to (Ok (get_opt data "Message"))
                                   (stringify data 0) ;;
                   ToString m) ;;
    throw (Error ("PIKNDEL Internal Server Error (500): " ++ text)
                 (Some (500%Z, data)))
  else
    text <== lift (ToString (stringify data 0)) ;;
    throw (Error ("PIKNDEL Unexpected Response (" ++ Z_to_string status
                    ++ "): " ++ text)
                 (Some (status, data))).

(** The options object of [request], defaults filled in. *)
Record request_options : Type := {
  opt_method : string;
  opt_path : string;
  opt_data : value;
  opt_version : value;
  opt_auth : bool;
  opt_wrapInData : bool;
}.

(** axios resolves the promise for a 2xx status and rejects it, with
    [err.response] set, for any other. *)
Definition validateStatus (status : Z) : bool :=
  ((200 <=? status) && (status <? 300))%Z.

Definition network_error (path message : string) : thrown number :=
  Error ("Network error calling PIKNDEL [" ++ path ++ "]: " ++ message) None.

(** [request({ method, path, data, version, auth, wrapInData })] *)
Definition request (w : io number) (o : request_options) : M number value :=
  token <== read_token ;;
  authorization <==
    (if opt_auth o && truthy token
     then s <== lift (ToString token) ;;
          ret [("Authorization", "Bearer " ++ s)]
     else ret []) ;;
  let headers :=
    ([("Content-Type", "application/json"); ("Accept", "application/json")]
       ++ authorization)%list in
  control <== lift (buildControl w (opt_version o)) ;;
  let body :=
    if opt_wrapInData o
    then JObj [("Control", control); ("Data", opt_data o)]
    else JObj (spread [("Control", control)] (opt_data o)) in
  let config :=
    {| method := opt_method o;
       url := BASE_URL ++ opt_path o;
       data := body;
       headers := headers;
       timeout := 15000%Z |} in
  record_call config ;;;
  match axios w config with
  | Responded status d =>
      if validateStatus status
      then
        (* inside [try]: what the handler throws is caught and, having
           no [response], rethrown as a network error *)
        try_catch (handlePikndelResponse status d)
                  (fun err => throw (network_error (opt_path o) (message_of err)))
      else
        (* inside [catch]: [err.response] is the response *)
        handlePikndelResponse status d
  | Failed message =>
      throw (network_error (opt_path o) message)
  end.

(** [login(username, password)] *)
Definition login (w : io number) (username password : value) : M number value :=
  let Username := or_ username (env_value (PIKNDEL_USERNAME env)) in
  let Password := or_ password (env_value (PIKNDEL_PASSWORD env)) in
  if negb (truthy Username) || negb (truthy Password) then
    throw (Error "PIKNDEL credentials are missing. Set PIKNDEL_USERNAME and PIKNDEL_PASSWORD." None)
  else
    response <== request w
      {| opt_method := "post";
         opt_path := "/backoffice/api/account/login";
         opt_version := lit "1.3";
         opt_auth := false;
         opt_wrapInData := true;
         opt_data := JObj [("Username", Username);
                           ("Password", Password);
                           ("GrantType", JStr "password")] |} ;;
    let token :=
      or_ (or_ (or_ (get_opt (get_opt response "Data") "Token")
                    (get_opt response "Token"))
               (get_opt response "token"))
          (get_opt response "access_token") in
    if negb (truthy token) then
      throw (Error "Login succeeded but no JWT token was returned by PIKNDEL." None)
    else
      write_token token ;;;
      let userId :=
        or_ (or_ (get_opt (get_opt response "Data") "UserId")
                 (get_opt response "UserId"))
            JNull in
      shown <== lift (ToString userId) ;;
      console_print log ("[PikndelService] Authentication successful. UserId="
                           ++ shown ++ ". Token cached.") ;;;
      ret (JObj [("token", token);
                 ("userId", userId);
                 ("name", or_ (get_opt (get_opt response "Data") "Name") JNull)]).

(** ** placeOrder *)

(** [Array.isArray(x) ? x[0] : x] *)
Definition first_or_self (x : value) : value :=
  if isArray x then first (elements x) else x.

(** [!Array.isArray(x) || x.length === 0] *)
Definition not_a_non_empty_array (x : value) : bool :=
  negb (isArray x) || Nat.eqb (length (elements x)) 0.

(** [xs.map(f)]: [xs] is read first (so [base] must not be [null] or
    [undefined]) and must be an array for [map] to be a function. *)
Definition map_property (base : value) (k : string) (f : value -> res value)
  : res value :=
  xs <- get base k ;;
  match xs with
  | JArr elems => ys <- map_throwing f elems ;; Ok (JArr ys)
  | _ => Throw (TypeError (k ++ ".map is not a function"))
  end.

(** The validation block: the first failing check throws. *)
Definition validate (orderPayload : value) : res unit :=
  UserId <- get orderPayload "UserId" ;;
  OrderDetails <- get orderPayload "OrderDetails" ;;
  if negb (truthy UserId) then
    Throw (Error "placeOrder: UserId is required." None)
  else if not_a_non_empty_array OrderDetails then
    Throw (Error "placeOrder: OrderDetails must be a non-empty array." None)
  else
    let od := first (elements OrderDetails) in
    ClientUniqueNo <- get od "ClientUniqueNo" ;;
    if negb (truthy ClientUniqueNo) then
      Throw (Error "placeOrder: OrderDetails[0].ClientUniqueNo is required." None)
    else
      TotalActualWeight <- get od "TotalActualWeight" ;;
      if negb (truthy TotalActualWeight) then
        Throw (Error "placeOrder: OrderDetails[0].TotalActualWeight is required." None)
      else
        Info <- get od "Info" ;;
        let infoEntry := first_or_self Info in
        if negb (truthy infoEntry) then
          Throw (Error "placeOrder: OrderDetails[0].Info is required." None)
        else if negb (truthy (prop infoEntry "Pickup")) then
          Throw (Error "placeOrder: Info.Pickup is required." None)
        else if negb (truthy (prop infoEntry "Delivery")) then
          Throw (Error "placeOrder: Info.Delivery is required." None)
        else if not_a_non_empty_array (prop infoEntry "Item") then
          Throw (Error "placeOrder: Info.Item must be a non-empty array." None)
        else
          Ok tt.

Definition build_pickup (Pickup : value) : res value :=
  props <- object [
    ("UniqueNo", default_to (get Pickup "Mobile") (JStr ""));
    ("PersonName", get Pickup "PersonName");
    ("Mobile", get Pickup "Mobile");
    ("AddressType", default_to (get Pickup "AddressType") (JStr "Home"));
    ("HouseNo", default_to (get Pickup "HouseNo") (JStr ""));
    ("Landmark", default_to (get Pickup "Landmark") (JStr ""));
    ("Address", get Pickup "Address");
    ("Lat", default_to (get Pickup "Lat") (JStr ""));
    ("Lng", default_to (get Pickup "Lng") (JStr ""));
    ("Pincode", get Pickup "Pincode");
    ("CashPaid", default_to (get Pickup "CashPaid") (JStr "0"));
    ("CashCollection", default_to (get Pickup "CashCollection") (JStr "0"));
    ("Comment", default_to (get Pickup "Comment") (JStr ""));
    ("PickupDate", default_to (get Pickup "PickupDate") (JStr ""));
    ("PickupSlot", default_to (get Pickup "PickupSlot") (JStr ""));
    ("RTOName", or_else (get Pickup "RTOName") (get Pickup "PersonName"));
    ("RTOMobile", or_else (get Pickup "RTOMobile") (get Pickup "Mobile"));
    ("RTOAddr", or_else (get Pickup "RTOAddr") (get Pickup "Address"));
    ("RTOPincode", or_else (get Pickup "RTOPincode") (get Pickup "Pincode"))
  ] ;;
  Ok (JObj props).

Definition build_item (item : value) : res value :=
  props <- object [
    ("Qty", get item "Qty");
    ("Type", default_to (get item "Type") (JStr "Goods"));
    ("IsFragile", x <- coalesce (get item "IsFragile") (Ok (JStr "0")) ;; String_ x);
    ("IsLiquid", x <- coalesce (get item "IsLiquid") (Ok (JStr "0")) ;; String_ x);
    ("Name", default_to (get item "Name") JNull);
    ("Cost", get item "Cost");
    ("Length", default_to (get item "Length") (lit "0"));
    ("Width", default_to (get item "Width") (lit "0"));
    ("Height", default_to (get item "Height") (lit "0"));
    ("ActualWeight", default_to (get item "ActualWeight") (lit "1"));
    ("EWayBillNo",
       or_else (get item "EWayBillNo")
               (default_to (get item "EwayBillNo") (JStr "")))
  ] ;;
  Ok (JObj props).

Definition build_delivery (Delivery : value) : res value :=
  props <- object [
    ("UniqueNo", default_to (get Delivery "Mobile") (JStr ""));
    ("PersonName", get Delivery "PersonName");
    ("Mobile", get Delivery "Mobile");
    ("AddressType", default_to (get Delivery "AddressType") (JStr "Home"));
    ("HouseNo", default_to (get Delivery "HouseNo") (JStr ""));
    ("Landmark", default_to (get Delivery "Landmark") (JStr ""));
    ("Address", get Delivery "Address");
    ("Lat", default_to (get Delivery "Lat") (JStr ""));
    ("Lng", default_to (get Delivery "Lng") (JStr ""));
    ("Pincode", get Delivery "Pincode");
    ("CashCollection",
       default_to (c <- get Delivery "CashCollection" ;; parseFloat c) (lit "0"));
    ("Comment", default_to (get Delivery "Comment") (JStr ""))
  ] ;;
  Ok (JObj props).

(** The callback of [OrderDetails.map]. *)
Definition build_detail (od : value) : res value :=
  Info <- get od "Info" ;;
  let inf := first_or_self Info in
  props <- object [
    ("PreAWBNo", default_to (get od "PreAWBNo") (JStr ""));
    ("ClientUniqueNo", get od "ClientUniqueNo");
    ("VehicleType", default_to (get od "VehicleType") (JStr "Bike"));
    ("BrandName", default_to (get od "BrandName") (JStr ""));
    ("OrderType", default_to (get od "OrderType") (JStr "B2C"));
    ("InvoiceNo", default_to (get od "InvoiceNo") (JStr ""));
    ("InvoiceUrl", default_to (get od "InvoiceUrl") (JStr ""));
    ("InvoiceValue", default_to (get od "InvoiceValue") (JStr "0.00"));
    ("EWAYBillNo", default_to (get od "EWAYBillNo") (JStr ""));
    ("TotalActualWeight", w <- get od "TotalActualWeight" ;; String_ w);
    ("Info",
       entry <- object [
         ("Pickup", p <- get inf "Pickup" ;; build_pickup p);
         ("Item", map_property inf "Item" build_item);
         ("Delivery", d <- get inf "Delivery" ;; build_delivery d)
       ] ;;
       Ok (JArr [JObj entry]))
  ] ;;
  Ok (JObj props).

(** Everything [placeOrder] does before it calls [request]: the
    validation, then the body. *)
Definition placeOrder_body (orderPayload : value) : res value :=
  _ <- validate orderPayload ;;
  props <- object [
    ("UserId", String_ (prop orderPayload "UserId"));
    ("OrderDetails", map_property orderPayload "OrderDetails" build_detail)
  ] ;;
  Ok (JObj props).

(** [placeOrder(orderPayload)] *)
Definition placeOrder (w : io number) (orderPayload : value) : M number value :=
  body <== lift (placeOrder_body orderPayload) ;;
  request w
    {| opt_method := "post";
       opt_path := "/backoffice/api/pikndel/place_order";
       opt_version := lit "3.2";
       opt_auth := true;
       opt_wrapInData := true;
       opt_data := body |}.

(** [getOrderStatus(AWBNo)] *)
Definition getOrderStatus (w : io number) (AWBNo : value) : M number value :=
  if negb (truthy AWBNo) then
    throw (Error "getOrderStatus: AWBNo is required." None)
  else
    request w
      {| opt_method := "post";
         opt_path := "/backoffice/api/pikndel/order/get_status";
         opt_version := lit "1";
         opt_auth := true;
         opt_wrapInData := true;
         opt_data := JObj [("AWBNo", AWBNo)] |}.

(** [getToken()] and [setToken(t)] *)
Definition getToken : M number value := read_token.

Definition setToken (t : value) : M number unit := write_token t.

End Service.
End PikndelService.

(* ================================================================== *)
(** * routes/orderRoutes.js                                            *)
(* ================================================================== *)

Module OrderRoutes.

Section Routes.
Context {number : Type} {RT : Runtime number}.
Variable env : environment.

Local Abbreviation value := (jsval number).
Local Abbreviation res := (result number).

(** The parts of an Express request the routes read. [body] is
    [undefined] when no body was parsed. *)
Record request : Type := {
  req_headers : list (string * string);
  body : value;
}.

(** [res.status(code).json(payload)] *)
Record response : Type := {
  statusCode : Z;
  json : value;
}.

(** [sendSuccess(res, data, statusCode = 200)] *)
Definition sendSuccess (data : value) (code : Z) : response :=
  {| statusCode := code;
     json := JObj [("success", JBool true); ("data", data)] |}.

(** [sendError(res, err)] *)
Definition sendError (err : thrown number) : response :=
  match err with
  | Error message (Some (code, pikndelData)) =>
      {| statusCode := if (code =? 0)%Z then 500%Z else code;
         json := JObj [("success", JBool false);
                       ("error", JStr message);
                       ("pikndelData", or_ pikndelData JNull)] |}
  | _ =>
      {| statusCode := 500%Z;
         json := JObj [("success", JBool false);
                       ("error", JStr (message_of err));
                       ("pikndelData", JNull)] |}
  end.

(** What a middleware does: answer, or call [next()]. *)
Inductive middleware : Type :=
| Answer (r : response)
| Next.

(** [verifyWebhookSecret(req, res, next)] *)
Definition verifyWebhookSecret (req : request) : M number middleware :=
  let expectedSecret := env_value (PIKNDEL_WEBHOOK_SECRET env) in
  if negb (truthy expectedSecret) then
    console_print warn "[PIKNDEL Webhook] ⚠️  PIKNDEL_WEBHOOK_SECRET not set – skipping auth check." ;;;
    ret Next
  else
    let incomingSecret := header "x-pikndel-secret" (req_headers req) in
    if negb (truthy incomingSecret) then
      console_print warn "[PIKNDEL Webhook] ❌ Rejected – missing x-pikndel-secret header." ;;;
      ret (Answer {| statusCode := 401%Z;
                     json := JObj [("success", JBool false);
                                   ("error", JStr "Unauthorized: missing webhook secret header.")] |})
    else if negb (strict_eq incomingSecret expectedSecret) then
      console_print warn "[PIKNDEL Webhook] ❌ Rejected – invalid secret." ;;;
      ret (Answer {| statusCode := 401%Z;
                     json := JObj [("success", JBool false);
                                   ("error", JStr "Unauthorized: invalid webhook secret.")] |})
    else
      console_print log "[PIKNDEL Webhook] ✅ Webhook secret verified." ;;;
      ret Next.

(** ** POST /pikndel/status *)

Definition STATUS_MAP : list (string * string) :=
  [("NEW", "Order Created");
   ("PCK", "Parcel Picked Up");
   ("OFD", "Out for Delivery");
   ("DLD", "Delivered");
   ("RTO", "Return to Origin Initiated");
   ("RTN", "Returned");
   ("CAN", "Cancelled")].

(** An object literal inherits from [Object.prototype]: a read with one of
    these keys finds a built-in (a function, or the prototype itself for
    [__proto__]), which is truthy. The text is what a template literal
    prints for it. *)
Definition Object_prototype : list (string * string) :=
  [("constructor", "function Object() { [native code] }");
   ("__defineGetter__", "function __defineGetter__() { [native code] }");
   ("__defineSetter__", "function __defineSetter__() { [native code] }");
   ("hasOwnProperty", "function hasOwnProperty() { [native code] }");
   ("__lookupGetter__", "function __lookupGetter__() { [native code] }");
   ("__lookupSetter__", "function __lookupSetter__() { [native code] }");
   ("isPrototypeOf", "function isPrototypeOf() { [native code] }");
   ("propertyIsEnumerable", "function propertyIsEnumerable() { [native code] }");
   ("toString", "function toString() { [native code] }");
   ("valueOf", "function valueOf() { [native code] }");
   ("toLocaleString", "function toLocaleString() { [native code] }");
   ("__proto__", "[object Object]")].

Fixpoint assoc (k : string) (table : list (string * string)) : option string :=
  match table with
  | [] => None
  | (k', v) :: rest => if k =? k' then Some v else assoc k rest
  end.

(** The text of [`${table[short_code] || short_code}`]. The table's labels
    are non-empty, hence truthy. *)
Definition readable (table : list (string * string)) (short_code : value)
  : res string :=
  key <- ToString short_code ;;
  match assoc key table with
  | Some label =>
      if label =? "" then ToString short_code else Ok label
  | None =>
      match assoc key Object_prototype with
      | Some builtin => Ok builtin
      | None => ToString short_code
      end
  end.

(** How [console.log] prints an argument that is a string or [undefined]. *)
Definition printed (v : value) : string :=
  match v with
  | JStr s => s
  | _ => "undefined"
  end.

(** The argument of [WebhookResponse.create]. *)
Definition document_of (payload : value) : WebhookResponse number :=
  {| AWBNo := prop payload "AWBNo";
     short_code := prop payload "short_code";
     activity := prop payload "activity";
     timestamp := prop payload "timestamp";
     rawPayload := payload |}.

Definition acknowledged : response :=
  {| statusCode := 200%Z;
     json := JObj [("success", JBool true);
                   ("message", JStr "Webhook received and saved.")] |}.

(** The [try] block of the handler, over the lookup table it translates
    the code with and over the outcome of [WebhookResponse.create]: [None]
    when the document is stored, [Some message] when the promise is
    rejected. *)
Definition status_handler_try (table : list (string * string))
    (create : WebhookResponse number -> option string) (req : request)
  : M number response :=
  let payload := or_ (body req) (JObj []) in
  let AWBNo := prop payload "AWBNo" in
  let short_code := prop payload "short_code" in
  let activity := prop payload "activity" in
  let timestamp := prop payload "timestamp" in
  console_print log "──────────────────────────────────────────────────" ;;;
  console_print log "[PIKNDEL Webhook] Incoming status update" ;;;
  t1 <== lift (ToString AWBNo) ;;
  console_print log ("  AWBNo      : " ++ t1) ;;;
  t2 <== lift (ToString short_code) ;;
  console_print log ("  short_code : " ++ t2) ;;;
  t3 <== lift (ToString activity) ;;
  console_print log ("  activity   : " ++ t3) ;;;
  t4 <== lift (ToString timestamp) ;;
  console_print log ("  timestamp  : " ++ t4) ;;;
  console_print log ("  Full payload:" ++ " " ++ printed (stringify payload 2)) ;;;
  console_print log "──────────────────────────────────────────────────" ;;;
  readableStatus <== lift (readable table short_code) ;;
  t5 <== lift (ToString activity) ;;
  console_print log ("[PIKNDEL Webhook] Status: " ++ readableStatus ++ " – " ++ t5) ;;;
  (* the inner [try]: a rejected [create] is caught and logged *)
  let document := document_of payload in
  match create document with
  | None =>
      insert_document document ;;;
      console_print log "✅ Webhook payload saved to MongoDB -> 'pickndel integration responce file'"
  | Some message =>
      console_print error ("❌ Failed to save webhook to MongoDB:" ++ " " ++ message)
  end ;;;
  ret acknowledged.

(** The handler: the [try] block and its [catch]. *)
Definition status_handler_with (table : list (string * string))
    (create : WebhookResponse number -> option string) (req : request)
  : M number response :=
  try_catch
    (status_handler_try table create req)
    (fun err =>
       console_print error ("[PIKNDEL Webhook] Error processing payload:" ++ " " ++ message_of err) ;;;
       ret {| statusCode := 500%Z;
              json := JObj [("success", JBool false);
                            ("error", JStr "Webhook handler error.")] |}).

(** [router.post("/pikndel/status", verifyWebhookSecret, handler)] *)
Definition post_pikndel_status_with (table : list (string * string))
    (create : WebhookResponse number -> option string) (req : request)
  : M number response :=
  verdict <== verifyWebhookSecret req ;;
  match verdict with
  | Answer r => ret r
  | Next => status_handler_with table create req
  end.

Definition post_pikndel_status := post_pikndel_status_with STATUS_MAP.

(** [router.post("/auth/login", ...)] *)
Definition post_auth_login (w : io number) (req : request) : M number response :=
  try_catch
    (let credentials := or_ (body req) (JObj []) in
     session <== PikndelService.login env w (prop credentials "username")
                                            (prop credentials "password") ;;
     ret (sendSuccess (JObj [("token", prop session "token");
                             ("userId", prop session "userId");
                             ("name", prop session "name")])
                      200%Z))
    (fun err =>
       console_print error ("[Route /auth/login]" ++ " " ++ message_of err) ;;;
       ret (sendError err)).

(** [router.post("/status", ...)] *)
Definition post_status (w : io number) (req : request) : M number response :=
  try_catch
    (let AWBNo := prop (or_ (body req) (JObj [])) "AWBNo" in
     if negb (truthy AWBNo) then
       ret {| statusCode := 400%Z;
              json := JObj [("success", JBool false);
                            ("error", JStr "AWBNo is required in request body.")] |}
     else
       result <== PikndelService.getOrderStatus env w AWBNo ;;
       ret (sendSuccess result 200%Z))
    (fun err =>
       console_print error ("[Route /orders/status]" ++ " " ++ message_of err) ;;;
       ret (sendError err)).

(** [router.post("/place", ...)] *)
Definition post_place (w : io number) (req : request) : M number response :=
  try_catch
    (result <== PikndelService.placeOrder env w (body req) ;;
     ret (sendSuccess result 200%Z))
    (fun err =>
       console_print error ("[Route /orders/place]" ++ " " ++ message_of err) ;;;
       ret (sendError err)).

End Routes.

Arguments request : clear implicits.
Arguments response : clear implicits.
Arguments middleware : clear implicits.

End OrderRoutes.

(* ================================================================== *)
(** * A runtime to run the definitions on                              *)
(* ================================================================== *)

(** An instance of [Runtime] for the numbers a JSON text writes with
    finitely many decimal digits and no exponent: [m / 10^e], kept with
    the least [e]. Printing and parsing follow the language for such
    numbers of at most fifteen significant digits and of magnitude between
    [10^-6] and [10^21]; [-0] and the infinities are left out, and of
    [JSON.stringify] only the quote and the backslash are escaped. The
    instance serves to evaluate the definitions on concrete payloads. *)
Module DecimalRuntime.

Inductive decimal : Type :=
| NaN
| Dec (m : Z) (e : nat).

Fixpoint normalize (m : Z) (e : nat) : decimal :=
  match e with
  | O => Dec m O
  | S e' => if (m mod 10 =? 0)%Z then normalize (m / 10) e' else Dec m e
  end.

Fixpoint zeros (n : nat) : string :=
  match n with
  | O => ""
  | S n' => "0" ++ zeros n'
  end.

Definition to_string (d : decimal) : string :=
  match d with
  | NaN => "NaN"
  | Dec m e =>
      let digits := NilZero.string_of_uint (N.to_uint (Z.to_N (Z.abs m))) in
      let padded := zeros (S e - String.length digits) ++ digits in
      let cut := (String.length padded - e)%nat in
      (if (m <? 0)%Z then "-" else "")
        ++ substring 0 cut padded
        ++ (match e with O => "" | _ => "." ++ substring cut e padded end)
  end.

Definition digit (c : ascii) : option Z :=
  let n := nat_of_ascii c in
  if (48 <=? n)%nat && (n <=? 57)%nat then Some (Z.of_nat (n - 48)) else None.

(** The digits at the head of [s]: their value appended to [acc], how many
    there were, and what follows. *)
Fixpoint take_digits (s : string) (acc : Z) (n : nat) : Z * nat * string :=
  match s with
  | EmptyString => (acc, n, s)
  | String c rest =>
      match digit c with
      | Some d => take_digits rest (acc * 10 + d) (S n)
      | None => (acc, n, s)
      end
  end.

Fixpoint skip_blanks (s : string) : string :=
  match s with
  | String c rest => if (nat_of_ascii c <=? 32)%nat then skip_blanks rest else s
  | EmptyString => s
  end.

Definition unsigned_prefix (s : string) : option (decimal * string) :=
  let '(whole, n1, r1) := take_digits s 0 0 in
  match r1 with
  | String "."%char r2 =>
      let '(all, n2, r3) := take_digits r2 whole 0 in
      if (n1 + n2 =? 0)%nat then None else Some (normalize all n2, r3)
  | _ => if (n1 =? 0)%nat then None else Some (Dec whole 0, r1)
  end.

Definition negate (d : decimal) : decimal :=
  match d with
  | NaN => NaN
  | Dec m e => Dec (- m) e
  end.

(** The longest decimal literal at the head of [s], with what follows. *)
Definition decimal_prefix (s : string) : option (decimal * string) :=
  match s with
  | String "-"%char rest =>
      match unsigned_prefix rest with
      | Some (d, r) => Some (negate d, r)
      | None => None
      end
  | String "+"%char rest => unsigned_prefix rest
  | _ => unsigned_prefix s
  end.

Definition parse_float (s : string) : decimal :=
  match decimal_prefix (skip_blanks s) with
  | Some (d, _) => d
  | None => NaN
  end.

Definition to_number (s : string) : decimal :=
  let t := skip_blanks s in
  if t =? "" then Dec 0 0
  else match decimal_prefix t with
       | Some (d, rest) => if skip_blanks rest =? "" then d else NaN
       | None => NaN
       end.

Definition is_truthy (d : decimal) : bool :=
  match d with
  | NaN => false
  | Dec m _ => negb (m =? 0)%Z
  end.

Definition newline : string := String (ascii_of_nat 10) EmptyString.

(** A string between quotes; the quote and the backslash are escaped. *)
Fixpoint escape (s : string) : string :=
  match s with
  | EmptyString => EmptyString
  | String c rest =>
      if Ascii.eqb c (ascii_of_nat 34) || Ascii.eqb c (ascii_of_nat 92)
      then String (ascii_of_nat 92) (String c (escape rest))
      else String c (escape rest)
  end.

Definition quote (s : string) : string :=
  String (ascii_of_nat 34) (escape s ++ String (ascii_of_nat 34) EmptyString).

Fixpoint blanks (n : nat) : string :=
  match n with
  | O => ""
  | S n' => " " ++ blanks n'
  end.

Definition bracket (space : nat) (indent : string) (opening closing : string)
    (members : list string) : string :=
  match members with
  | [] => opening ++ closing
  | _ =>
      let inner := indent ++ blanks space in
      let gap := match space with O => "" | _ => newline ++ inner end in
      opening ++ gap ++ String.concat ("," ++ gap) members
        ++ (match space with O => "" | _ => newline ++ indent end) ++ closing
  end.

Fixpoint stringify_at (space : nat) (indent : string) (v : jsval decimal) : string :=
  match v with
  | JUndefined | JNull => "null"
  | JBool true => "true"
  | JBool false => "false"
  | JNum NaN => "null"
  | JNum d => to_string d
  | JStr s => quote s
  | JArr elems =>
      bracket space indent "[" "]"
        ((fix items (l : list (jsval decimal)) : list string :=
            match l with
            | [] => []
            | x :: rest => stringify_at space (indent ++ blanks space) x :: items rest
            end) elems)
  | JObj props =>
      bracket space indent "{" "}"
        ((fix members (l : list (string * jsval decimal)) : list string :=
            match l with
            | [] => []
            | (_, JUndefined) :: rest => members rest
            | (k, x) :: rest =>
                (quote k ++ (match space with O => ":" | _ => ": " end)
                   ++ stringify_at space (indent ++ blanks space) x)
                  :: members rest
            end) props)
  end.

Definition json_stringify (v : jsval decimal) (space : nat) : option string :=
  match v with
  | JUndefined => None
  | _ => Some (stringify_at space "" v)
  end.

#[export] Instance runtime : Runtime decimal := {
  num_truthy := is_truthy;
  num_to_string := to_string;
  Number_string := to_number;
  parseFloat_string := parse_float;
  JSON_stringify := json_stringify;
}.

End DecimalRuntime.

(* ================================================================== *)
(** * The specification's vocabulary                                   *)
(* ================================================================== *)

(** Definitions that follow the words of the specification, to be
    compared with the code above. *)
Module Spec.

(** The fields [placeOrder] requires, in the order the specification lists
    them. *)
Inductive required : Type :=
| UserId
| OrderDetails
| ClientUniqueNo
| TotalActualWeight
| Info
| Pickup
| Delivery
| Item.

Definition check_order : list required :=
  [UserId; OrderDetails; ClientUniqueNo; TotalActualWeight;
   Info; Pickup; Delivery; Item].

Section Spec.
Context {number : Type} {RT : Runtime number}.

Local Abbreviation value := (jsval number).

(** A field is present when it holds something: the specification's
    "present", "populated" and "missing" are the language's truthiness, so
    that an empty string, [null], [false] or zero count as missing. *)
Definition present (v : value) : bool := truthy v.

Definition non_empty_array (v : value) : bool :=
  match v with
  | JArr (_ :: _) => true
  | _ => false
  end.

Definition detail_blocks (payload : value) : list value :=
  elements (prop payload "OrderDetails").

Definition first_detail (payload : value) : value :=
  match detail_blocks payload with
  | od :: _ => od
  | [] => JUndefined
  end.

(** A detail's Info, or its first element when Info is an array. *)
Definition info_of (od : value) : value :=
  match prop od "Info" with
  | JArr (entry :: _) => entry
  | JArr [] => JUndefined
  | info => info
  end.

Definition missing (payload : value) (f : required) : bool :=
  match f with
  | UserId => negb (present (prop payload "UserId"))
  | OrderDetails => negb (non_empty_array (prop payload "OrderDetails"))
  | ClientUniqueNo =>
      negb (present (prop (first_detail payload) "ClientUniqueNo"))
  | TotalActualWeight =>
      negb (present (prop (first_detail payload) "TotalActualWeight"))
  | Info => negb (present (info_of (first_detail payload)))
  | Pickup => negb (present (prop (info_of (first_detail payload)) "Pickup"))
  | Delivery => negb (present (prop (info_of (first_detail payload)) "Delivery"))
  | Item => negb (non_empty_array (prop (info_of (first_detail payload)) "Item"))
  end.

(** The first missing field in the check order, if any. *)
Definition first_missing (payload : value) : option required :=
  find (missing payload) check_order.

(** The ValidationError naming a field: an [Error] with no status code. *)
Definition ValidationError (f : required) : thrown number :=
  Error
    match f with
    | UserId => "placeOrder: UserId is required."
    | OrderDetails => "placeOrder: OrderDetails must be a non-empty array."
    | ClientUniqueNo => "placeOrder: OrderDetails[0].ClientUniqueNo is required."
    | TotalActualWeight => "placeOrder: OrderDetails[0].TotalActualWeight is required."
    | Info => "placeOrder: OrderDetails[0].Info is required."
    | Pickup => "placeOrder: Info.Pickup is required."
    | Delivery => "placeOrder: Info.Delivery is required."
    | Item => "placeOrder: Info.Item must be a non-empty array."
    end
    None.

(** An order payload is an object, and the first of its detail blocks,
    when there is one, is a block and not [null]. *)
Definition order_payload (payload : value) : Prop :=
  nullish payload = false /\
  (non_empty_array (prop payload "OrderDetails") = true ->
   nullish (first_detail payload) = false).

(** *** The body that [placeOrder] builds *)

(** The single Info entry of a built detail block, and the items of a
    block of the payload and of the body. *)
Definition built_info (d : value) : value := first (elements (prop d "Info")).

Definition items_in (od : value) : list value :=
  elements (prop (info_of od) "Item").

Definition items_built (d : value) : list value :=
  elements (prop (built_info d) "Item").

(** A property of every item of every detail block, relating the item of
    the payload to the item built from it. *)
Definition for_every_item (R : value -> value -> Prop) (payload body : value)
  : Prop :=
  Forall2 (fun od d => Forall2 R (items_in od) (items_built d))
          (detail_blocks payload) (detail_blocks body).

(** A computation that returns a value. *)
Definition succeeds {A} (r : result number A) : Prop := exists a, r = Ok a.

(** A detail block from which a block of the body can be built: the
    block, its Info entry, Pickup and Delivery are there, Item is an array
    of items, and what the builder converts can be written as text. *)
Definition complete_item (item : value) : Prop :=
  nullish item = false
  /\ printable (prop item "IsFragile") = true
  /\ printable (prop item "IsLiquid") = true.

Definition complete_block (od : value) : Prop :=
  nullish od = false
  /\ printable (prop od "TotalActualWeight") = true
  /\ nullish (prop (info_of od) "Pickup") = false
  /\ nullish (prop (info_of od) "Delivery") = false
  /\ isArray (prop (info_of od) "Item") = true
  /\ Forall complete_item (items_in od)
  /\ printable (prop (prop (info_of od) "Delivery") "CashCollection") = true.

(** A detail block that lacks a part the builder reads into: no Info
    entry, no Pickup, no Delivery (absent or [null]), or an Item that is
    no array. *)
Definition lacks_part (od : value) : bool :=
  nullish (info_of od)
  || nullish (prop (info_of od) "Pickup")
  || nullish (prop (info_of od) "Delivery")
  || negb (isArray (prop (info_of od) "Item")).

(** A computation that throws nothing but TypeErrors. *)
Definition raises_only_TypeError {A} (r : result number A) : Prop :=
  match r with
  | Throw (Error _ _) => False
  | _ => True
  end.

(** The cash fields as the specification types them. *)
Definition cash_types_claimed (body : value) : Prop :=
  Forall
    (fun d =>
       typeof (prop (prop (built_info d) "Delivery") "CashCollection") = "number"
       /\ typeof (prop (prop (built_info d) "Pickup") "CashCollection") = "string"
       /\ typeof (prop (prop (built_info d) "Pickup") "CashPaid") = "string")
    (detail_blocks body).

(** A Pickup cash field: the input when it is present, the text "0"
    otherwise. *)
Definition pickup_cash (input : value) : value :=
  if present input then input else JStr "0".

(** The cash fields of a built block [d], from the block [od] of the
    payload. *)
Definition cash_fields_built (od d : value) : Prop :=
  let Pickup_in := prop (info_of od) "Pickup" in
  let Pickup_out := prop (built_info d) "Pickup" in
  typeof (prop (prop (built_info d) "Delivery") "CashCollection") = "number"
  /\ prop Pickup_out "CashPaid" = pickup_cash (prop Pickup_in "CashPaid")
  /\ prop Pickup_out "CashCollection"
     = pickup_cash (prop Pickup_in "CashCollection").

(** The flags as the specification has them. *)
Definition binary_flag (v : value) : Prop := v = JStr "0" \/ v = JStr "1".

Definition flags_claimed (body : value) : Prop :=
  Forall
    (fun d =>
       Forall (fun item => binary_flag (prop item "IsFragile")
                           /\ binary_flag (prop item "IsLiquid"))
              (items_built d))
    (detail_blocks body).

(** The text of a flag: "0" for an absent or null input, otherwise the
    input written as text. *)
Definition flag_text (input : value) : result number string :=
  match input with
  | JUndefined | JNull => Ok "0"
  | JBool true => Ok "true"
  | JBool false => Ok "false"
  | JNum n => Ok (num_to_string n)
  | JStr s => Ok s
  | other => ToString other
  end.

Definition flags_built (item out : value) : Prop :=
  (exists s, flag_text (prop item "IsFragile") = Ok s
             /\ prop out "IsFragile" = JStr s)
  /\ (exists s, flag_text (prop item "IsLiquid") = Ok s
                /\ prop out "IsLiquid" = JStr s).

(** The e-way bill number of an item, under either spelling. *)
Definition eway_bill_of (item : value) : value :=
  if present (prop item "EWayBillNo") then prop item "EWayBillNo"
  else if present (prop item "EwayBillNo") then prop item "EwayBillNo"
  else JStr "".

Definition eway_bill_built (item out : value) : Prop :=
  prop out "EWayBillNo" = eway_bill_of item.

(** *** The provider client and the token *)

(** The calls a computation hands to [axios], in order. *)
Definition calls_made {A} (m : M number A) (w : world number)
  : list (axios_config number) :=
  skipn (length (outbound w)) (outbound (snd (m w))).

Definition no_authorization (c : axios_config number) : Prop :=
  header "Authorization" (headers c) = @JUndefined number.

(** The Unauthorized failure for a response body [d]. *)
Definition Unauthorized (d : value) (e : thrown number) : Prop :=
  exists text,
    e = Error ("PIKNDEL Unauthorized (401): " ++ text) (Some (401%Z, d)).

(** The text a 401 reports: the provider's message, or a fixed one. *)
Definition unauthorized_message (d : value) : value :=
  or_ (get_opt d "Message") (JStr "Invalid or expired token.").

(** The fields [login] looks for the token in, in order. *)
Definition token_candidates (response : value) : list value :=
  [get_opt (get_opt response "Data") "Token";
   get_opt response "Token";
   get_opt response "token";
   get_opt response "access_token"].

Definition TokenMissing : thrown number :=
  Error "Login succeeded but no JWT token was returned by PIKNDEL." None.

(** The user identifier [login] reports, and what it returns for a token
    found in [response]. *)
Definition userId_of (response : value) : value :=
  or_ (or_ (get_opt (get_opt response "Data") "UserId")
           (get_opt response "UserId"))
      JNull.

Definition login_result (response token : value) : value :=
  JObj [("token", token);
        ("userId", userId_of response);
        ("name", or_ (get_opt (get_opt response "Data") "Name") JNull)].

(** The credentials [login] uses: the arguments, else the environment. *)
Definition credentials (env : environment) (username password : value)
  : value * value :=
  (or_ username (env_value (PIKNDEL_USERNAME env)),
   or_ password (env_value (PIKNDEL_PASSWORD env))).

(** *** The webhook *)

(** The push payload: [req.body || {}]. *)
Definition payload_of (req : OrderRoutes.request number) : value :=
  or_ (OrderRoutes.body req) (JObj []).

(** The four fields the handler writes to the console can be written. *)
Definition loggable (req : OrderRoutes.request number) : bool :=
  printable (prop (payload_of req) "AWBNo")
  && printable (prop (payload_of req) "short_code")
  && printable (prop (payload_of req) "activity")
  && printable (prop (payload_of req) "timestamp").

(** A secret is configured when the variable is set and not empty. *)
Definition configured_secret (env : environment) : option string :=
  match PIKNDEL_WEBHOOK_SECRET env with
  | Some s => if s =? "" then None else Some s
  | None => None
  end.

(** The secret a push presents is the configured one. *)
Definition presents (req : OrderRoutes.request number) (secret : string) : bool :=
  match header (number := number) "x-pikndel-secret"
               (OrderRoutes.req_headers req) with
  | JStr s => s =? secret
  | _ => false
  end.

(** The console line that reports a failed save. *)
Definition save_failure (message : string) : level * string :=
  (error, "❌ Failed to save webhook to MongoDB: " ++ message).

(** The structured error body of a rejected push. *)
Definition rejection (r : OrderRoutes.response number) : Prop :=
  OrderRoutes.statusCode r = 401%Z
  /\ exists reason,
       OrderRoutes.json r
       = JObj [("success", JBool false); ("error", JStr reason)].

End Spec.
End Spec.

(* ================================================================== *)
(** * Sample inputs                                                    *)
(* ================================================================== *)

Module Samples.

Section Samples.
Context {number : Type} {RT : Runtime number}.

Local Abbreviation value := (jsval number).

Definition sender : list (string * value) :=
  [("PersonName", JStr "Test Sender");
   ("Mobile", JStr "9876543210");
   ("Address", JStr "22, MG Road, Mumbai Central");
   ("Pincode", JStr "400008")].

Definition receiver : list (string * value) :=
  [("PersonName", JStr "Test Receiver");
   ("Mobile", JStr "9123456789");
   ("AddressType", JStr "Office");
   ("Address", JStr "Govindpuri Kalkaji, New Delhi");
   ("Pincode", JStr "110019")].

Definition parcel : list (string * value) :=
  [("Qty", lit "1"); ("Name", JStr "Test Item"); ("Cost", lit "55000")].

Definition detail (Pickup : list (string * value))
    (Item : list value) (Delivery : list (string * value)) : value :=
  JObj [("ClientUniqueNo", JStr "LQ/TEST/3001");
        ("TotalActualWeight", JStr "1");
        ("Info", JArr [JObj [("Pickup", JObj Pickup);
                             ("Item", JArr Item);
                             ("Delivery", JObj Delivery)]])].

Definition order (OrderDetails : list value) : value :=
  JObj [("UserId", JStr "7034"); ("OrderDetails", JArr OrderDetails)].

(** A complete order with one detail block. *)
Definition complete_order : value :=
  order [detail sender [JObj parcel] receiver].

(** The same order with no ClientUniqueNo in its detail block. *)
Definition order_without_ClientUniqueNo : value :=
  order [JObj [("TotalActualWeight", JStr "1");
               ("Info", JArr [JObj [("Pickup", JObj sender);
                                    ("Item", JArr [JObj parcel]);
                                    ("Delivery", JObj receiver)]])]].

(** Pickup cash amounts given as numbers. *)
Definition order_with_numeric_cash : value :=
  order [detail (sender ++ [("CashPaid", lit "50"); ("CashCollection", lit "120")])
                [JObj parcel]
                (receiver ++ [("CashCollection", JStr "120.50")])].

(** A fragile flag given as a boolean. *)
Definition order_with_boolean_flag : value :=
  order [detail sender [JObj (parcel ++ [("IsFragile", JBool true)])] receiver].

(** An e-way bill number under the alternate spelling. *)
Definition order_with_eway_bill : value :=
  order [detail sender [JObj (parcel ++ [("EwayBillNo", JStr "EWAY001TEST001")])]
                receiver].

(** A second detail block with no Info. *)
Definition order_with_incomplete_second_detail : value :=
  order [detail sender [JObj parcel] receiver;
         JObj [("ClientUniqueNo", JStr "LQ/TEST/3002");
               ("TotalActualWeight", JStr "2")]].

Definition production : environment :=
  {| PIKNDEL_BASE_URL := Some "https://api.pikndel.com/";
     PIKNDEL_SOURCE := Some "3";
     PIKNDEL_USERNAME := Some "integration";
     PIKNDEL_PASSWORD := Some "secret";
     PIKNDEL_WEBHOOK_SECRET := Some "s3cret" |}.

Definition development : environment :=
  {| PIKNDEL_BASE_URL := None;
     PIKNDEL_SOURCE := None;
     PIKNDEL_USERNAME := None;
     PIKNDEL_PASSWORD := None;
     PIKNDEL_WEBHOOK_SECRET := None |}.

(** A provider that answers every call with the given status and body. *)
Definition answering (status : Z) (body : value) : io number :=
  {| uuidv4 := "0b0e7c7e-2f3a-4c3e-9a55-1f0f5d6c7a10";
     unix_seconds := Number_string "1652350911";
     axios := fun _ => Responded status body |}.

Definition fresh : world number :=
  {| cachedToken := JNull; outbound := []; console := []; collection := [] |}.

Definition logged_in : world number :=
  {| cachedToken := JStr "abc"; outbound := []; console := []; collection := [] |}.

Definition push : value :=
  JObj [("AWBNo", JStr "PKD1");
        ("short_code", JStr "PCK");
        ("activity", JStr "picked");
        ("timestamp", lit "1700000000")].

Definition push_with (secret : list (string * string)) : OrderRoutes.request number :=
  {| OrderRoutes.req_headers := ("content-type", "application/json") :: secret;
     OrderRoutes.body := push |}.

(** A push whose AWBNo is an object with a [toString] key of its own, as
    [JSON.parse] makes of [{"AWBNo": {"toString": 1}}]. *)
Definition push_with_unprintable_AWBNo : OrderRoutes.request number :=
  {| OrderRoutes.req_headers := [];
     OrderRoutes.body := JObj [("AWBNo", JObj [("toString", lit "1")])] |}.

(** A store that accepts every document, and one that rejects them all. *)
Definition reachable : WebhookResponse number -> option string :=
  fun _ => None.

Definition unreachable : WebhookResponse number -> option string :=
  fun _ => Some "Operation `pickndel integration responce file.insertOne()` buffering timed out after 10000ms".

End Samples.
End Samples.

(* ================================================================== *)
(** * Further vocabulary: the client, the routes                       *)
(* ================================================================== *)

Module Notions.

Section Notions.
Context {number : Type} {RT : Runtime number}.

Local Abbreviation value := (jsval number).
Local Abbreviation options := (@PikndelService.request_options number).

(** What [request] does once the configuration [c] has been handed to
    axios: the [try] around the answer and the [catch]. *)
Definition settle (w : io number) (path : string) (c : axios_config number)
  : M number value :=
  match axios w c with
  | Responded status d =>
      if PikndelService.validateStatus status
      then try_catch (PikndelService.handlePikndelResponse status d)
             (fun err => throw (PikndelService.network_error path (message_of err)))
      else PikndelService.handlePikndelResponse status d
  | Failed message => throw (PikndelService.network_error path message)
  end.

(** The Authorization header [request] attaches for a cached token whose
    text is [text]. *)
Definition authorization (o : options)
    (token : value) (text : string) : list (string * string) :=
  if PikndelService.opt_auth o && truthy token
  then [("Authorization", "Bearer " ++ text)]
  else [].

(** The body [request] sends around the envelope [control]. *)
Definition enveloped (o : options) (control : value)
  : value :=
  if PikndelService.opt_wrapInData o
  then JObj [("Control", control); ("Data", PikndelService.opt_data o)]
  else JObj (spread [("Control", control)] (PikndelService.opt_data o)).

(** The configuration [request] hands to axios. *)
Definition configuration (env : environment) (o : options)
    (token : value) (text : string) (control : value) : axios_config number :=
  {| method := PikndelService.opt_method o;
     url := PikndelService.BASE_URL env ++ PikndelService.opt_path o;
     data := enveloped o control;
     headers :=
       ([("Content-Type", "application/json"); ("Accept", "application/json")]
          ++ authorization o token text)%list;
     timeout := 15000%Z |}.

(** [Number(process.env.PIKNDEL_SOURCE || 3)] *)
Definition source (env : environment) : value :=
  match PIKNDEL_SOURCE env with
  | Some s => if s =? "" then lit "3" else JNum (Number_string s)
  | None => lit "3"
  end.

(** The envelope of a call: the identifier and the time the outside gave,
    the source, and the version as text. *)
Definition envelope (env : environment) (w : io number) (version : string)
  : value :=
  JObj [("RequestId", JStr (uuidv4 w));
        ("Source", source env);
        ("RequestTime", JNum (unix_seconds w));
        ("Version", JStr version)].

(** The version [buildControl] writes: the default 1 for [undefined]. *)
Definition version_or_default (version : value) : value :=
  match version with
  | JUndefined => lit "1"
  | _ => version
  end.

(** The options [login], [placeOrder] and [getOrderStatus] call [request]
    with, defaults filled in. *)
Definition login_request (Username Password : value) : options :=
  {| PikndelService.opt_method := "post";
     PikndelService.opt_path := "/backoffice/api/account/login";
     PikndelService.opt_version := lit "1.3";
     PikndelService.opt_auth := false;
     PikndelService.opt_wrapInData := true;
     PikndelService.opt_data := JObj [("Username", Username);
                                      ("Password", Password);
                                      ("GrantType", JStr "password")] |}.

Definition order_request (body : value) : options :=
  {| PikndelService.opt_method := "post";
     PikndelService.opt_path := "/backoffice/api/pikndel/place_order";
     PikndelService.opt_version := lit "3.2";
     PikndelService.opt_auth := true;
     PikndelService.opt_wrapInData := true;
     PikndelService.opt_data := body |}.

Definition status_request (AWBNo : value) : options :=
  {| PikndelService.opt_method := "post";
     PikndelService.opt_path := "/backoffice/api/pikndel/order/get_status";
     PikndelService.opt_version := lit "1";
     PikndelService.opt_auth := true;
     PikndelService.opt_wrapInData := true;
     PikndelService.opt_data := JObj [("AWBNo", AWBNo)] |}.

(** The failure of [login] without credentials. *)
Definition MissingCredentials : thrown number :=
  Error "PIKNDEL credentials are missing. Set PIKNDEL_USERNAME and PIKNDEL_PASSWORD." None.

(** *** The body of an order *)

(** Fields of [out] copied from [input] as they are. *)
Definition copied (keys : list string) (input out : value) : Prop :=
  Forall (fun k => prop out k = prop input k) keys.

(** Fields of [out] taken from [input] when present there, and from the
    given stand-in otherwise. *)
Definition defaulted (defaults : list (string * value)) (input out : value)
  : Prop :=
  Forall (fun kd => prop out (fst kd) = or_ (prop input (fst kd)) (snd kd))
         defaults.

(** Fields of [out] taken from [input] when present there, and from
    another field of [input] otherwise. *)
Definition falling_back (pairs : list (string * string)) (input out : value)
  : Prop :=
  Forall (fun kf => prop out (fst kf)
                    = or_ (prop input (fst kf)) (prop input (snd kf)))
         pairs.

(** A field of [out] that is the field of [input] written as text. *)
Definition written_as_text (k : string) (input out : value) : Prop :=
  exists text, ToString (prop input k) = Ok text /\ prop out k = JStr text.

Definition detail_defaults : list (string * value) :=
  [("PreAWBNo", JStr ""); ("VehicleType", JStr "Bike"); ("BrandName", JStr "");
   ("OrderType", JStr "B2C"); ("InvoiceNo", JStr ""); ("InvoiceUrl", JStr "");
   ("InvoiceValue", JStr "0.00"); ("EWAYBillNo", JStr "")].

Definition party_required : list string :=
  ["PersonName"; "Mobile"; "Address"; "Pincode"].

Definition party_defaults : list (string * value) :=
  [("AddressType", JStr "Home"); ("HouseNo", JStr ""); ("Landmark", JStr "");
   ("Lat", JStr ""); ("Lng", JStr ""); ("Comment", JStr "")].

Definition return_fallbacks : list (string * string) :=
  [("RTOName", "PersonName"); ("RTOMobile", "Mobile");
   ("RTOAddr", "Address"); ("RTOPincode", "Pincode")].

Definition item_defaults : list (string * value) :=
  [("Type", JStr "Goods"); ("Name", JNull); ("Length", lit "0");
   ("Width", lit "0"); ("Height", lit "0"); ("ActualWeight", lit "1")].

(** A built party (Pickup or Delivery) against the one of the payload. *)
Definition party_built (input out : value) : Prop :=
  copied party_required input out
  /\ defaulted party_defaults input out
  /\ prop out "UniqueNo" = or_ (prop input "Mobile") (JStr "").

(** A built detail block against the block of the payload. *)
Definition detail_built (od d : value) : Prop :=
  prop d "ClientUniqueNo" = prop od "ClientUniqueNo"
  /\ written_as_text "TotalActualWeight" od d
  /\ defaulted detail_defaults od d.

Definition parties_built (od d : value) : Prop :=
  party_built (prop (Spec.info_of od) "Pickup")
              (prop (Spec.built_info d) "Pickup")
  /\ party_built (prop (Spec.info_of od) "Delivery")
                 (prop (Spec.built_info d) "Delivery").

Definition return_address_built (od d : value) : Prop :=
  let Pickup_in := prop (Spec.info_of od) "Pickup" in
  let Pickup_out := prop (Spec.built_info d) "Pickup" in
  falling_back return_fallbacks Pickup_in Pickup_out
  /\ defaulted [("PickupDate", JStr ""); ("PickupSlot", JStr "")]
               Pickup_in Pickup_out.

Definition item_built (item out : value) : Prop :=
  copied ["Qty"; "Cost"] item out /\ defaulted item_defaults item out.

(** An order whose first detail block brings two Info entries. *)
Definition order_with_two_info_entries : value :=
  Samples.order
    [JObj [("ClientUniqueNo", JStr "LQ/TEST/3001");
           ("TotalActualWeight", lit "2");
           ("Info", JArr [JObj [("Pickup", JObj Samples.sender);
                                ("Item", JArr [JObj Samples.parcel;
                                               JObj Samples.parcel]);
                                ("Delivery", JObj Samples.receiver)];
                          JObj [("Pickup", JObj Samples.receiver);
                                ("Item", JArr [JObj Samples.parcel]);
                                ("Delivery", JObj Samples.sender)]])]].

(** The keys of an object are pairwise distinct, as in any object of the
    language. *)
Definition distinct_keys (props : list (string * value)) : Prop :=
  NoDup (map fst props).

(** *** The routes *)

(** The [try] and [catch] every route of the client is wrapped in: a
    failure is printed under the label of the route and answered with
    the error envelope. *)
Definition route (label : string) (m : M number (OrderRoutes.response number))
  : M number (OrderRoutes.response number) :=
  try_catch m
    (fun err =>
       console_print error (label ++ " " ++ message_of err) ;;;
       ret (OrderRoutes.sendError err)).

(** A computation that leaves the token and the network alone. *)
Definition offline {A} (m : M number A) : Prop :=
  forall w,
    cachedToken (snd (m w)) = cachedToken w
    /\ outbound (snd (m w)) = outbound w.

(** A handler that answers, whatever the state it starts in. *)
Definition answers (m : M number (OrderRoutes.response number)) : Prop :=
  forall w, exists r, fst (m w) = Ok r.

(** The request of a route with the given body. *)
Definition posting (body : value) : OrderRoutes.request number :=
  {| OrderRoutes.req_headers := [("content-type", "application/json")];
     OrderRoutes.body := body |}.

(** The error envelope of the routes for a failure with no status code. *)
Definition internal_error (message : string) : OrderRoutes.response number :=
  {| OrderRoutes.statusCode := 500%Z;
     OrderRoutes.json := JObj [("success", JBool false);
                               ("error", JStr message);
                               ("pikndelData", JNull)] |}.

(** The answers of the webhook handler's [catch] and of [/status] without
    a tracking number. *)
Definition handler_error : OrderRoutes.response number :=
  {| OrderRoutes.statusCode := 500%Z;
     OrderRoutes.json := JObj [("success", JBool false);
                               ("error", JStr "Webhook handler error.")] |}.

Definition AWBNo_missing : OrderRoutes.response number :=
  {| OrderRoutes.statusCode := 400%Z;
     OrderRoutes.json :=
       JObj [("success", JBool false);
             ("error", JStr "AWBNo is required in request body.")] |}.

(** No answer from the provider. *)
Definition unanswered (reason : string) : io number :=
  {| uuidv4 := "0b0e7c7e-2f3a-4c3e-9a55-1f0f5d6c7a10";
     unix_seconds := Number_string "1652350911";
     axios := fun _ => Failed reason |}.

End Notions.
End Notions.

(* ================================================================== *)
(** * Facts about the operators                                        *)
(* ================================================================== *)

Module Facts.

Section Facts.
Context {number : Type} {RT : Runtime number}.

Local Abbreviation value := (jsval number).
Local Abbreviation res := (result number).

Lemma bind_Ok {A B} (r : res A) (k : A -> res B) (b : B) :
  bind r k = Ok b -> exists a, r = Ok a /\ k a = Ok b.
Proof. destruct r as [a|e]; cbn; [eauto | discriminate]. Qed.

Lemma get_Ok (v : value) (k : string) (x : value) :
  get v k = Ok x -> nullish v = false /\ x = prop v k.
Proof.
  unfold get. destruct (nullish v); [discriminate|].
  intros H; inversion H; auto.
Qed.

Lemma get_present (v : value) (k : string) :
  nullish v = false -> get v k = Ok (prop v k).
Proof. unfold get. now intros ->. Qed.

Lemma printable_ToString (v : value) :
  printable v = true -> exists s, ToString v = Ok s.
Proof. unfold printable. destruct (ToString v); [eauto | discriminate]. Qed.

Lemma or_else_Ok (a b : res value) (v : value) :
  or_else a b = Ok v ->
  exists x, a = Ok x /\ (if truthy x then v = x else b = Ok v).
Proof.
  unfold or_else. intros H. apply bind_Ok in H as (x & Hx & H).
  exists x. split; [assumption|].
  destruct (truthy x); [now inversion H | assumption].
Qed.

Lemma default_to_get (base : value) (k : string) (d v : value) :
  PikndelService.default_to (get base k) d = Ok v ->
  nullish base = false /\ v = or_ (prop base k) d.
Proof.
  unfold PikndelService.default_to. intros H.
  apply or_else_Ok in H as (x & Hx & H).
  apply get_Ok in Hx as [Hb ->]. split; [assumption|].
  unfold or_. destruct (truthy (prop base k)); [assumption | now inversion H].
Qed.

Lemma map_throwing_Forall2 {A B} (f : A -> res B) (xs : list A) (ys : list B) :
  map_throwing f xs = Ok ys -> Forall2 (fun x y => f x = Ok y) xs ys.
Proof.
  revert ys. induction xs as [|x xs IH]; cbn; intros ys H.
  - inversion H. constructor.
  - apply bind_Ok in H as (y & Hy & H).
    apply bind_Ok in H as (ys' & Hys & H).
    inversion H; subst. constructor; auto.
Qed.

(** The value an object literal stores under a key is the value of the
    expression written for that key. *)
Lemma object_lookup (fields : list (string * res value)) props :
  object fields = Ok props ->
  forall k e, expression_of k fields = Some e ->
  exists v, e = Ok v /\ lookup k props = Some v.
Proof.
  revert props.
  induction fields as [|[k' e'] rest IH]; cbn; intros props H k e Hk.
  - discriminate.
  - apply bind_Ok in H as (v & Hv & H).
    apply bind_Ok in H as (vs & Hvs & H).
    inversion H; subst. cbn.
    destruct (k =? k')%string.
    + inversion Hk; subst. eauto.
    + eauto.
Qed.

Lemma object_prop (fields : list (string * res value)) props k e :
  object fields = Ok props -> expression_of k fields = Some e ->
  e = Ok (prop (JObj props) k).
Proof.
  intros H Hk. destruct (object_lookup _ _ H _ _ Hk) as (v & -> & Hl).
  cbn. now rewrite Hl.
Qed.

Lemma map_property_Ok (base : value) k (f : value -> res value) out :
  PikndelService.map_property base k f = Ok out ->
  nullish base = false /\
  exists ys, out = JArr ys /\
    Forall2 (fun x y => f x = Ok y) (elements (prop base k)) ys.
Proof.
  unfold PikndelService.map_property. intros H.
  apply bind_Ok in H as (xs & Hxs & H).
  apply get_Ok in Hxs as [Hb ->]. split; [assumption|].
  destruct (prop base k) as [| | | | |elems|]; try discriminate.
  apply bind_Ok in H as (ys & Hys & H). inversion H; subst.
  exists ys. split; [reflexivity|]. now apply map_throwing_Forall2.
Qed.

(** The specification's vocabulary against the tests of the code. *)
Lemma non_empty_array_checked (v : value) :
  Spec.non_empty_array v = negb (PikndelService.not_a_non_empty_array v).
Proof. destruct v as [| | | | |[|x l]|]; reflexivity. Qed.

Lemma first_detail_checked (p : value) :
  Spec.first_detail p = first (elements (prop p "OrderDetails")).
Proof.
  unfold Spec.first_detail, Spec.detail_blocks.
  destruct (prop p "OrderDetails") as [| | | | |[|x l]|]; reflexivity.
Qed.

Lemma info_of_checked (od : value) :
  Spec.info_of od = PikndelService.first_or_self (prop od "Info").
Proof.
  unfold Spec.info_of, PikndelService.first_or_self.
  destruct (prop od "Info") as [| | | | |[|x l]|]; reflexivity.
Qed.

Lemma flag_text_ToString (v : value) :
  Spec.flag_text v = ToString (if nullish v then JStr "0" else v).
Proof. destruct v as [| |[|]| | | |]; reflexivity. Qed.


(** ** State and exceptions *)

Lemma bindM_Ok {A B} (m : M number A) (k : A -> M number B)
    (w : world number) (a : A) (w' : world number) :
  m w = (Ok a, w') -> bindM m k w = k a w'.
Proof. unfold bindM. now intros ->. Qed.

Lemma bindM_Throw {A B} (m : M number A) (k : A -> M number B)
    (w : world number) (e : thrown number) (w' : world number) :
  m w = (Throw e, w') -> bindM m k w = (Throw e, w').
Proof. unfold bindM. now intros ->. Qed.

Lemma skipn_length_app {A} (l tail : list A) :
  skipn (length l) (l ++ tail) = tail.
Proof. induction l; cbn; auto. Qed.

Lemma try_catch_rethrow_world {A} (m : M number A) (f : thrown number -> thrown number)
    (w : world number) :
  snd (try_catch m (fun err => throw (f err)) w) = snd (m w).
Proof. unfold try_catch, throw. destruct (m w) as [[a|e] w']; reflexivity. Qed.

Lemma try_catch_Ok {A} (m : M number A) (handler : thrown number -> M number A)
    (w : world number) (a : A) (w' : world number) :
  m w = (Ok a, w') -> try_catch m handler w = (Ok a, w').
Proof. unfold try_catch. now intros ->. Qed.

Lemma try_catch_Throw {A} (m : M number A) (handler : thrown number -> M number A)
    (w : world number) (e : thrown number) (w' : world number) :
  m w = (Throw e, w') -> try_catch m handler w = handler e w'.
Proof. unfold try_catch. now intros ->. Qed.

Lemma lift_Ok {A} (r : res A) (a : A) (w : world number) :
  r = Ok a -> lift r w = (Ok a, w).
Proof. now intros ->. Qed.

Lemma lift_Throw {A} (r : res A) (e : thrown number) (w : world number) :
  r = Throw e -> lift r w = (Throw (A := A) e, w).
Proof. now intros ->. Qed.

End Facts.
End Facts.

(* ================================================================== *)
(** * placeOrder: validation and the body                              *)
(* ================================================================== *)

Module PlaceOrder.

Import PikndelService Facts.

Section PlaceOrder.
Context {number : Type} {RT : Runtime number}.

Local Abbreviation value := (jsval number).
Local Abbreviation res := (result number).

(** The validation block is the search for the first missing field. *)
Lemma validate_first_missing (p : value) (f : Spec.required) :
  Spec.order_payload p -> Spec.first_missing p = Some f ->
  validate p = Throw (Spec.ValidationError f).
Proof.
  intros [Hp Hod] Hf.
  unfold validate, get. rewrite Hp. cbn [bind].
  unfold Spec.first_missing, Spec.check_order in Hf. cbn [find] in Hf.
  unfold Spec.missing, Spec.present in Hf.
  rewrite !info_of_checked, !non_empty_array_checked, !first_detail_checked in Hf.
  rewrite non_empty_array_checked, first_detail_checked in Hod.
  rewrite !negb_involutive in Hf.
  destruct (truthy (prop p "UserId")); cbn [negb] in *;
    [| inversion Hf; reflexivity].
  destruct (not_a_non_empty_array (prop p "OrderDetails")); cbn [negb] in *;
    [inversion Hf; reflexivity |].
  rewrite (Hod eq_refl). cbn [bind].
  repeat match goal with
  | |- context [if negb ?b then _ else _] =>
      destruct b; cbn [negb] in *; [| inversion Hf; reflexivity]
  | |- context [if ?b then _ else _] =>
      destruct b; cbn [negb] in *; [inversion Hf; reflexivity |]
  end.
  discriminate.
Qed.

(** When nothing is missing the validation passes. *)
Lemma validate_nothing_missing (p : value) :
  Spec.order_payload p -> Spec.first_missing p = None -> validate p = Ok tt.
Proof.
  intros [Hp Hod] Hf.
  unfold validate, get. rewrite Hp. cbn [bind].
  unfold Spec.first_missing, Spec.check_order in Hf. cbn [find] in Hf.
  unfold Spec.missing, Spec.present in Hf.
  rewrite !info_of_checked, !non_empty_array_checked, !first_detail_checked in Hf.
  rewrite non_empty_array_checked, first_detail_checked in Hod.
  rewrite !negb_involutive in Hf.
  destruct (truthy (prop p "UserId")); cbn [negb] in *; [| discriminate].
  destruct (not_a_non_empty_array (prop p "OrderDetails")); cbn [negb] in *;
    [discriminate |].
  rewrite (Hod eq_refl). cbn [bind].
  repeat match goal with
  | |- context [if negb ?b then _ else _] =>
      destruct b; cbn [negb] in *; [| discriminate]
  | |- context [if ?b then _ else _] =>
      destruct b; cbn [negb] in *; [discriminate |]
  end.
  reflexivity.
Qed.

(** A payload that misses a field never passes the validation, whatever
    its shape. *)
Lemma validate_missing_fails (p : value) (f : Spec.required) :
  Spec.first_missing p = Some f ->
  exists e, validate p = Throw e
            /\ (Spec.order_payload p -> e = Spec.ValidationError f).
Proof.
  intros Hf.
  destruct (nullish p) eqn:Hp.
  { unfold validate, get. rewrite Hp. eexists. split; [reflexivity|].
    intros [Hp' _]. congruence. }
  destruct (Spec.non_empty_array (prop p "OrderDetails")) eqn:Hne;
    [destruct (nullish (Spec.first_detail p)) eqn:Hod|].
  - destruct (truthy (prop p "UserId")) eqn:Hu.
    + unfold validate. rewrite !(get_present _ _ Hp). cbn [bind].
      rewrite Hu. cbn [negb].
      rewrite non_empty_array_checked in Hne. apply negb_true_iff in Hne.
      rewrite Hne. cbn zeta. rewrite first_detail_checked in Hod.
      unfold get at 1. rewrite Hod. cbn [bind].
      eexists. split; [reflexivity|].
      intros [_ Hod']. rewrite non_empty_array_checked, Hne in Hod'.
      rewrite first_detail_checked in Hod'. specialize (Hod' eq_refl).
      congruence.
    + assert (Hu' : f = Spec.UserId).
      { unfold Spec.first_missing, Spec.check_order in Hf. cbn [find] in Hf.
        unfold Spec.missing at 1, Spec.present in Hf. rewrite Hu in Hf.
        cbn [negb] in Hf. now injection Hf. }
      subst f. exists (Spec.ValidationError Spec.UserId).
      split; [|reflexivity].
      unfold validate. rewrite !(get_present _ _ Hp). cbn [bind].
      now rewrite Hu.
  - exists (Spec.ValidationError f). split; [|reflexivity].
    apply validate_first_missing; [|exact Hf]. split; [exact Hp | now intros _].
  - exists (Spec.ValidationError f). split; [|reflexivity].
    apply validate_first_missing; [|exact Hf].
    split; [exact Hp | intros H; congruence].
Qed.

(** A [null] in the place of the first detail block is read before it is
    tested: the failure is the runtime's, not a validation message. *)
Lemma validate_null_detail (rest : list value) :
  validate (JObj [("UserId", JStr "7034"); ("OrderDetails", JArr (JNull :: rest))])
  = Throw (TypeError "Cannot read properties of null or undefined: ClientUniqueNo").
Proof. reflexivity. Qed.

(** ** The shape of the body *)

Lemma placeOrder_body_details (p body : value) :
  placeOrder_body p = Ok body ->
  Forall2 (fun od d => build_detail od = Ok d)
          (Spec.detail_blocks p) (Spec.detail_blocks body).
Proof.
  unfold placeOrder_body. intros H.
  apply bind_Ok in H as (_ & _ & H).
  apply bind_Ok in H as (props & Hprops & H). inversion H; subst; clear H.
  pose proof (object_prop _ _ "OrderDetails" _ Hprops eq_refl) as HD.
  apply map_property_Ok in HD as (_ & ys & Hys & HF).
  unfold Spec.detail_blocks. rewrite Hys. exact HF.
Qed.

Lemma build_detail_Ok (od d : value) :
  build_detail od = Ok d ->
  nullish (Spec.info_of od) = false
  /\ build_pickup (prop (Spec.info_of od) "Pickup")
     = Ok (prop (Spec.built_info d) "Pickup")
  /\ Forall2 (fun i o => build_item i = Ok o)
             (Spec.items_in od) (Spec.items_built d)
  /\ build_delivery (prop (Spec.info_of od) "Delivery")
     = Ok (prop (Spec.built_info d) "Delivery").
Proof.
  unfold build_detail. intros H.
  apply bind_Ok in H as (info & Hinfo & H).
  apply get_Ok in Hinfo as [Hod ->].
  apply bind_Ok in H as (props & Hprops & H). inversion H; subst; clear H.
  pose proof (object_prop _ _ "Info" _ Hprops eq_refl) as HI.
  apply bind_Ok in HI as (entry & Hentry & HI).
  inversion HI as [HI']. clear HI.
  cbn [object] in Hentry.
  apply bind_Ok in Hentry as (pk & Hpk & Hentry).
  apply bind_Ok in Hentry as (rest & Hrest & Hentry).
  apply bind_Ok in Hrest as (items & Hitems & Hrest).
  apply bind_Ok in Hrest as (rest2 & Hrest2 & Hrest).
  apply bind_Ok in Hrest2 as (dl & Hdl & Hrest2).
  cbn in Hrest2. inversion Hrest2; subst; clear Hrest2.
  inversion Hrest; subst; clear Hrest. inversion Hentry; subst; clear Hentry.
  apply bind_Ok in Hpk as (p0 & Hp0 & Hpk). apply get_Ok in Hp0 as [Hinf ->].
  apply bind_Ok in Hdl as (d0 & Hd0 & Hdl). apply get_Ok in Hd0 as [_ ->].
  apply map_property_Ok in Hitems as (_ & ys & -> & HF).
  unfold Spec.items_in, Spec.items_built, Spec.built_info.
  rewrite info_of_checked. cbn [prop]. rewrite <- HI'.
  cbn. repeat split; assumption.
Qed.

Lemma build_pickup_cash (Pickup out : value) :
  build_pickup Pickup = Ok out ->
  prop out "CashPaid" = Spec.pickup_cash (prop Pickup "CashPaid")
  /\ prop out "CashCollection" = Spec.pickup_cash (prop Pickup "CashCollection").
Proof.
  unfold build_pickup. intros H.
  apply bind_Ok in H as (props & Hprops & H). inversion H; subst; clear H.
  pose proof (object_prop _ _ "CashPaid" _ Hprops eq_refl) as H1.
  pose proof (object_prop _ _ "CashCollection" _ Hprops eq_refl) as H2.
  apply default_to_get in H1 as [_ H1]. apply default_to_get in H2 as [_ H2].
  split; assumption.
Qed.

Lemma build_delivery_cash (Delivery out : value) :
  build_delivery Delivery = Ok out ->
  typeof (prop out "CashCollection") = "number".
Proof.
  unfold build_delivery. intros H.
  apply bind_Ok in H as (props & Hprops & H). inversion H; subst; clear H.
  pose proof (object_prop _ _ "CashCollection" _ Hprops eq_refl) as H1.
  unfold default_to in H1. apply or_else_Ok in H1 as (x & Hx & H1).
  apply bind_Ok in Hx as (c & _ & Hx). unfold parseFloat in Hx.
  apply bind_Ok in Hx as (s & _ & Hx). inversion Hx; subst x; clear Hx.
  destruct (truthy (JNum (parseFloat_string s))).
  - now rewrite H1.
  - assert (E : prop (JObj props) "CashCollection" = lit "0") by congruence.
    now rewrite E.
Qed.

Lemma build_item_fields (item out : value) :
  build_item item = Ok out ->
  Spec.flags_built item out /\ Spec.eway_bill_built item out.
Proof.
  unfold build_item. intros H.
  apply bind_Ok in H as (props & Hprops & H). inversion H; subst; clear H.
  pose proof (object_prop _ _ "IsFragile" _ Hprops eq_refl) as HF.
  pose proof (object_prop _ _ "IsLiquid" _ Hprops eq_refl) as HL.
  pose proof (object_prop _ _ "EWayBillNo" _ Hprops eq_refl) as HE.
  assert (flag : forall k v,
             (x <- coalesce (get item k) (Ok (JStr "0")) ;; String_ x) = Ok v ->
             exists s, Spec.flag_text (prop item k) = Ok s /\ v = JStr s).
  { intros k v Hk. apply bind_Ok in Hk as (x & Hx & Hk).
    unfold coalesce in Hx. apply bind_Ok in Hx as (y & Hy & Hx).
    apply get_Ok in Hy as [_ ->].
    unfold String_ in Hk. apply bind_Ok in Hk as (s & Hs & Hk).
    inversion Hk; subst v. exists s. split; [|reflexivity].
    rewrite flag_text_ToString.
    destruct (nullish (prop item k)); inversion Hx; subst x; assumption. }
  repeat split.
  - destruct (flag _ _ HF) as (s & Hs & E). exists s. now rewrite <- E.
  - destruct (flag _ _ HL) as (s & Hs & E). exists s. now rewrite <- E.
  - unfold Spec.eway_bill_built, Spec.eway_bill_of, Spec.present.
    apply or_else_Ok in HE as (x & Hx & HE).
    apply get_Ok in Hx as [Hi ->].
    destruct (truthy (prop item "EWayBillNo")); [assumption|].
    apply default_to_get in HE as [_ ->]. reflexivity.
Qed.

(** ** When a body is built *)

Lemma bind_succeeds {A B} (r : res A) (k : A -> res B) :
  Spec.succeeds r -> (forall a, Spec.succeeds (k a)) -> Spec.succeeds (bind r k).
Proof. intros (a & ->) H. apply H. Qed.

Lemma Ok_succeeds {A} (a : A) : Spec.succeeds (number := number) (Ok a).
Proof. now exists a. Qed.

Lemma object_succeeds (fields : list (string * res value)) :
  Forall (fun f => Spec.succeeds (snd f)) fields -> Spec.succeeds (object fields).
Proof.
  induction 1 as [|[k e] rest He _ IH]; cbn.
  - apply Ok_succeeds.
  - apply bind_succeeds; [exact He | intros v].
    apply bind_succeeds; [exact IH | intros vs]. apply Ok_succeeds.
Qed.

Lemma map_throwing_succeeds {A B} (f : A -> res B) (xs : list A) :
  Forall (fun x => Spec.succeeds (f x)) xs -> Spec.succeeds (map_throwing f xs).
Proof.
  induction 1 as [|x rest Hx _ IH]; cbn.
  - apply Ok_succeeds.
  - apply bind_succeeds; [exact Hx | intros y].
    apply bind_succeeds; [exact IH | intros ys]. apply Ok_succeeds.
Qed.

Lemma get_succeeds (base : value) (k : string) :
  nullish base = false -> Spec.succeeds (get base k).
Proof. intros H. rewrite (get_present _ _ H). apply Ok_succeeds. Qed.

Lemma or_else_succeeds (a b : res value) :
  Spec.succeeds a -> Spec.succeeds b -> Spec.succeeds (or_else a b).
Proof.
  intros Ha Hb. unfold or_else. apply bind_succeeds; [exact Ha | intros x].
  destruct (truthy x); [apply Ok_succeeds | exact Hb].
Qed.

Lemma default_to_succeeds (a : res value) (d : value) :
  Spec.succeeds a -> Spec.succeeds (default_to a d).
Proof. intros H. apply or_else_succeeds; [assumption | apply Ok_succeeds]. Qed.

Lemma String_succeeds (v : value) :
  printable v = true -> Spec.succeeds (String_ v).
Proof.
  intros H. apply printable_ToString in H as (s & Hs).
  unfold String_. rewrite Hs. apply Ok_succeeds.
Qed.

Lemma parseFloat_succeeds (v : value) :
  printable v = true -> Spec.succeeds (parseFloat v).
Proof.
  intros H. apply printable_ToString in H as (s & Hs).
  unfold parseFloat. rewrite Hs. apply Ok_succeeds.
Qed.

Lemma flag_succeeds (item : value) (k : string) :
  nullish item = false -> printable (prop item k) = true ->
  Spec.succeeds (x <- coalesce (get item k) (Ok (JStr "0")) ;; String_ x).
Proof.
  intros Hi Hp. unfold coalesce. rewrite (get_present _ _ Hi). cbn [bind].
  destruct (nullish (prop item k)); cbn [bind].
  - apply Ok_succeeds.
  - now apply String_succeeds.
Qed.

Lemma map_property_succeeds (base : value) (k : string) (f : value -> res value) :
  nullish base = false -> isArray (prop base k) = true ->
  Forall (fun x => Spec.succeeds (f x)) (elements (prop base k)) ->
  Spec.succeeds (map_property base k f).
Proof.
  intros Hb Ha Hf. unfold map_property. rewrite (get_present _ _ Hb). cbn [bind].
  destruct (prop base k); try discriminate. cbn [elements] in Hf.
  apply bind_succeeds; [now apply map_throwing_succeeds | intros ys].
  apply Ok_succeeds.
Qed.

(** Every property expression of an object literal returns a value. *)
Ltac fields :=
  apply bind_succeeds; [|intros; apply Ok_succeeds];
  apply object_succeeds;
  repeat (apply Forall_cons; [cbn [snd]|]); [..|apply Forall_nil].

Ltac field :=
  repeat first
    [ assumption
    | apply Ok_succeeds
    | apply get_succeeds
    | apply default_to_succeeds
    | apply or_else_succeeds ].

Lemma build_pickup_succeeds (Pickup : value) :
  nullish Pickup = false -> Spec.succeeds (build_pickup Pickup).
Proof. intros H. unfold build_pickup. fields; field. Qed.

Lemma build_delivery_succeeds (Delivery : value) :
  nullish Delivery = false ->
  printable (prop Delivery "CashCollection") = true ->
  Spec.succeeds (build_delivery Delivery).
Proof.
  intros H Hc. unfold build_delivery. fields; field.
  rewrite (get_present _ _ H). cbn [bind]. now apply parseFloat_succeeds.
Qed.

Lemma build_item_succeeds (item : value) :
  Spec.complete_item item -> Spec.succeeds (build_item item).
Proof.
  intros (H & Hf & Hl). unfold build_item. fields; field;
    now apply flag_succeeds.
Qed.

Lemma build_detail_succeeds (od : value) :
  Spec.complete_block od -> Spec.succeeds (build_detail od).
Proof.
  intros (Hod & Hw & Hp & Hd & Ha & Hi & Hc).
  assert (Hinf : nullish (Spec.info_of od) = false).
  { destruct (Spec.info_of od); try reflexivity; discriminate Hp. }
  unfold Spec.items_in in Hi. rewrite info_of_checked in *.
  unfold build_detail. rewrite (get_present _ _ Hod). cbn [bind].
  fields; field.
  - rewrite (get_present _ _ Hod). cbn [bind]. now apply String_succeeds.
  - fields.
    + rewrite (get_present _ _ Hinf). cbn [bind]. now apply build_pickup_succeeds.
    + apply map_property_succeeds; try assumption.
      eapply Forall_impl; [|exact Hi]. intros item. apply build_item_succeeds.
    + rewrite (get_present _ _ Hinf). cbn [bind]. now apply build_delivery_succeeds.
Qed.

(** For a payload that passes the validation, whose UserId can be written
    as text and whose detail blocks are all complete, [placeOrder] builds
    a body. *)
Lemma placeOrder_builds_body (payload : value) :
  validate payload = Ok tt ->
  printable (prop payload "UserId") = true ->
  Forall Spec.complete_block (Spec.detail_blocks payload) ->
  Spec.succeeds (placeOrder_body payload).
Proof.
  intros Hv Hu Hb. unfold placeOrder_body. rewrite Hv. cbn [bind].
  assert (Hp : nullish payload = false).
  { unfold validate in Hv. apply bind_Ok in Hv as (u & Hu' & _).
    now apply get_Ok in Hu' as [Hp _]. }
  assert (Ha : isArray (prop payload "OrderDetails") = true).
  { unfold validate in Hv. rewrite !(get_present _ _ Hp) in Hv. cbn [bind] in Hv.
    destruct (truthy (prop payload "UserId")); [|discriminate].
    cbn [negb] in Hv. unfold not_a_non_empty_array in Hv.
    destruct (isArray (prop payload "OrderDetails")); [reflexivity | discriminate]. }
  fields.
  - now apply String_succeeds.
  - apply map_property_succeeds; try assumption.
    eapply Forall_impl; [|exact Hb]. intros od. apply build_detail_succeeds.
Qed.

(** ** The claims *)

(** C1. A payload that misses one of the required fields makes
    [placeOrder] fail before anything is sent to the provider, leaving the
    token, the console and the collection as they were; for an order
    payload the failure is the validation error naming the first missing
    field in the order UserId, OrderDetails, ClientUniqueNo,
    TotalActualWeight, Info, Pickup, Delivery, Item. *)
Theorem placeOrder_names_first_missing_field
    (env : environment) (w : io number) (payload : value)
    (f : Spec.required) (before : world number) :
  Spec.first_missing payload = Some f ->
  exists e,
    placeOrder env w payload before = (Throw e, before)
    /\ Spec.calls_made (placeOrder env w payload) before = []
    /\ (Spec.order_payload payload -> e = Spec.ValidationError f).
Proof.
  intros Hf.
  destruct (validate_missing_fails _ _ Hf) as (e & He & Hname).
  assert (E : placeOrder env w payload before = (Throw e, before)).
  { unfold placeOrder, placeOrder_body, bindM, lift. now rewrite He. }
  exists e. split; [exact E|]. split; [|exact Hname].
  unfold Spec.calls_made. rewrite E. cbn [snd]. apply skipn_all.
Qed.

(** C2, as amended. In the body [placeOrder] builds, Delivery.CashCollection
    is a number in every detail block; Pickup.CashPaid and
    Pickup.CashCollection are the input value when it is present and the
    text "0" otherwise. *)
Theorem placeOrder_cash_fields (payload body : value) :
  placeOrder_body payload = Ok body ->
  Forall2 Spec.cash_fields_built
          (Spec.detail_blocks payload) (Spec.detail_blocks body).
Proof.
  intros H. apply placeOrder_body_details in H.
  eapply Forall2_impl; [|exact H].
  intros od d Hd. apply build_detail_Ok in Hd as (_ & Hpk & _ & Hdl).
  apply build_pickup_cash in Hpk as [H1 H2].
  apply build_delivery_cash in Hdl.
  repeat split; assumption.
Qed.

(** C7, as amended. In the body [placeOrder] builds, IsFragile and IsLiquid
    of every item are texts: "0" when the input is absent or null,
    otherwise the input written as text. *)
Theorem placeOrder_flags_are_text (payload body : value) :
  placeOrder_body payload = Ok body ->
  Spec.for_every_item Spec.flags_built payload body.
Proof.
  intros H. apply placeOrder_body_details in H.
  eapply Forall2_impl; [|exact H].
  intros od d Hd. apply build_detail_Ok in Hd as (_ & _ & Hitems & _).
  eapply Forall2_impl; [|exact Hitems].
  intros item out Hi. now apply build_item_fields in Hi.
Qed.

(** C8. In the body [placeOrder] builds, EWayBillNo of every item is the
    input's EWayBillNo when present, otherwise the input's EwayBillNo when
    present, otherwise the empty text. *)
Theorem placeOrder_eway_bill_aliases (payload body : value) :
  placeOrder_body payload = Ok body ->
  Spec.for_every_item Spec.eway_bill_built payload body.
Proof.
  intros H. apply placeOrder_body_details in H.
  eapply Forall2_impl; [|exact H].
  intros od d Hd. apply build_detail_Ok in Hd as (_ & _ & Hitems & _).
  eapply Forall2_impl; [|exact Hitems].
  intros item out Hi. now apply build_item_fields in Hi.
Qed.

(** ** What the body builder can throw *)

Lemma ToString_array (x : value) (rest : list value) :
  ToString (JArr (x :: rest))
  = (s <- (if nullish x then Ok "" else ToString x) ;;
     match rest with
     | [] => Ok s
     | _ :: _ => r <- ToString (JArr rest) ;; Ok (s ++ "," ++ r)
     end).
Proof. reflexivity. Qed.

Lemma bind_raises {A B} (r : res A) (k : A -> res B) :
  Spec.raises_only_TypeError r ->
  (forall a, Spec.raises_only_TypeError (k a)) ->
  Spec.raises_only_TypeError (bind r k).
Proof. destruct r as [a|[detail|message extra]]; cbn; auto. Qed.

Lemma Ok_raises {A} (a : A) :
  Spec.raises_only_TypeError (number := number) (Ok a).
Proof. exact I. Qed.

Lemma ToString_raises (v : value) : Spec.raises_only_TypeError (ToString v).
Proof.
  revert v. fix IH 1.
  intros [| |[|]|n|s|elems|props]; try exact I.
  - assert (H : Forall (fun x => Spec.raises_only_TypeError (ToString x)) elems).
    { induction elems as [|x rest IHr]; constructor; [apply IH | exact IHr]. }
    clear IH. induction H as [|x rest Hx _ IHr]; [exact I|].
    rewrite ToString_array. apply bind_raises.
    + destruct (nullish x); [exact I | exact Hx].
    + intros s. destruct rest; [exact I|].
      apply bind_raises; [exact IHr | intros r; exact I].
  - cbn. destruct (has_own "toString" props); exact I.
Qed.

Lemma get_raises (base : value) (k : string) :
  Spec.raises_only_TypeError (get base k).
Proof. unfold get. destruct (nullish base); exact I. Qed.

Lemma or_else_raises (a b : res value) :
  Spec.raises_only_TypeError a -> Spec.raises_only_TypeError b ->
  Spec.raises_only_TypeError (or_else a b).
Proof.
  intros Ha Hb. unfold or_else. apply bind_raises; [exact Ha|].
  intros x. destruct (truthy x); [exact I | exact Hb].
Qed.

Lemma default_to_raises (a : res value) (d : value) :
  Spec.raises_only_TypeError a ->
  Spec.raises_only_TypeError (default_to a d).
Proof. intros Ha. unfold default_to. now apply or_else_raises. Qed.

Lemma String_raises (v : value) : Spec.raises_only_TypeError (String_ v).
Proof.
  unfold String_. apply bind_raises; [apply ToString_raises | intros s; exact I].
Qed.

Lemma parseFloat_raises (v : value) : Spec.raises_only_TypeError (parseFloat v).
Proof.
  unfold parseFloat.
  apply bind_raises; [apply ToString_raises | intros s; exact I].
Qed.

Lemma flag_raises (item : value) (k : string) :
  Spec.raises_only_TypeError
    (x <- coalesce (get item k) (Ok (JStr "0")) ;; String_ x).
Proof.
  apply bind_raises; [|intros x; apply String_raises].
  unfold coalesce. apply bind_raises; [apply get_raises|].
  intros x. destruct (nullish x); exact I.
Qed.

Lemma object_raises (fields : list (string * res value)) :
  Forall (fun f => Spec.raises_only_TypeError (snd f)) fields ->
  Spec.raises_only_TypeError (object fields).
Proof.
  induction 1 as [|[k e] rest He _ IH]; cbn [object]; [exact I|].
  apply bind_raises; [exact He | intros v].
  apply bind_raises; [exact IH | intros vs; exact I].
Qed.

Lemma map_throwing_raises {A B} (f : A -> res B) (xs : list A) :
  (forall x, Spec.raises_only_TypeError (f x)) ->
  Spec.raises_only_TypeError (map_throwing f xs).
Proof.
  intros Hf. induction xs as [|x rest IH]; cbn [map_throwing]; [exact I|].
  apply bind_raises; [apply Hf | intros y].
  apply bind_raises; [exact IH | intros ys; exact I].
Qed.

Lemma map_property_raises (base : value) (k : string) (f : value -> res value) :
  (forall x, Spec.raises_only_TypeError (f x)) ->
  Spec.raises_only_TypeError (map_property base k f).
Proof.
  intros Hf. unfold map_property. apply bind_raises; [apply get_raises|].
  intros [| | | | |elems|]; try exact I.
  apply bind_raises; [now apply map_throwing_raises | intros ys; exact I].
Qed.

Ltac literal :=
  apply bind_raises; [|intros; exact I];
  apply object_raises;
  repeat (apply Forall_cons; [cbn [snd]|]); [..|apply Forall_nil].

Ltac expression :=
  repeat first
    [ exact I
    | apply get_raises
    | apply default_to_raises
    | apply or_else_raises
    | apply flag_raises
    | apply String_raises
    | apply parseFloat_raises ].

Lemma build_pickup_raises (Pickup : value) :
  Spec.raises_only_TypeError (build_pickup Pickup).
Proof. unfold build_pickup. literal; expression. Qed.

Lemma build_item_raises (item : value) :
  Spec.raises_only_TypeError (build_item item).
Proof. unfold build_item. literal; expression. Qed.

Lemma build_delivery_raises (Delivery : value) :
  Spec.raises_only_TypeError (build_delivery Delivery).
Proof.
  unfold build_delivery. literal; expression.
  apply bind_raises; [apply get_raises | intros c; apply parseFloat_raises].
Qed.

Lemma build_detail_raises (od : value) :
  Spec.raises_only_TypeError (build_detail od).
Proof.
  unfold build_detail. apply bind_raises; [apply get_raises | intros Info].
  literal; expression.
  - apply bind_raises; [apply get_raises | intros x; apply String_raises].
  - apply bind_raises; [|intros; exact I].
    apply object_raises.
    repeat (apply Forall_cons; [cbn [snd]|]); [..|apply Forall_nil].
    + apply bind_raises; [apply get_raises | intros p; apply build_pickup_raises].
    + apply map_property_raises. apply build_item_raises.
    + apply bind_raises; [apply get_raises | intros d; apply build_delivery_raises].
Qed.

(** ** What a block needs to be built *)

Lemma build_pickup_present (Pickup out : value) :
  build_pickup Pickup = Ok out -> nullish Pickup = false.
Proof.
  unfold build_pickup. intros H.
  apply bind_Ok in H as (props & Hprops & _).
  pose proof (object_prop _ _ "PersonName" _ Hprops eq_refl) as H.
  now apply get_Ok in H as [H _].
Qed.

Lemma build_delivery_present (Delivery out : value) :
  build_delivery Delivery = Ok out -> nullish Delivery = false.
Proof.
  unfold build_delivery. intros H.
  apply bind_Ok in H as (props & Hprops & _).
  pose proof (object_prop _ _ "PersonName" _ Hprops eq_refl) as H.
  now apply get_Ok in H as [H _].
Qed.

Lemma map_property_array (base : value) (k : string) (f : value -> res value)
    (out : value) :
  map_property base k f = Ok out -> isArray (prop base k) = true.
Proof.
  unfold map_property. intros H. apply bind_Ok in H as (xs & Hxs & H).
  apply get_Ok in Hxs as [_ ->].
  destruct (prop base k); try discriminate. reflexivity.
Qed.

Lemma build_detail_needs_parts (od d : value) :
  build_detail od = Ok d -> Spec.lacks_part od = false.
Proof.
  intros H. unfold Spec.lacks_part.
  destruct (build_detail_Ok _ _ H) as (Hinf & Hpk & _ & Hdl).
  apply build_pickup_present in Hpk. apply build_delivery_present in Hdl.
  rewrite Hinf, Hpk, Hdl. cbn [orb].
  unfold build_detail in H.
  apply bind_Ok in H as (info & Hinfo & H).
  apply get_Ok in Hinfo as [_ ->].
  apply bind_Ok in H as (props & Hprops & _).
  pose proof (object_prop _ _ "Info" _ Hprops eq_refl) as HI.
  apply bind_Ok in HI as (entry & Hentry & _).
  pose proof (object_prop _ _ "Item" _ Hentry eq_refl) as Hitems.
  apply map_property_array in Hitems.
  rewrite info_of_checked. now rewrite Hitems.
Qed.

(** A block that lacks a part cannot be built, and what building it
    throws is a TypeError. *)
Lemma build_detail_lacking (od : value) :
  Spec.lacks_part od = true ->
  exists detail, build_detail od = Throw (TypeError detail).
Proof.
  intros L. pose proof (build_detail_raises od) as R.
  destruct (build_detail od) as [d|[detail|message extra]] eqn:E.
  - apply build_detail_needs_parts in E. congruence.
  - now exists detail.
  - contradiction.
Qed.

(** [map] stops at the first element on which the callback throws. *)
Lemma map_throwing_stops {A B} (f : A -> res B) (done : list A) (x : A)
    (rest : list A) (e : thrown number) :
  Forall (fun a => Spec.succeeds (f a)) done ->
  f x = Throw e ->
  map_throwing f (done ++ x :: rest) = Throw e.
Proof.
  intros Hd Hx. induction Hd as [|a done (b & Ha) _ IH]; cbn [app map_throwing].
  - now rewrite Hx.
  - rewrite Ha. cbn [bind]. now rewrite IH.
Qed.

(** The body of a payload that passed the validation, when mapping its
    blocks throws. *)
Lemma placeOrder_body_mapping_throws (payload : value) (e : thrown number) :
  validate payload = Ok tt ->
  printable (prop payload "UserId") = true ->
  Spec.detail_blocks payload <> [] ->
  map_throwing build_detail (Spec.detail_blocks payload) = Throw e ->
  placeOrder_body payload = Throw e.
Proof.
  intros Hv Hu Hn Hm. unfold placeOrder_body. rewrite Hv. cbn [bind object].
  apply printable_ToString in Hu as (text & Ht).
  unfold String_. rewrite Ht. cbn [bind].
  assert (Hp : nullish payload = false).
  { unfold validate in Hv. apply bind_Ok in Hv as (u & Hu' & _).
    now apply get_Ok in Hu' as [Hp _]. }
  unfold map_property. rewrite (get_present _ _ Hp). cbn [bind].
  unfold Spec.detail_blocks in Hn, Hm.
  destruct (prop payload "OrderDetails"); cbn [elements] in Hn, Hm;
    try contradiction.
  now rewrite Hm.
Qed.

(** C9. The validation looks at the first detail block only, while the
    body is built from every block. Whenever a payload has passed the
    validation, its UserId can be written as text and the blocks before
    a block [od] have been built, a block [od] that lacks Info, Pickup,
    Delivery or an Item array makes the mapping of OrderDetails throw:
    [placeOrder] throws the TypeError that building [od] raises, not a
    validation error, before anything is sent. There is such a payload:
    its first block misses nothing and is built (alone, it makes a whole
    body), its second block has no Info, and [placeOrder] throws the
    TypeError of reading Pickup in it. *)
Theorem placeOrder_second_detail_unvalidated :
  (forall (payload : value) (built : list value) (od : value)
          (rest : list value),
     validate payload = Ok tt ->
     printable (prop payload "UserId") = true ->
     Spec.detail_blocks payload = (built ++ od :: rest)%list ->
     Forall (fun b => Spec.succeeds (build_detail b)) built ->
     Spec.lacks_part od = true ->
     exists detail,
       build_detail od = Throw (TypeError detail)
       /\ map_throwing build_detail (Spec.detail_blocks payload)
          = Throw (TypeError detail)
       /\ (forall (env : environment) (w : io number) (before : world number),
             placeOrder env w payload before
             = (Throw (TypeError detail), before))
       /\ forall f, Spec.ValidationError (number := number) f <> TypeError detail)
  /\ exists payload first second : value,
       Spec.detail_blocks payload = [first; second]
       /\ Spec.first_missing payload = None
       /\ validate payload = Ok tt
       /\ printable (prop payload "UserId") = true
       /\ Spec.succeeds (build_detail first)
       /\ Spec.succeeds
            (placeOrder_body (JObj [("UserId", prop payload "UserId");
                                    ("OrderDetails", JArr [first])]))
       /\ prop second "Info" = JUndefined
       /\ Spec.lacks_part second = true
       /\ build_detail second
          = Throw (TypeError "Cannot read properties of null or undefined: Pickup")
       /\ forall (env : environment) (w : io number) (before : world number),
            placeOrder env w payload before
            = (Throw (TypeError "Cannot read properties of null or undefined: Pickup"),
               before).
Proof.
  assert (General :
    forall (payload : value) (built : list value) (od : value)
           (rest : list value),
      validate payload = Ok tt ->
      printable (prop payload "UserId") = true ->
      Spec.detail_blocks payload = (built ++ od :: rest)%list ->
      Forall (fun b => Spec.succeeds (build_detail b)) built ->
      Spec.lacks_part od = true ->
      exists detail,
        build_detail od = Throw (TypeError detail)
        /\ map_throwing build_detail (Spec.detail_blocks payload)
           = Throw (TypeError detail)
        /\ (forall (env : environment) (w : io number) (before : world number),
              placeOrder env w payload before
              = (Throw (TypeError detail), before))
        /\ forall f, Spec.ValidationError (number := number) f <> TypeError detail).
  { intros payload built od rest Hv Hu Hb Hbuilt Hl.
    destruct (build_detail_lacking od Hl) as (detail & Hd).
    exists detail.
    assert (Hm : map_throwing build_detail (Spec.detail_blocks payload)
                 = Throw (TypeError detail)).
    { rewrite Hb. now apply map_throwing_stops. }
    split; [exact Hd|]. split; [exact Hm|]. split; [|discriminate].
    intros env w before. unfold placeOrder, bindM, lift.
    rewrite (placeOrder_body_mapping_throws payload (TypeError detail) Hv Hu);
      [reflexivity| |exact Hm].
    rewrite Hb. now destruct built. }
  split; [exact General|].
  assert (First : Spec.complete_block
                    (Samples.detail (number := number) Samples.sender
                       [JObj Samples.parcel] Samples.receiver)).
  { repeat split; try reflexivity.
    constructor; [repeat split; reflexivity | constructor]. }
  exists Samples.order_with_incomplete_second_detail,
         (Samples.detail Samples.sender [JObj Samples.parcel] Samples.receiver),
         (JObj [("ClientUniqueNo", JStr "LQ/TEST/3002");
                ("TotalActualWeight", JStr "2")]).
  split; [reflexivity|]. split; [reflexivity|]. split; [reflexivity|].
  split; [reflexivity|].
  split; [now apply build_detail_succeeds|].
  split.
  { apply placeOrder_builds_body; [reflexivity | reflexivity |].
    constructor; [exact First | constructor]. }
  split; [reflexivity|]. split; [reflexivity|].
  assert (Second : build_detail (number := number)
                     (JObj [("ClientUniqueNo", JStr "LQ/TEST/3002");
                            ("TotalActualWeight", JStr "2")])
                   = Throw (TypeError "Cannot read properties of null or undefined: Pickup"))
    by reflexivity.
  split; [exact Second|].
  destruct (General Samples.order_with_incomplete_second_detail
              [Samples.detail Samples.sender [JObj Samples.parcel] Samples.receiver]
              (JObj [("ClientUniqueNo", JStr "LQ/TEST/3002");
                     ("TotalActualWeight", JStr "2")])
              [] eq_refl eq_refl eq_refl) as (detail & Hd & _ & Hp & _).
  - constructor; [now apply build_detail_succeeds | constructor].
  - reflexivity.
  - rewrite Second in Hd. inversion Hd; subst detail. exact Hp.
Qed.

End PlaceOrder.

(** ** The claims on sample orders *)

Import DecimalRuntime Samples.

Lemma placeOrder_names_first_missing_field_witness :
  Spec.first_missing (number := decimal) order_without_ClientUniqueNo
  = Some Spec.ClientUniqueNo
  /\ Spec.order_payload (number := decimal) order_without_ClientUniqueNo
  /\ placeOrder production (answering 200 JNull)
       order_without_ClientUniqueNo logged_in
     = (Throw (Error "placeOrder: OrderDetails[0].ClientUniqueNo is required." None),
        logged_in)
  /\ Spec.calls_made
       (placeOrder production (answering 200 JNull) order_without_ClientUniqueNo)
       logged_in = [].
Proof.
  assert (Hf : Spec.first_missing (number := decimal) order_without_ClientUniqueNo
               = Some Spec.ClientUniqueNo)
    by reflexivity.
  assert (Hp : Spec.order_payload (number := decimal) order_without_ClientUniqueNo)
    by (split; [reflexivity | intros _; reflexivity]).
  split; [exact Hf|]. split; [exact Hp|].
  destruct (placeOrder_names_first_missing_field production (answering 200 JNull)
              order_without_ClientUniqueNo Spec.ClientUniqueNo logged_in Hf)
    as (e & E & C & N).
  split; [|exact C]. rewrite E. now rewrite (N Hp).
Defined.

(** A counterexample to C2 as the specification states it: Pickup cash
    amounts given as numbers, 50 and 120, are passed on as the numbers
    they are. *)
Lemma pickup_cash_number_stays_number :
  exists body : jsval decimal,
    placeOrder_body order_with_numeric_cash = Ok body
    /\ ~ Spec.cash_types_claimed body.
Proof.
  eexists. split; [vm_compute; reflexivity|].
  unfold Spec.cash_types_claimed. intros H.
  apply Forall_inv in H. destruct H as (_ & H & _).
  vm_compute in H. discriminate H.
Qed.

Lemma placeOrder_cash_fields_witness :
  exists body : jsval decimal,
    placeOrder_body order_with_numeric_cash = Ok body
    /\ Forall2 Spec.cash_fields_built
         (Spec.detail_blocks order_with_numeric_cash) (Spec.detail_blocks body).
Proof.
  eexists. split; [vm_compute; reflexivity|].
  apply placeOrder_cash_fields. vm_compute. reflexivity.
Defined.

(** A counterexample to C7 as the specification states it: a flag given
    as the boolean [true] is written "true". *)
Lemma boolean_flag_written_as_true :
  exists body : jsval decimal,
    placeOrder_body order_with_boolean_flag = Ok body
    /\ ~ Spec.flags_claimed body.
Proof.
  eexists. split; [vm_compute; reflexivity|].
  unfold Spec.flags_claimed. intros H.
  apply Forall_inv in H. apply Forall_inv in H. destruct H as [[H|H] _];
    vm_compute in H; discriminate H.
Qed.

Lemma placeOrder_flags_are_text_witness :
  exists body : jsval decimal,
    placeOrder_body order_with_boolean_flag = Ok body
    /\ Spec.for_every_item Spec.flags_built order_with_boolean_flag body.
Proof.
  eexists. split; [vm_compute; reflexivity|].
  apply placeOrder_flags_are_text. vm_compute. reflexivity.
Defined.

Lemma placeOrder_eway_bill_aliases_witness :
  exists body : jsval decimal,
    placeOrder_body order_with_eway_bill = Ok body
    /\ Spec.for_every_item Spec.eway_bill_built order_with_eway_bill body.
Proof.
  eexists. split; [vm_compute; reflexivity|].
  apply placeOrder_eway_bill_aliases. vm_compute. reflexivity.
Defined.

(** The order whose second block has no Info. *)
Lemma placeOrder_second_detail_unvalidated_witness :
  let second : jsval decimal :=
    JObj [("ClientUniqueNo", JStr "LQ/TEST/3002");
          ("TotalActualWeight", JStr "2")] in
  exists detail,
    build_detail second = Throw (TypeError detail)
    /\ map_throwing build_detail
         (Spec.detail_blocks order_with_incomplete_second_detail)
       = Throw (TypeError detail)
    /\ fst (placeOrder production (answering 200 (JObj []))
              order_with_incomplete_second_detail logged_in)
       = Throw (TypeError detail).
Proof.
  intros second.
  assert (F : Forall (fun b => Spec.succeeds (build_detail b))
                     [detail (number := decimal) sender [JObj parcel] receiver]).
  { constructor; [eexists; vm_compute; reflexivity | constructor]. }
  destruct (proj1 (placeOrder_second_detail_unvalidated (number := decimal))
              order_with_incomplete_second_detail
              [detail sender [JObj parcel] receiver] second []
              eq_refl eq_refl eq_refl F eq_refl) as (text & B & M & P & _).
  exists text. split; [exact B|]. split; [exact M|]. now rewrite P.
Defined.

End PlaceOrder.

(* ================================================================== *)
(** * The provider client and the token cache                          *)
(* ================================================================== *)

Module Client.

Import PikndelService Facts.

Section Client.
Context {number : Type} {RT : Runtime number}.
Variable env : environment.

Local Abbreviation value := (jsval number).
Local Abbreviation res := (result number).

Lemma default_to_Ok (a d : value) : default_to (Ok a) d = Ok (or_ a d).
Proof. unfold default_to, or_else, or_. cbn. now destruct (truthy a). Qed.

(** [handlePikndelResponse] touches the token for a 401 and nothing else
    otherwise. *)
Lemma handlePikndelResponse_world (status : Z) (d : value) (w : world number) :
  snd (handlePikndelResponse status d w)
  = if (status =? 401)%Z then snd (write_token JNull w) else w.
Proof.
  unfold handlePikndelResponse.
  destruct (status =? 200)%Z eqn:E200.
  { apply Z.eqb_eq in E200; subst. reflexivity. }
  destruct (status =? 400)%Z eqn:E400.
  { apply Z.eqb_eq in E400; subst. cbn.
    unfold bindM, lift, throw. destruct (bind _ _); reflexivity. }
  destruct (status =? 401)%Z eqn:E401.
  { unfold bindM, lift, throw, write_token. destruct (bind _ _); reflexivity. }
  destruct (status =? 500)%Z eqn:E500.
  { unfold bindM, lift, throw. destruct (bind _ _); reflexivity. }
  unfold bindM, lift, throw. destruct (ToString _); reflexivity.
Qed.

Lemma handlePikndelResponse_401 (d : value) (w : world number) :
  exists e,
    fst (handlePikndelResponse 401 d w) = Throw e
    /\ (printable (Spec.unauthorized_message d) = true -> Spec.Unauthorized d e).
Proof.
  unfold handlePikndelResponse. cbn [Z.eqb Pos.eqb].
  unfold bindM, lift, throw, write_token.
  rewrite default_to_Ok. cbn [bind].
  fold (Spec.unauthorized_message d).
  unfold printable, Spec.Unauthorized.
  destruct (ToString (Spec.unauthorized_message d)) as [text|e]; cbn.
  - eexists. split; [reflexivity|]. intros _. now exists text.
  - exists e. split; [reflexivity|]. discriminate.
Qed.

Lemma buildControl_succeeds (w : io number) (version : value) :
  printable version = true -> Spec.succeeds (buildControl env w version).
Proof.
  intros H. unfold buildControl.
  set (v := match version with JUndefined => lit "1" | _ => version end).
  assert (Hv : printable v = true)
    by (subst v; destruct version; try assumption; reflexivity).
  clearbody v. apply printable_ToString in Hv as (s & Hs).
  cbn [object bind]. unfold String_. rewrite Hs. cbn. now eexists.
Qed.

(** Once the headers are ready: the envelope is built and the call goes
    out, unless the version cannot be written as text. *)
Ltac send :=
  match goal with
  | |- context [buildControl ?env ?w ?v] =>
      let control := fresh "control" in
      let e := fresh "e" in
      let B := fresh "B" in
      destruct (buildControl env w v) as [control|e] eqn:B;
      [ right; erewrite bindM_Ok by reflexivity; cbn beta zeta;
        match goal with
        | |- context [record_call ?c] =>
            exists c; split; [|split];
            [ | let Hw := fresh in
                intros Hw; exists control; cbn [data]; now rewrite Hw
              | erewrite bindM_Ok by reflexivity;
                destruct (axios w c) as [? ?|?];
                [destruct (validateStatus _)|]; reflexivity ]
        end
      | left; split;
        [ exists e; now erewrite bindM_Throw by reflexivity
        | right;
          match goal with
          | |- printable ?x = false =>
              let P := fresh "P" in
              destruct (printable x) eqn:P; [|reflexivity];
              destruct (buildControl_succeeds w _ P) as (? & ?); congruence
          end ] ]
  end.

(** Either [request] throws before anything is sent, because the token or
    the version cannot be written as text, or it hands one configuration
    to axios and settles on the outcome. *)
Lemma request_cases (w : io number) (o : request_options) (before : world number) :
  ((exists e, request env w o before = (Throw e, before))
   /\ (printable (cachedToken before) = false
       \/ printable (opt_version o) = false))
  \/ (exists c,
        (cachedToken before = JNull -> Spec.no_authorization c)
        /\ (opt_wrapInData o = true ->
            exists control,
              data c = JObj [("Control", control); ("Data", opt_data o)])
        /\ request env w o before
           = match axios w c with
             | Responded status d =>
                 if validateStatus status
                 then try_catch (handlePikndelResponse status d)
                        (fun err => throw (network_error (opt_path o) (message_of err)))
                        (snd (record_call c before))
                 else handlePikndelResponse status d (snd (record_call c before))
             | Failed message =>
                 (Throw (network_error (opt_path o) message),
                  snd (record_call c before))
             end).
Proof.
  unfold request.
  rewrite (bindM_Ok read_token _ before (cachedToken before) before eq_refl).
  cbn beta.
  destruct (opt_auth o && truthy (cachedToken before)) eqn:E.
  - destruct (ToString (cachedToken before)) as [s|e] eqn:Es.
    + erewrite bindM_Ok by reflexivity.
      send. intros Hnull. rewrite Hnull in E. cbn in E.
      now rewrite andb_false_r in E.
    + left. split.
      * exists e. now erewrite bindM_Throw by reflexivity.
      * left. unfold printable. now rewrite Es.
  - erewrite bindM_Ok by reflexivity.
    send. intros _. reflexivity.
Qed.

Lemma calls_made_none {A} (m : M number A) (r : res A) (before : world number) :
  m before = (r, before) -> Spec.calls_made m before = [].
Proof. unfold Spec.calls_made. intros ->. apply skipn_all. Qed.

(** The world once a call has gone out and its outcome is settled. *)
Lemma settled_world (w : io number) (path : string)
    (c : axios_config number) (sent : world number) :
  snd match axios w c with
      | Responded status d =>
          if validateStatus status
          then try_catch (handlePikndelResponse status d)
                 (fun err => throw (network_error path (message_of err))) sent
          else handlePikndelResponse status d sent
      | Failed message => (Throw (network_error path message), sent)
      end
  = match axios w c with
    | Responded status _ =>
        if (status =? 401)%Z then snd (write_token JNull sent) else sent
    | Failed _ => sent
    end.
Proof.
  destruct (axios w c) as [status d|message]; [|reflexivity].
  destruct (validateStatus status) eqn:V.
  - rewrite try_catch_rethrow_world, handlePikndelResponse_world.
    unfold validateStatus in V. apply andb_prop in V as [V1 V2].
    apply Z.leb_le in V1. apply Z.ltb_lt in V2.
    destruct (Z.eqb_spec status 401); [lia | reflexivity].
  - apply handlePikndelResponse_world.
Qed.

(** [request] makes no call or exactly one. *)
Lemma request_calls (w : io number) (o : request_options) (before : world number) :
  Spec.calls_made (request env w o) before = []
  \/ exists c,
       Spec.calls_made (request env w o) before = [c]
       /\ (cachedToken before = JNull -> Spec.no_authorization c)
       /\ snd (request env w o before)
          = match axios w c with
            | Responded status _ =>
                if (status =? 401)%Z
                then snd (write_token JNull (snd (record_call c before)))
                else snd (record_call c before)
            | Failed _ => snd (record_call c before)
            end
       /\ forall d, axios w c = Responded 401 d ->
            fst (request env w o before)
            = fst (handlePikndelResponse 401 d (snd (record_call c before))).
Proof.
  destruct (request_cases w o before) as [[(e & E) _] | (c & Hauth & _ & E)].
  { left. exact (calls_made_none _ _ _ E). }
  right. exists c.
  assert (W := settled_world w (opt_path o) c (snd (record_call c before))).
  rewrite <- E in W.
  split; [|split; [exact Hauth | split; [exact W|]]].
  - unfold Spec.calls_made. rewrite W.
    destruct (axios w c) as [status d|message];
      [destruct (status =? 401)%Z|];
      cbn [snd record_call write_token outbound];
      apply skipn_length_app.
  - intros d Hd. rewrite E, Hd. reflexivity.
Qed.

(** [placeOrder] hands the body it has built to the provider, under Data,
    as long as the cached token can be written into the header. *)
Lemma placeOrder_sends_body (w : io number) (payload body : value)
    (before : world number) :
  placeOrder_body payload = Ok body ->
  printable (cachedToken before) = true ->
  exists c control,
    Spec.calls_made (placeOrder env w payload) before = [c]
    /\ data c = JObj [("Control", control); ("Data", body)].
Proof.
  intros Hb Ht.
  assert (E : placeOrder env w payload before
              = request env w
                  {| opt_method := "post";
                     opt_path := "/backoffice/api/pikndel/place_order";
                     opt_version := lit "3.2";
                     opt_auth := true;
                     opt_wrapInData := true;
                     opt_data := body |} before).
  { unfold placeOrder. now erewrite bindM_Ok by (apply lift_Ok; exact Hb). }
  unfold Spec.calls_made. rewrite E.
  match goal with
  | |- context [request env w ?o before] =>
      destruct (request_cases w o before)
        as [[_ [P | P]] | (c & _ & D & R)];
      [ congruence | discriminate P | ];
      destruct (D eq_refl) as (control & Hd);
      exists c, control; split; [|exact Hd];
      pose proof (settled_world w (opt_path o) c (snd (record_call c before))) as W;
      rewrite <- R in W; rewrite W
  end.
  destruct (axios w c) as [status d|message];
    [destruct (status =? 401)%Z|];
    cbn [snd record_call write_token outbound];
    apply skipn_length_app.
Qed.

(** C3. When the provider answers a call with 401 the cached token is
    cleared, the call fails with Unauthorized, and no later call carries
    an Authorization header while the token stays cleared; any other
    answer, and no answer at all, leave the cached token as it was. *)
Theorem unauthorized_clears_cached_token
    (w : io number) (o : request_options) (before : world number)
    (c : axios_config number) :
  Spec.calls_made (request env w o) before = [c] ->
  let failure := fst (request env w o before) in
  let after := snd (request env w o before) in
  match axios w c with
  | Responded status d =>
      if (status =? 401)%Z then
        cachedToken after = JNull
        /\ (exists e, failure = Throw e
                      /\ (printable (Spec.unauthorized_message d) = true ->
                          Spec.Unauthorized d e))
        /\ (forall w' o',
              Forall Spec.no_authorization
                     (Spec.calls_made (request env w' o') after))
      else cachedToken after = cachedToken before
  | Failed _ => cachedToken after = cachedToken before
  end.
Proof.
  intros Hc failure after. subst failure after.
  destruct (request_calls w o before) as [E | (c0 & E & _ & W & R)];
    rewrite E in Hc; [discriminate|].
  inversion Hc; subst c0; clear Hc.
  destruct (axios w c) as [status d|message] eqn:A; [|now rewrite W].
  destruct (Z.eqb_spec status 401) as [->|Hs]; [|now rewrite W].
  assert (T : cachedToken (snd (request env w o before)) = JNull)
    by now rewrite W.
  split; [exact T|]. split.
  - rewrite (R d eq_refl). apply handlePikndelResponse_401.
  - intros w' o'.
    destruct (request_calls w' o' (snd (request env w o before)))
      as [-> | (c' & -> & N & _)]; [constructor|].
    constructor; [now apply N | constructor].
Qed.

(** ** login *)

Lemma first_present_candidate (a b c d : value) :
  match find Spec.present [a; b; c; d] with
  | Some t => or_ (or_ (or_ a b) c) d = t /\ truthy t = true
  | None => truthy (or_ (or_ (or_ a b) c) d) = false
  end.
Proof.
  unfold Spec.present, or_. cbn [find].
  destruct (truthy a) eqn:A; cbn; rewrite ?A; [auto|].
  destruct (truthy b) eqn:B; cbn; rewrite ?B; [auto|].
  destruct (truthy c) eqn:C; cbn; rewrite ?C; [auto|].
  destruct (truthy d) eqn:D; cbn; rewrite ?D; auto.
Qed.

(** C4. [login] looks for the token under Data.Token, then Token, then
    token, then access_token, and takes the first that is present: that
    token becomes the cached token and is returned; when none is present
    it fails with TokenMissing and the cache is left alone. *)
Theorem login_takes_first_present_token
    (w : io number) (username password response : value)
    (before : world number) :
  truthy (fst (Spec.credentials env username password)) = true ->
  truthy (snd (Spec.credentials env username password)) = true ->
  (forall c, axios w c = Responded 200 response) ->
  let outcome := login env w username password before in
  match find Spec.present (Spec.token_candidates response) with
  | Some token =>
      cachedToken (snd outcome) = token
      /\ (printable (Spec.userId_of response) = true ->
          fst outcome = Ok (Spec.login_result response token))
  | None =>
      fst outcome = Throw Spec.TokenMissing
      /\ cachedToken (snd outcome) = cachedToken before
  end.
Proof.
  unfold Spec.credentials. cbn [fst snd]. intros HU HP Hok. cbn zeta.
  unfold login. rewrite HU, HP. cbn [negb orb].
  set (o := {| opt_method := "post"; opt_path := _; opt_data := _;
               opt_version := _; opt_auth := false; opt_wrapInData := true |}).
  assert (R : exists c, request env w o before
                        = (Ok response, snd (record_call c before))).
  { unfold request.
    rewrite (bindM_Ok read_token _ before (cachedToken before) before eq_refl).
    cbn beta. subst o. cbn [opt_auth andb].
    erewrite bindM_Ok by reflexivity. cbn beta.
    erewrite bindM_Ok by reflexivity. cbn beta.
    match goal with
    | |- context [record_call ?c] => set (config := c)
    end.
    exists config. erewrite bindM_Ok by reflexivity.
    rewrite (Hok config). reflexivity. }
  destruct R as (c & R).
  rewrite (bindM_Ok _ _ _ _ _ R).
  unfold Spec.token_candidates.
  pose proof (first_present_candidate
                (get_opt (get_opt response "Data") "Token")
                (get_opt response "Token")
                (get_opt response "token")
                (get_opt response "access_token")) as F.
  destruct (find Spec.present _) as [token|].
  - destruct F as [-> T]. rewrite T. cbn [negb].
    unfold bindM at 1, write_token.
    fold (Spec.userId_of response).
    split.
    + unfold bindM, lift, console_print, ret.
      destruct (ToString (Spec.userId_of response)); reflexivity.
    + intros Hprint. apply printable_ToString in Hprint as (s & Hs).
      unfold bindM, lift, console_print, ret. rewrite Hs. reflexivity.
  - rewrite F. cbn [negb]. split; reflexivity.
Qed.

End Client.

(** ** The claims on sample calls *)

Import DecimalRuntime Samples.

(** The call of [getOrderStatus("PKD1")], answered 401 while the token
    "abc" is cached. *)
Lemma unauthorized_clears_cached_token_witness :
  let o := {| opt_method := "post";
              opt_path := "/backoffice/api/pikndel/order/get_status";
              opt_data := JObj [("AWBNo", JStr "PKD1")];
              opt_version := lit "1";
              opt_auth := true;
              opt_wrapInData := true |} in
  let expired := answering 401 (JObj [("Message", JStr "Token expired")]) in
  exists c,
    Spec.calls_made (request production expired o) logged_in = [c]
    /\ header (number := decimal) "Authorization" (headers c) = JStr "Bearer abc"
    /\ cachedToken (snd (request production expired o logged_in)) = JNull
    /\ (exists e, fst (request production expired o logged_in) = Throw e
                  /\ Spec.Unauthorized (JObj [("Message", JStr "Token expired")]) e)
    /\ Forall Spec.no_authorization
         (Spec.calls_made (request production expired o)
            (snd (request production expired o logged_in))).
Proof.
  intros o expired. eexists.
  assert (H : Spec.calls_made (request production expired o) logged_in = [_])
    by (vm_compute; reflexivity).
  split; [exact H|]. split; [reflexivity|].
  destruct (unauthorized_clears_cached_token production expired o logged_in _ H)
    as (T & (e & He & U) & N).
  split; [exact T|]. split; [|apply N].
  exists e. split; [exact He | apply U; reflexivity].
Defined.

Lemma login_takes_first_present_token_witness :
  let response :=
    JObj [("Data", JObj [("Token", JStr "abc"); ("UserId", lit "7034")]);
          ("token", JStr "other")] in
  cachedToken (snd (login production (answering 200 response)
                      JUndefined JUndefined fresh))
  = JStr "abc"
  /\ fst (login production (answering 200 response) JUndefined JUndefined fresh)
     = Ok (JObj [("token", JStr "abc"); ("userId", lit "7034"); ("name", JNull)]).
Proof.
  intros response.
  destruct (login_takes_first_present_token production (answering 200 response)
              JUndefined JUndefined response fresh
              eq_refl eq_refl (fun _ => eq_refl)) as [T R].
  split; [exact T | exact (R eq_refl)].
Defined.

End Client.

(* ================================================================== *)
(** * The webhook endpoint                                             *)
(* ================================================================== *)

Module Webhook.

Import OrderRoutes Facts.

Section Webhook.
Context {number : Type} {RT : Runtime number}.
Variable env : environment.

Local Abbreviation value := (jsval number).
Local Abbreviation res := (result number).

(** ** The secret check *)

Lemma header_cases (name : string) (hs : list (string * string)) :
  header (number := number) name hs = JUndefined
  \/ exists s, header (number := number) name hs = JStr s.
Proof.
  induction hs as [|[k v] rest IH]; cbn; [now left|].
  destruct (k =? name)%string; [right; eauto | exact IH].
Qed.

Lemma verifyWebhookSecret_cases (req : request number) (before : world number) :
  collection (snd (verifyWebhookSecret env req before)) = collection before
  /\ match Spec.configured_secret env with
     | None => fst (verifyWebhookSecret env req before) = Ok Next
     | Some secret =>
         if Spec.presents req secret
         then fst (verifyWebhookSecret env req before) = Ok Next
         else exists r,
                fst (verifyWebhookSecret env req before) = Ok (Answer r)
                /\ Spec.rejection r
     end.
Proof.
  unfold verifyWebhookSecret, Spec.configured_secret, Spec.presents.
  destruct (PIKNDEL_WEBHOOK_SECRET env) as [secret|]; cbn [env_value truthy negb].
  2:{ split; reflexivity. }
  destruct (secret =? "")%string eqn:Es; cbn [negb].
  { split; reflexivity. }
  destruct (header_cases "x-pikndel-secret" (req_headers req)) as [-> | (s & ->)];
    cbn [truthy negb strict_eq].
  { split; [reflexivity|]. eexists. split; [reflexivity|].
    split; [reflexivity | eexists; reflexivity]. }
  destruct (s =? "")%string eqn:E0; cbn [negb].
  - apply String.eqb_eq in E0. subst s.
    rewrite String.eqb_sym, Es.
    split; [reflexivity|]. eexists. split; [reflexivity|].
    split; [reflexivity | eexists; reflexivity].
  - destruct (s =? secret)%string; cbn [negb].
    + split; reflexivity.
    + split; [reflexivity|]. eexists. split; [reflexivity|].
      split; [reflexivity | eexists; reflexivity].
Qed.

(** ** The handler *)

Lemma readable_Ok (table : list (string * string)) (code : value) (s : string) :
  ToString code = Ok s -> exists text, readable table code = Ok text.
Proof.
  intros H. unfold readable. rewrite H. cbn [bind].
  destruct (assoc s table) as [label|].
  - destruct (label =? "")%string; eauto.
  - destruct (assoc s Object_prototype); eauto.
Qed.

Ltac step :=
  erewrite bindM_Ok by (first [reflexivity | apply lift_Ok; eassumption]);
  cbn beta; cbn [cachedToken outbound console collection].

Ltac stop :=
  erewrite bindM_Throw by (first [reflexivity | apply lift_Throw; eassumption]).

(** The [try] block either runs to its end, acknowledging the push and
    storing the document exactly when [create] accepts it, or stops at a
    field it cannot write to the console, with the collection untouched. *)
Lemma status_handler_try_cases (table : list (string * string))
    (create : WebhookResponse number -> option string)
    (req : request number) (w : world number) :
  let document := document_of (Spec.payload_of req) in
  (Spec.loggable req = true
   /\ exists w',
        status_handler_try table create req w = (Ok acknowledged, w')
        /\ match create document with
           | None => collection w' = (collection w ++ [document])%list
           | Some message =>
               collection w' = collection w
               /\ In (Spec.save_failure message) (console w')
           end)
  \/ (Spec.loggable req = false
      /\ exists e w',
           status_handler_try table create req w = (Throw e, w')
           /\ collection w' = collection w).
Proof.
  cbv zeta. unfold status_handler_try. cbv zeta.
  fold (Spec.payload_of req).
  unfold Spec.loggable, printable.
  destruct (ToString (prop (Spec.payload_of req) "AWBNo")) as [t1|e] eqn:H1;
    [|right; split; [reflexivity|]; do 2 eexists; split;
      [do 2 step; stop; reflexivity | reflexivity]].
  destruct (ToString (prop (Spec.payload_of req) "short_code")) as [t2|e] eqn:H2;
    [|right; split; [reflexivity|]; do 2 eexists; split;
      [do 4 step; stop; reflexivity | reflexivity]].
  destruct (ToString (prop (Spec.payload_of req) "activity")) as [t3|e] eqn:H3;
    [|right; split; [reflexivity|]; do 2 eexists; split;
      [do 6 step; stop; reflexivity | reflexivity]].
  destruct (ToString (prop (Spec.payload_of req) "timestamp")) as [t4|e] eqn:H4;
    [|right; split; [reflexivity|]; do 2 eexists; split;
      [do 8 step; stop; reflexivity | reflexivity]].
  left. split; [reflexivity|].
  destruct (readable_Ok table _ _ H2) as (text & Hr).
  destruct (create (document_of (Spec.payload_of req))) as [message|];
    eexists; (split; [do 15 step; try step; reflexivity|]).
  - split; [reflexivity|]. unfold Spec.save_failure. cbn [console].
    apply in_or_app. right. left. reflexivity.
  - reflexivity.
Qed.


Lemma status_handler_cases (table : list (string * string))
    (create : WebhookResponse number -> option string)
    (req : request number) (w : world number) :
  let outcome := status_handler_with table create req w in
  let document := document_of (Spec.payload_of req) in
  (Spec.loggable req = true
   /\ fst outcome = Ok acknowledged
   /\ match create document with
      | None => collection (snd outcome) = (collection w ++ [document])%list
      | Some message =>
          collection (snd outcome) = collection w
          /\ In (Spec.save_failure message) (console (snd outcome))
      end)
  \/ (Spec.loggable req = false
      /\ fst outcome
         = Ok {| statusCode := 500%Z;
                 json := JObj [("success", JBool false);
                               ("error", JStr "Webhook handler error.")] |}
      /\ collection (snd outcome) = collection w).
Proof.
  cbv zeta. unfold status_handler_with.
  destruct (status_handler_try_cases table create req w)
    as [(L & w' & E & H) | (L & e & w' & E & H)].
  - left. rewrite (try_catch_Ok _ _ _ _ _ E). auto.
  - right. rewrite (try_catch_Throw _ _ _ _ _ E). step.
    split; [assumption|]. split; [reflexivity | exact H].
Qed.

(** The route: the secret check, then the handler. *)
Lemma post_pikndel_status_cases (table : list (string * string))
    (create : WebhookResponse number -> option string)
    (req : request number) (before : world number) :
  (exists r, fst (verifyWebhookSecret env req before) = Ok (Answer r)
             /\ post_pikndel_status_with env table create req before
                = (Ok r, snd (verifyWebhookSecret env req before)))
  \/ (fst (verifyWebhookSecret env req before) = Ok Next
      /\ post_pikndel_status_with env table create req before
         = status_handler_with table create req
             (snd (verifyWebhookSecret env req before))).
Proof.
  unfold post_pikndel_status_with.
  destruct (verifyWebhookSecret_cases req before) as [_ H].
  destruct (verifyWebhookSecret env req before) as [r w1] eqn:V. cbn [fst snd] in *.
  destruct (Spec.configured_secret env) as [secret|];
    [destruct (Spec.presents req secret)|].
  - right. subst r. split; [reflexivity|]. now rewrite (bindM_Ok _ _ _ _ _ V).
  - left. destruct H as (a & -> & _). exists a. split; [reflexivity|].
    now rewrite (bindM_Ok _ _ _ _ _ V).
  - right. subst r. split; [reflexivity|]. now rewrite (bindM_Ok _ _ _ _ _ V).
Qed.

(** ** The claims *)

(** C5. What the endpoint answers never depends on whether the document
    can be stored. Once the secret check has passed, a push whose fields
    can be written to the console is answered 200 with the success body;
    when the store rejects the document, nothing is stored and the failure
    is written to the console. *)
Theorem webhook_acknowledged_when_persistence_fails
    (create : WebhookResponse number -> option string)
    (req : request number) (before : world number) :
  let outcome := post_pikndel_status env create req before in
  (forall create',
     fst (post_pikndel_status env create' req before) = fst outcome)
  /\ (fst (verifyWebhookSecret env req before) = Ok Next ->
      Spec.loggable req = true ->
      fst outcome = Ok acknowledged
      /\ statusCode (acknowledged (number := number)) = 200%Z
      /\ prop (json (acknowledged (number := number))) "success" = JBool true
      /\ forall message,
           create (document_of (Spec.payload_of req)) = Some message ->
           collection (snd outcome) = collection before
           /\ In (Spec.save_failure message) (console (snd outcome))).
Proof.
  cbv zeta. unfold post_pikndel_status. split.
  - intros create'.
    destruct (post_pikndel_status_cases STATUS_MAP create req before)
      as [(r & Hr & E) | (Hn & E)];
    destruct (post_pikndel_status_cases STATUS_MAP create' req before)
      as [(r' & Hr' & E') | (Hn' & E')]; try congruence.
    rewrite E, E'.
    destruct (status_handler_cases STATUS_MAP create req
                (snd (verifyWebhookSecret env req before)))
      as [(L & R & _) | (L & R & _)];
    destruct (status_handler_cases STATUS_MAP create' req
                (snd (verifyWebhookSecret env req before)))
      as [(L' & R' & _) | (L' & R' & _)]; cbv zeta in *; congruence.
  - intros V L.
    destruct (post_pikndel_status_cases STATUS_MAP create req before)
      as [(r & Hr & _) | (_ & ->)]; [congruence|].
    destruct (status_handler_cases STATUS_MAP create req
                (snd (verifyWebhookSecret env req before)))
      as [(_ & R & H) | (L' & _)]; [|congruence].
    cbv zeta in R, H.
    split; [exact R|]. split; [reflexivity|]. split; [reflexivity|].
    intros message Hm. rewrite Hm in H. destruct H as [H1 H2].
    split; [|exact H2].
    rewrite H1. apply verifyWebhookSecret_cases.
Qed.

(** C6. With no secret configured the check is skipped and the push goes
    on to the handler. With a secret configured, a push that presents it
    goes on; a push whose [x-pikndel-secret] header is missing or differs
    is answered 401 with a structured error body and nothing is stored. *)
Theorem webhook_secret_check
    (create : WebhookResponse number -> option string)
    (req : request number) (before : world number) :
  let checked := verifyWebhookSecret env req before in
  let outcome := post_pikndel_status env create req before in
  match Spec.configured_secret env with
  | None =>
      fst checked = Ok Next
      /\ outcome = status_handler_with STATUS_MAP create req (snd checked)
  | Some secret =>
      if Spec.presents req secret
      then fst checked = Ok Next
           /\ outcome = status_handler_with STATUS_MAP create req (snd checked)
      else (exists r, fst outcome = Ok r /\ Spec.rejection r)
           /\ collection (snd outcome) = collection before
  end.
Proof.
  cbv zeta. unfold post_pikndel_status.
  destruct (verifyWebhookSecret_cases req before) as [C H].
  destruct (post_pikndel_status_cases STATUS_MAP create req before)
    as [(r & Hr & E) | (Hn & E)].
  - destruct (Spec.configured_secret env) as [secret|];
      [destruct (Spec.presents req secret)|]; try congruence.
    destruct H as (r' & Hr' & Hrej).
    assert (r' = r) by congruence. subst r'.
    rewrite E. cbn [fst snd]. split; [eauto | exact C].
  - destruct (Spec.configured_secret env) as [secret|];
      [destruct (Spec.presents req secret)|]; auto.
    destruct H as (r' & Hr' & _). congruence.
Qed.

(** C10. The label the lookup table gives goes to the console only: the
    answer and the collection are the same whatever the table holds, and
    a document that is stored carries the short_code of the push as it
    came, which for a code of the table is not its label. *)
Theorem webhook_stores_raw_short_code
    (table : list (string * string))
    (create : WebhookResponse number -> option string)
    (req : request number) (before : world number) :
  let outcome := post_pikndel_status env create req before in
  let relabelled := post_pikndel_status_with env table create req before in
  fst relabelled = fst outcome
  /\ collection (snd relabelled) = collection (snd outcome)
  /\ (collection (snd outcome) = collection before
      \/ exists document,
           collection (snd outcome) = (collection before ++ [document])%list
           /\ short_code document = prop (Spec.payload_of req) "short_code"
           /\ forall code label,
                In (code, label) STATUS_MAP ->
                short_code document = JStr code ->
                short_code document <> JStr label).
Proof.
  cbv zeta. unfold post_pikndel_status.
  destruct (verifyWebhookSecret_cases req before) as [C _].
  destruct (post_pikndel_status_cases STATUS_MAP create req before)
    as [(r & Hr & E) | (Hn & E)];
  destruct (post_pikndel_status_cases table create req before)
    as [(r' & Hr' & E') | (Hn' & E')]; try congruence.
  - rewrite E, E'. cbn [fst snd].
    split; [congruence|]. split; [reflexivity|]. left. exact C.
  - rewrite E, E'.
    destruct (status_handler_cases STATUS_MAP create req
                (snd (verifyWebhookSecret env req before)))
      as [(L & R & H) | (L & R & H)];
    destruct (status_handler_cases table create req
                (snd (verifyWebhookSecret env req before)))
      as [(L' & R' & H') | (L' & R' & H')]; try congruence;
    cbv zeta in *.
    + split; [congruence|].
      destruct (create (document_of (Spec.payload_of req))) as [message|].
      * destruct H as [H _], H' as [H' _].
        split; [congruence|]. left. now rewrite H.
      * split; [congruence|]. right.
        exists (document_of (Spec.payload_of req)).
        split; [now rewrite H, C|]. split; [reflexivity|].
        intros code label Hin Hc Hl. rewrite Hc in Hl.
        injection Hl as Hl. subst label.
        cbn in Hin.
        repeat (destruct Hin as [Hin|Hin]; [inversion Hin; subst; discriminate|]).
        exact Hin.
    + split; [congruence|]. split; [congruence|]. left. now rewrite H.
Qed.

End Webhook.

(** ** The claims on sample pushes *)

Import DecimalRuntime Samples.

Lemma webhook_acknowledged_when_persistence_fails_witness :
  let req := push_with [("x-pikndel-secret", "s3cret")] in
  let outcome := post_pikndel_status production unreachable req fresh in
  fst (verifyWebhookSecret production req fresh) = Ok Next
  /\ Spec.loggable req = true
  /\ fst outcome = Ok acknowledged
  /\ fst (post_pikndel_status production reachable req fresh) = fst outcome
  /\ collection (snd outcome) = []
  /\ In (error, "❌ Failed to save webhook to MongoDB: Operation `pickndel integration responce file.insertOne()` buffering timed out after 10000ms")
        (console (snd outcome)).
Proof.
  intros req outcome.
  assert (V : fst (verifyWebhookSecret production req fresh) = Ok Next)
    by reflexivity.
  assert (L : Spec.loggable req = true) by reflexivity.
  split; [exact V|]. split; [exact L|].
  destruct (webhook_acknowledged_when_persistence_fails production unreachable
              req fresh) as (I & A).
  destruct (A V L) as (R & _ & _ & F).
  split; [exact R|]. split; [exact (I reachable)|]. exact (F _ eq_refl).
Defined.

(** A push without the header, against a configured secret. *)
Lemma webhook_secret_check_witness :
  let outcome := post_pikndel_status production reachable (push_with []) fresh in
  (exists r, fst outcome = Ok r /\ Spec.rejection r)
  /\ collection (snd outcome) = [].
Proof.
  exact (webhook_secret_check production reachable (push_with []) fresh).
Defined.

(** An accepted push with the code PCK: the document holds "PCK". *)
Lemma webhook_stores_raw_short_code_witness :
  let outcome :=
    post_pikndel_status development reachable (push_with []) fresh in
  exists document,
    collection (snd outcome) = [document]
    /\ short_code document = JStr "PCK"
    /\ short_code document <> JStr "Parcel Picked Up".
Proof.
  intros outcome.
  destruct (webhook_stores_raw_short_code development [] reachable
              (push_with []) fresh) as (_ & _ & [H | (d & H & S & N)]).
  - vm_compute in H. discriminate H.
  - exists d. split; [exact H|]. split; [exact S|].
    apply (N "PCK" "Parcel Picked Up"); [|exact S].
    right. left. reflexivity.
Defined.

(** Outside the pushes the handler can write to the console: the template
    literal throws, the outer [catch] answers 500 and nothing is stored. *)
Example unprintable_push_answered_500 :
  Spec.loggable (number := decimal) push_with_unprintable_AWBNo = false
  /\ fst (post_pikndel_status development reachable
             push_with_unprintable_AWBNo fresh)
     = Ok {| statusCode := 500%Z;
             json := JObj [("success", JBool false);
                           ("error", JStr "Webhook handler error.")] |}
  /\ collection (snd (post_pikndel_status development reachable
                        push_with_unprintable_AWBNo fresh)) = [].
Proof. repeat split; vm_compute; reflexivity. Qed.

End Webhook.

(* ================================================================== *)
(** * More on the provider client                                      *)
(* ================================================================== *)

Module Requests.

Import PikndelService Facts.

Section Requests.
Context {number : Type} {RT : Runtime number}.
Variable env : environment.

Local Abbreviation value := (jsval number).
Local Abbreviation res := (result number).

(** ** The envelope *)

Lemma buildControl_envelope (w : io number) (version control : value) :
  buildControl env w version = Ok control ->
  exists text,
    ToString (Notions.version_or_default version) = Ok text
    /\ control = Notions.envelope env w text.
Proof.
  unfold buildControl. fold (Notions.version_or_default version).
  fold (Notions.source env). cbn [object bind]. unfold String_.
  destruct (ToString (Notions.version_or_default version)) as [text|e];
    cbn; [|discriminate].
  intros H. inversion H. now exists text.
Qed.

(** [request], once the token and the version are written as text: the
    configuration is handed to axios and the outcome settled. *)
Lemma request_unfolds (w : io number) (o : request_options)
    (before : world number) (text : string) (control : value) :
  (opt_auth o && truthy (cachedToken before) = true ->
   ToString (cachedToken before) = Ok text) ->
  buildControl env w (opt_version o) = Ok control ->
  let c := Notions.configuration env o (cachedToken before) text control in
  request env w o before
  = Notions.settle w (opt_path o) c (snd (record_call c before)).
Proof.
  intros Ht Hc. cbv zeta. unfold request.
  rewrite (bindM_Ok read_token _ before (cachedToken before) before eq_refl).
  cbn beta.
  unfold Notions.configuration, Notions.authorization, Notions.enveloped.
  destruct (opt_auth o && truthy (cachedToken before)) eqn:E.
  - erewrite bindM_Ok
      by (unfold bindM, lift, ret; rewrite (Ht eq_refl); reflexivity).
    erewrite bindM_Ok by (apply lift_Ok; exact Hc). cbn beta zeta.
    erewrite bindM_Ok by reflexivity. reflexivity.
  - erewrite bindM_Ok by reflexivity.
    erewrite bindM_Ok by (apply lift_Ok; exact Hc). cbn beta zeta.
    erewrite bindM_Ok by reflexivity. reflexivity.
Qed.

Lemma settle_world (w : io number) (path : string)
    (c : axios_config number) (sent : world number) :
  snd (Notions.settle w path c sent)
  = match axios w c with
    | Responded status _ =>
        if (status =? 401)%Z then snd (write_token JNull sent) else sent
    | Failed _ => sent
    end.
Proof.
  unfold Notions.settle.
  pose proof (Client.settled_world w path c sent) as H.
  destruct (axios w c) as [status d|message]; [|reflexivity].
  destruct (validateStatus status); exact H.
Qed.

(** Whether [request] gets as far as axios. *)
Lemma request_reaches_axios (w : io number) (o : request_options)
    (before : world number) :
  (exists e, request env w o before = (Throw e, before))
  \/ exists text control,
       (opt_auth o && truthy (cachedToken before) = true ->
        ToString (cachedToken before) = Ok text)
       /\ buildControl env w (opt_version o) = Ok control
       /\ Spec.calls_made (request env w o) before
          = [Notions.configuration env o (cachedToken before) text control].
Proof.
  destruct (opt_auth o && truthy (cachedToken before)) eqn:E.
  - destruct (ToString (cachedToken before)) as [text|e] eqn:Ht.
    + destruct (buildControl env w (opt_version o)) as [control|e] eqn:Hc.
      * right. exists text, control. split; [auto|]. split; [reflexivity|].
        unfold Spec.calls_made.
        rewrite (request_unfolds w o before text control) by auto.
        rewrite settle_world.
        destruct (axios w _) as [status d|message];
          [destruct (status =? 401)%Z|];
          cbn [snd record_call write_token outbound];
          apply skipn_length_app.
      * left. exists e. unfold request.
        rewrite (bindM_Ok read_token _ before (cachedToken before) before eq_refl).
        cbn beta. rewrite E.
        erewrite bindM_Ok
          by (unfold bindM, lift, ret; rewrite Ht; reflexivity).
        now erewrite bindM_Throw by (apply lift_Throw; exact Hc).
    + left. exists e. unfold request.
      rewrite (bindM_Ok read_token _ before (cachedToken before) before eq_refl).
      cbn beta. rewrite E.
      now erewrite bindM_Throw
        by (unfold bindM, lift; rewrite Ht; reflexivity).
  - destruct (buildControl env w (opt_version o)) as [control|e] eqn:Hc.
    + right. exists "", control.
      split; [intros H; congruence|]. split; [reflexivity|].
      unfold Spec.calls_made.
      rewrite (request_unfolds w o before "" control)
        by (auto; intros H; congruence).
      rewrite settle_world.
      destruct (axios w _) as [status d|message];
        [destruct (status =? 401)%Z|];
        cbn [snd record_call write_token outbound];
        apply skipn_length_app.
    + left. exists e. unfold request.
      rewrite (bindM_Ok read_token _ before (cachedToken before) before eq_refl).
      cbn beta. rewrite E.
      erewrite bindM_Ok by reflexivity.
      now erewrite bindM_Throw by (apply lift_Throw; exact Hc).
Qed.

(** What a call that went out was made of, and how it is settled. *)
Lemma request_sent (w : io number) (o : request_options)
    (before : world number) (c : axios_config number) :
  Spec.calls_made (request env w o) before = [c] ->
  request env w o before
  = Notions.settle w (opt_path o) c (snd (record_call c before))
  /\ exists text control,
       c = Notions.configuration env o (cachedToken before) text control
       /\ (opt_auth o && truthy (cachedToken before) = true ->
           ToString (cachedToken before) = Ok text)
       /\ buildControl env w (opt_version o) = Ok control.
Proof.
  intros Hc.
  destruct (request_reaches_axios w o before)
    as [(e & E) | (text & control & Ht & Hb & E)].
  { rewrite (Client.calls_made_none _ _ _ E) in Hc. discriminate. }
  rewrite E in Hc. inversion Hc as [H]. clear Hc.
  split.
  - exact (request_unfolds w o before text control Ht Hb).
  - now exists text, control.
Qed.

(** Storing and spreading properties, read back. *)
Lemma lookup_set_prop (k k' : string) (v : value) (props : list (string * value)) :
  lookup k (set_prop k' v props)
  = if k =? k' then Some v else lookup k props.
Proof.
  induction props as [|[k1 v1] rest IH]; cbn [set_prop lookup].
  - reflexivity.
  - destruct (String.eqb_spec k' k1) as [->|N]; cbn [lookup].
    + now destruct (k =? k1).
    + rewrite IH. destruct (String.eqb_spec k k1) as [->|N1]; [|reflexivity].
      destruct (String.eqb_spec k1 k'); congruence.
Qed.

Lemma lookup_absent (k : string) (props : list (string * value)) :
  ~ In k (map fst props) -> lookup k props = None.
Proof.
  induction props as [|[k1 v1] rest IH]; cbn [lookup map fst In];
    [reflexivity|].
  intros H. destruct (String.eqb_spec k k1) as [->|N]; [tauto|].
  apply IH. tauto.
Qed.

Lemma lookup_spread (k : string) (source target : list (string * value)) :
  NoDup (map fst source) ->
  lookup k (fold_left (fun acc kv => set_prop (fst kv) (snd kv) acc)
                      source target)
  = match lookup k source with
    | Some v => Some v
    | None => lookup k target
    end.
Proof.
  revert target.
  induction source as [|[k1 v1] rest IH]; intros target Hn;
    cbn [fold_left lookup fst snd]; [reflexivity|].
  cbn [map fst] in Hn. inversion Hn as [|? ? Hin Hrest]; subst.
  rewrite (IH _ Hrest), lookup_set_prop.
  destruct (String.eqb_spec k k1) as [->|N].
  - now rewrite (lookup_absent k1 rest Hin).
  - reflexivity.
Qed.

(** What [request] leaves behind. *)
Lemma request_effects (w : io number) (o : request_options)
    (before : world number) :
  (length (Spec.calls_made (request env w o) before) <= 1)%nat
  /\ outbound (snd (request env w o before))
     = (outbound before ++ Spec.calls_made (request env w o) before)%list
  /\ console (snd (request env w o before)) = console before
  /\ collection (snd (request env w o before)) = collection before
  /\ (cachedToken (snd (request env w o before)) = cachedToken before
      \/ cachedToken (snd (request env w o before)) = JNull).
Proof.
  destruct (request_reaches_axios w o before)
    as [(e & E) | (text & control & Ht & Hb & E)].
  - rewrite (Client.calls_made_none _ _ _ E), E. cbn [snd length].
    rewrite app_nil_r. repeat split; auto.
  - rewrite E. rewrite (request_unfolds w o before text control Ht Hb).
    cbv zeta. rewrite settle_world.
    destruct (axios w _) as [status d|message];
      [destruct (status =? 401)%Z|];
      cbn [snd record_call write_token outbound console collection cachedToken length];
      repeat split; auto.
Qed.


(** ** What [handlePikndelResponse] answers *)

Lemma ToString_stringify (d : value) (space : nat) :
  ToString (stringify d space) = Ok (OrderRoutes.printed (stringify d space)).
Proof. unfold stringify. now destruct (JSON_stringify d space). Qed.

Lemma message_text (d fallback : value) :
  printable (get_opt d "Message") = true -> printable fallback = true ->
  exists text,
    (m <- default_to (Ok (get_opt d "Message")) fallback ;; ToString m) = Ok text.
Proof.
  intros P F. rewrite Client.default_to_Ok. cbn [bind]. unfold or_.
  apply printable_ToString.
  now destruct (truthy (get_opt d "Message")).
Qed.

Lemma printable_stringify (d : value) (space : nat) :
  printable (stringify d space) = true.
Proof. unfold printable. now rewrite ToString_stringify. Qed.

(** Any status but 200 is thrown; with a message that can be written, the
    error carries the status and the body. *)
Lemma handlePikndelResponse_throws (status : Z) (d : value) (w : world number) :
  status <> 200%Z ->
  exists e,
    fst (handlePikndelResponse status d w) = Throw e
    /\ (printable (get_opt d "Message") = true ->
        exists message, e = Error message (Some (status, d))).
Proof.
  intros Hs. unfold handlePikndelResponse.
  destruct (Z.eqb_spec status 200) as [|_]; [contradiction|].
  destruct (Z.eqb_spec status 400) as [->|_];
    [|destruct (Z.eqb_spec status 401) as [->|_];
      [|destruct (Z.eqb_spec status 500) as [->|_]]].
  - unfold bindM, lift, throw.
    destruct (m <- default_to (Ok (get_opt d "Message")) (stringify d 0) ;; ToString m)
      as [text|e] eqn:T; cbn [fst].
    + eexists. split; [reflexivity|]. eauto.
    + exists e. split; [reflexivity|]. intros P.
      destruct (message_text d (stringify d 0) P (printable_stringify d 0))
        as (text & Ht). congruence.
  - destruct (Client.handlePikndelResponse_401 d w) as (e & He & U).
    exists e. split; [exact He|]. intros P.
    assert (P' : printable (Spec.unauthorized_message d) = true).
    { unfold Spec.unauthorized_message, or_.
      now destruct (truthy (get_opt d "Message")). }
    destruct (U P') as (text & ->). eauto.
  - unfold bindM, lift, throw.
    destruct (m <- default_to (Ok (get_opt d "Message")) (stringify d 0) ;; ToString m)
      as [text|e] eqn:T; cbn [fst].
    + eexists. split; [reflexivity|]. eauto.
    + exists e. split; [reflexivity|]. intros P.
      destruct (message_text d (stringify d 0) P (printable_stringify d 0))
        as (text & Ht). congruence.
  - unfold bindM, lift, throw. rewrite ToString_stringify. cbn [fst].
    eexists. split; [reflexivity|]. eauto.
Qed.

Lemma handlePikndelResponse_unexpected (status : Z) (d : value) (w : world number) :
  status <> 200%Z -> status <> 400%Z -> status <> 401%Z -> status <> 500%Z ->
  handlePikndelResponse status d w
  = (Throw (Error ("PIKNDEL Unexpected Response (" ++ Z_to_string status
                     ++ "): " ++ OrderRoutes.printed (stringify d 0))
                  (Some (status, d))), w).
Proof.
  intros H2 H4 H41 H5. unfold handlePikndelResponse.
  destruct (Z.eqb_spec status 200); [contradiction|].
  destruct (Z.eqb_spec status 400); [contradiction|].
  destruct (Z.eqb_spec status 401); [contradiction|].
  destruct (Z.eqb_spec status 500); [contradiction|].
  unfold bindM, lift, throw. now rewrite ToString_stringify.
Qed.

(** ** The calls of the three services *)

Lemma calls_made_bind {A B} (m : M number A) (k : A -> M number B)
    (before : world number) :
  (forall a w, outbound (snd (k a w)) = outbound w) ->
  Spec.calls_made (bindM m k) before = Spec.calls_made m before.
Proof.
  intros H. unfold Spec.calls_made, bindM.
  destruct (m before) as [[a|e] w']; cbn [snd]; [|reflexivity].
  now rewrite H.
Qed.

(** [login] either stops before any call or goes through [request]. *)
Lemma login_calls (w : io number) (username password : value)
    (before : world number) :
  let U := fst (Spec.credentials env username password) in
  let P := snd (Spec.credentials env username password) in
  if truthy U && truthy P
  then Spec.calls_made (login env w username password) before
       = Spec.calls_made (request env w (Notions.login_request U P)) before
  else login env w username password before
       = (Throw Notions.MissingCredentials, before).
Proof.
  cbv zeta. unfold Spec.credentials. cbn [fst snd]. unfold login.
  destruct (truthy (or_ username (env_value (PIKNDEL_USERNAME env))));
    [|reflexivity].
  destruct (truthy (or_ password (env_value (PIKNDEL_PASSWORD env))));
    [|reflexivity].
  cbn [negb orb andb].
  apply calls_made_bind. intros response w'.
  match goal with |- context [if negb (truthy ?t) then _ else _] =>
    destruct (truthy t) end; cbn [negb]; [|reflexivity].
  unfold bindM, write_token, lift, console_print, ret.
  match goal with |- context [ToString ?v] => destruct (ToString v) end;
    reflexivity.
Qed.

(** A session that [login] returns holds the token it has cached. *)
Lemma login_caches (w : io number) (username password session : value)
    (before after : world number) :
  login env w username password before = (Ok session, after) ->
  cachedToken after = prop session "token"
  /\ truthy (cachedToken after) = true.
Proof.
  unfold login.
  destruct (negb (truthy (or_ username (env_value (PIKNDEL_USERNAME env))))
            || negb (truthy (or_ password (env_value (PIKNDEL_PASSWORD env)))));
    [discriminate|].
  unfold bindM at 1.
  match goal with |- context [request env w ?o before] =>
    destruct (request env w o before) as [[response|e] w'] end;
    [|discriminate].
  match goal with |- context [if negb (truthy ?t) then _ else _] =>
    destruct (truthy t) eqn:T end; cbn [negb]; [|discriminate].
  unfold bindM, write_token, lift, console_print, ret.
  match goal with |- context [ToString ?v] => destruct (ToString v) end;
    [|discriminate].
  intros H. inversion H. cbn [cachedToken prop lookup String.eqb].
  split; [reflexivity | exact T].
Qed.

(** The session of [login] is made of a token, a user and a name. *)
Lemma login_session (w : io number) (username password session : value)
    (before after : world number) :
  login env w username password before = (Ok session, after) ->
  session = JObj [("token", prop session "token");
                  ("userId", prop session "userId");
                  ("name", prop session "name")].
Proof.
  unfold login.
  destruct (negb (truthy (or_ username (env_value (PIKNDEL_USERNAME env))))
            || negb (truthy (or_ password (env_value (PIKNDEL_PASSWORD env)))));
    [discriminate|].
  unfold bindM at 1.
  match goal with |- context [request env w ?o before] =>
    destruct (request env w o before) as [[response|e] w'] end;
    [|discriminate].
  match goal with |- context [if negb (truthy ?t) then _ else _] =>
    destruct (truthy t) eqn:T end; cbn [negb]; [|discriminate].
  unfold bindM, write_token, lift, console_print, ret.
  match goal with |- context [ToString ?v] => destruct (ToString v) end;
    [|discriminate].
  intros H. inversion H. reflexivity.
Qed.

Lemma placeOrder_calls (w : io number) (payload : value) (before : world number) :
  match placeOrder_body payload with
  | Ok body =>
      placeOrder env w payload before
      = request env w (Notions.order_request body) before
  | Throw e => placeOrder env w payload before = (Throw e, before)
  end.
Proof.
  unfold placeOrder, bindM, lift.
  now destruct (placeOrder_body payload).
Qed.

Lemma version_text (s : string) :
  ToString (Notions.version_or_default (lit s))
  = Ok (num_to_string (Number_string s)) :> res string.
Proof. reflexivity. Qed.

(** ** The base URL *)

Lemma not_slash_ended_empty (t : string) : "" <> t ++ "/".
Proof. destruct t; discriminate. Qed.

Lemma strip_trailing_slash_cases (s : string) :
  strip_trailing_slash s ++ "/" = s
  \/ (strip_trailing_slash s = s /\ forall t, s <> t ++ "/").
Proof.
  induction s as [|c rest IH].
  - right. split; [reflexivity | apply not_slash_ended_empty].
  - destruct rest as [|c' rest'].
    + cbn [strip_trailing_slash].
      destruct (Ascii.eqb_spec c "/"%char) as [->|N].
      * now left.
      * right. split; [reflexivity|]. intros [|a t] H; cbn in H.
        -- congruence.
        -- inversion H as [[Ha Ht]]. exact (not_slash_ended_empty t Ht).
    + change (strip_trailing_slash (String c (String c' rest')))
        with (String c (strip_trailing_slash (String c' rest'))).
      destruct IH as [L | [E R]].
      * left. cbn [String.append]. now rewrite L.
      * right. split; [now rewrite E|]. intros [|a t] H; cbn in H.
        -- discriminate.
        -- inversion H as [[Ha Ht]]. exact (R t Ht).
Qed.

(** ** The claims of this part *)

(** X1. A call that goes out is made with the method of the options, to
    the base URL followed by the path, with a timeout of 15000 ms and JSON
    content headers; it carries [Authorization: Bearer <token>] exactly
    when the options ask for it and a token is cached, and no
    Authorization header otherwise. *)
Theorem request_call_shape (w : io number) (o : request_options)
    (before : world number) (c : axios_config number) :
  Spec.calls_made (request env w o) before = [c] ->
  method c = opt_method o
  /\ url c = BASE_URL env ++ opt_path o
  /\ timeout c = 15000%Z
  /\ header "Content-Type" (headers c) = JStr (number := number) "application/json"
  /\ header "Accept" (headers c) = JStr (number := number) "application/json"
  /\ if opt_auth o && truthy (cachedToken before)
     then exists text,
            ToString (cachedToken before) = Ok text
            /\ header "Authorization" (headers c)
               = JStr (number := number) ("Bearer " ++ text)
     else header "Authorization" (headers c) = JUndefined (number := number).
Proof.
  intros Hc.
  destruct (request_reaches_axios w o before)
    as [(e & E) | (text & control & Ht & _ & E)].
  { rewrite (Client.calls_made_none _ _ _ E) in Hc. discriminate. }
  rewrite E in Hc. inversion Hc; subst c; clear Hc.
  unfold Notions.configuration, Notions.authorization.
  cbn [method url timeout headers].
  repeat (split; [reflexivity|]).
  destruct (opt_auth o && truthy (cachedToken before)).
  - exists text. split; [now apply Ht | reflexivity].
  - reflexivity.
Qed.

(** X2. With [wrapInData], the body of a call that goes out holds the
    envelope under Control (the request identifier, the source, the time
    of the call and the version written as text, 1 when none is given)
    and the data of the options, untouched, under Data. *)
Theorem request_wraps_data (w : io number) (o : request_options)
    (before : world number) (c : axios_config number) :
  Spec.calls_made (request env w o) before = [c] ->
  opt_wrapInData o = true ->
  exists version,
    ToString (Notions.version_or_default (opt_version o)) = Ok version
    /\ data c = JObj [("Control",
                       JObj [("RequestId", JStr (uuidv4 w));
                             ("Source", Notions.source env);
                             ("RequestTime", JNum (unix_seconds w));
                             ("Version", JStr version)]);
                      ("Data", opt_data o)].
Proof.
  intros Hc Hw.
  destruct (request_sent w o before c Hc) as (_ & text & control & -> & _ & Hb).
  destruct (buildControl_envelope _ _ _ Hb) as (version & Hv & ->).
  exists version. split; [exact Hv|].
  unfold Notions.configuration, Notions.enveloped. cbn [data].
  now rewrite Hw.
Qed.

(** X3. Without [wrapInData], the fields of the data are spread at the
    top level of the body beside Control: every key of the data reads as
    in the data (a Control key of the data hides the envelope), Control
    reads as the envelope otherwise, and no other key is there. *)
Theorem request_spreads_data (w : io number) (o : request_options)
    (before : world number) (c : axios_config number)
    (props : list (string * value)) :
  Spec.calls_made (request env w o) before = [c] ->
  opt_wrapInData o = false ->
  opt_data o = JObj props ->
  Notions.distinct_keys props ->
  exists version,
    ToString (Notions.version_or_default (opt_version o)) = Ok version
    /\ forall k,
         prop (data c) k
         = if has_own k props then prop (JObj props) k
           else if k =? "Control" then Notions.envelope env w version
           else JUndefined.
Proof.
  intros Hc Hw Hd Hn.
  destruct (request_sent w o before c Hc) as (_ & text & control & -> & _ & Hb).
  destruct (buildControl_envelope _ _ _ Hb) as (version & Hv & ->).
  exists version. split; [exact Hv|]. intros k.
  unfold Notions.configuration, Notions.enveloped. cbn [data].
  rewrite Hw, Hd. unfold spread. cbn [own_enumerable prop].
  rewrite (lookup_spread k props _ Hn). unfold has_own.
  destruct (lookup k props); [reflexivity|].
  cbn [lookup]. now destruct (k =? "Control").
Qed.

(** X4. [request] returns a value exactly when one call went out and the
    provider answered it with status 200; the value is the body of the
    answer as it came, and nothing but the list of calls has changed. *)
Theorem request_returns_body_of_200 (w : io number) (o : request_options)
    (before after : world number) (v : value) :
  request env w o before = (Ok v, after)
  <-> exists c,
        Spec.calls_made (request env w o) before = [c]
        /\ axios w c = Responded 200 v
        /\ after = snd (record_call c before).
Proof.
  split.
  - intros H.
    destruct (request_reaches_axios w o before)
      as [(e & E) | (text & control & Ht & Hb & Hc)]; [congruence|].
    eexists. split; [exact Hc|].
    rewrite (request_unfolds w o before text control Ht Hb) in H.
    cbv zeta in H. unfold Notions.settle in H.
    destruct (axios w _) as [status d|message]; [|discriminate].
    destruct (Z.eq_dec status 200) as [->|Hs].
    + cbn in H. inversion H. auto.
    + exfalso.
      destruct (handlePikndelResponse_throws status d
                  (snd (record_call
                          (Notions.configuration env o (cachedToken before)
                             text control) before)) Hs) as (e & He & _).
      destruct (validateStatus status).
      * unfold try_catch, throw in H.
        destruct (handlePikndelResponse status d _) as [[x|x] w'];
          cbn [fst] in He; congruence.
      * destruct (handlePikndelResponse status d _) as [r w'];
          cbn [fst] in He; congruence.
  - intros (c & Hc & Ha & ->).
    destruct (request_sent w o before c Hc) as (-> & _).
    unfold Notions.settle. now rewrite Ha.
Qed.

(** X5. An answer with a status outside 2xx makes [request] throw; when
    the Message of the answer can be written as text, the error carries
    that status and the body of the answer as it came. *)
Theorem request_provider_error (w : io number) (o : request_options)
    (before : world number) (c : axios_config number) (status : Z) (d : value) :
  Spec.calls_made (request env w o) before = [c] ->
  axios w c = Responded status d ->
  validateStatus status = false ->
  exists e,
    fst (request env w o before) = Throw e
    /\ (printable (get_opt d "Message") = true ->
        exists message, e = Error message (Some (status, d))).
Proof.
  intros Hc Ha Hv.
  destruct (request_sent w o before c Hc) as (-> & _).
  unfold Notions.settle. rewrite Ha, Hv.
  apply handlePikndelResponse_throws.
  intros ->. discriminate.
Qed.

(** X6. When the call fails without an answer (no connection, timeout),
    [request] throws a plain error naming the path and the reason; it
    carries no status. *)
Theorem request_network_failure (w : io number) (o : request_options)
    (before : world number) (c : axios_config number) (reason : string) :
  Spec.calls_made (request env w o) before = [c] ->
  axios w c = Failed reason ->
  request env w o before
  = (Throw (Error ("Network error calling PIKNDEL [" ++ opt_path o ++ "]: "
                     ++ reason) None),
     snd (record_call c before)).
Proof.
  intros Hc Ha.
  destruct (request_sent w o before c Hc) as (-> & _).
  unfold Notions.settle. now rewrite Ha.
Qed.

(** X7. A 2xx answer other than 200 is not returned: the error raised for
    the unexpected status is caught by [request] itself and thrown again
    as a network error, which keeps the text but neither the status nor
    the body. *)
Theorem request_other_2xx_is_network_error (w : io number) (o : request_options)
    (before : world number) (c : axios_config number) (status : Z) (d : value) :
  Spec.calls_made (request env w o) before = [c] ->
  axios w c = Responded status d ->
  validateStatus status = true ->
  status <> 200%Z ->
  request env w o before
  = (Throw (network_error (opt_path o)
              ("PIKNDEL Unexpected Response (" ++ Z_to_string status ++ "): "
                 ++ OrderRoutes.printed (stringify d 0))),
     snd (record_call c before)).
Proof.
  intros Hc Ha Hv Hs.
  destruct (request_sent w o before c Hc) as (-> & _).
  unfold Notions.settle. rewrite Ha, Hv.
  unfold validateStatus in Hv.
  apply andb_true_iff in Hv. destruct Hv as [Hl Hu].
  apply Z.leb_le in Hl. apply Z.ltb_lt in Hu.
  unfold try_catch.
  rewrite handlePikndelResponse_unexpected by lia.
  reflexivity.
Qed.

(** X8. [request] makes at most one call and never a second try; it
    leaves the console and the collection alone, and the cached token is
    either kept or cleared. *)
Theorem request_frame (w : io number) (o : request_options)
    (before : world number) :
  let after := snd (request env w o before) in
  (length (Spec.calls_made (request env w o) before) <= 1)%nat
  /\ outbound after
     = (outbound before ++ Spec.calls_made (request env w o) before)%list
  /\ console after = console before
  /\ collection after = collection before
  /\ (cachedToken after = cachedToken before \/ cachedToken after = JNull).
Proof.
  cbv zeta. apply request_effects.
Qed.

(** X9. A status query reaches the provider only for an AWBNo that is
    given: the one call is a POST to the status path of the provider with
    [{ AWBNo }] under Data and version 1 in the envelope. *)
Theorem getOrderStatus_call (w : io number) (AWBNo : value)
    (before : world number) (c : axios_config number) :
  Spec.calls_made (getOrderStatus env w AWBNo) before = [c] ->
  truthy AWBNo = true
  /\ method c = "post"
  /\ url c = BASE_URL env ++ "/backoffice/api/pikndel/order/get_status"
  /\ data c = JObj [("Control",
                     Notions.envelope env w (num_to_string (Number_string "1")));
                    ("Data", JObj [("AWBNo", AWBNo)])].
Proof.
  unfold getOrderStatus. destruct (truthy AWBNo); cbn [negb].
  - intros Hc.
    destruct (request_sent w _ before c Hc) as (_ & text & control & -> & _ & Hb).
    destruct (buildControl_envelope _ _ _ Hb) as (version & Hv & ->).
    cbn [opt_version] in Hv. rewrite version_text in Hv.
    inversion Hv. repeat split; reflexivity.
  - intros Hc. unfold Spec.calls_made, throw in Hc. cbn [snd] in Hc.
    rewrite skipn_all in Hc. discriminate.
Qed.

(** X10. [login] reaches the provider only with both credentials, each
    the argument or else the configured one: the one call is a POST to
    the login path with Username, Password and the grant type
    [password] under Data, version 1.3, and no Authorization header even
    when a token is cached. *)
Theorem login_call (w : io number) (username password : value)
    (before : world number) (c : axios_config number) :
  Spec.calls_made (login env w username password) before = [c] ->
  let U := fst (Spec.credentials env username password) in
  let P := snd (Spec.credentials env username password) in
  truthy U = true /\ truthy P = true
  /\ method c = "post"
  /\ url c = BASE_URL env ++ "/backoffice/api/account/login"
  /\ data c = JObj [("Control",
                     Notions.envelope env w (num_to_string (Number_string "1.3")));
                    ("Data", JObj [("Username", U); ("Password", P);
                                   ("GrantType", JStr "password")])]
  /\ header "Authorization" (headers c) = JUndefined (number := number).
Proof.
  intros Hc. pose proof (login_calls w username password before) as L.
  cbv zeta in *.
  destruct (truthy (fst (Spec.credentials env username password))).
  2:{ rewrite (Client.calls_made_none _ _ _ L) in Hc. discriminate. }
  destruct (truthy (snd (Spec.credentials env username password))).
  2:{ rewrite (Client.calls_made_none _ _ _ L) in Hc. discriminate. }
  cbn [andb] in L. rewrite L in Hc.
  destruct (request_sent w _ before c Hc) as (_ & text & control & -> & _ & Hb).
  destruct (buildControl_envelope _ _ _ Hb) as (version & Hv & ->).
  cbn [opt_version Notions.login_request] in Hv. rewrite version_text in Hv.
  inversion Hv. repeat split; reflexivity.
Qed.

(** X11. After a login that returned a session, the next call that asks
    for authorization carries [Bearer] followed by the token of that
    session. *)
Theorem login_authorizes_next_call
    (w : io number) (username password session : value)
    (before after : world number)
    (w' : io number) (o : request_options) (c : axios_config number) :
  login env w username password before = (Ok session, after) ->
  opt_auth o = true ->
  Spec.calls_made (request env w' o) after = [c] ->
  exists text,
    ToString (prop session "token") = Ok text
    /\ header "Authorization" (headers c)
       = JStr (number := number) ("Bearer " ++ text).
Proof.
  intros Hl Ha Hc.
  destruct (login_caches _ _ _ _ _ _ Hl) as (Ht & Hy).
  destruct (request_sent w' o after c Hc) as (_ & text & control & -> & Hs & _).
  rewrite Ha, Hy in Hs. specialize (Hs eq_refl).
  exists text. split; [congruence|].
  unfold Notions.configuration, Notions.authorization. cbn [headers].
  now rewrite Ha, Hy.
Qed.

(** X12. None of the three services tries twice: [login], [placeOrder]
    and [getOrderStatus] each hand at most one call to axios, whatever
    the provider answers. *)
Theorem services_call_at_most_once (w : io number) (before : world number) :
  (forall username password,
     length (Spec.calls_made (login env w username password) before) <= 1)%nat
  /\ (forall payload,
        length (Spec.calls_made (placeOrder env w payload) before) <= 1)%nat
  /\ (forall AWBNo,
        length (Spec.calls_made (getOrderStatus env w AWBNo) before) <= 1)%nat.
Proof.
  split; [|split].
  - intros username password.
    pose proof (login_calls w username password before) as L. cbv zeta in L.
    destruct (truthy _ && truthy _).
    + rewrite L. apply request_effects.
    + rewrite (Client.calls_made_none _ _ _ L). cbn. lia.
  - intros payload. pose proof (placeOrder_calls w payload before) as L.
    destruct (placeOrder_body payload) as [body|e].
    + unfold Spec.calls_made in *. rewrite L. apply request_effects.
    + rewrite (Client.calls_made_none _ _ _ L). cbn. lia.
  - intros AWBNo. unfold getOrderStatus.
    destruct (truthy AWBNo); cbn [negb].
    + apply request_effects.
    + unfold Spec.calls_made, throw. cbn [snd]. rewrite skipn_all. cbn. lia.
Qed.

(** X13. What reaches the provider from [placeOrder] is the body it has
    built from a payload that passed validation, under Data, with
    version 3.2 in the envelope; a payload whose body cannot be built
    never reaches the network. *)
Theorem placeOrder_call (w : io number) (payload : value)
    (before : world number) (c : axios_config number) :
  Spec.calls_made (placeOrder env w payload) before = [c] ->
  validate payload = Ok tt
  /\ exists body,
       placeOrder_body payload = Ok body
       /\ url c = BASE_URL env ++ "/backoffice/api/pikndel/place_order"
       /\ data c = JObj [("Control",
                          Notions.envelope env w
                            (num_to_string (Number_string "3.2")));
                         ("Data", body)].
Proof.
  intros Hc. pose proof (placeOrder_calls w payload before) as L.
  destruct (placeOrder_body payload) as [body|e] eqn:B.
  2:{ rewrite (Client.calls_made_none _ _ _ L) in Hc. discriminate. }
  split.
  - unfold placeOrder_body in B.
    destruct (validate payload) as [[]|e]; [reflexivity|discriminate].
  - exists body. split; [reflexivity|].
    unfold Spec.calls_made in Hc. rewrite L in Hc.
    destruct (request_sent w _ before c Hc) as (_ & text & control & -> & _ & Hb).
    destruct (buildControl_envelope _ _ _ Hb) as (version & Hv & ->).
    cbn [opt_version Notions.order_request] in Hv. rewrite version_text in Hv.
    inversion Hv. split; reflexivity.
Qed.

(** X14. The base URL is the configured one with one trailing slash
    dropped, if it ends in one, and nothing else changed. *)
Theorem BASE_URL_drops_one_slash (s : string) :
  PIKNDEL_BASE_URL env = Some s ->
  s <> "" ->
  BASE_URL env ++ "/" = s
  \/ (BASE_URL env = s /\ forall t, s <> t ++ "/").
Proof.
  intros H N. unfold BASE_URL. rewrite H.
  destruct (String.eqb_spec s ""); [contradiction|].
  apply strip_trailing_slash_cases.
Qed.

End Requests.
(** ** The claims of this part on sample calls *)

Import DecimalRuntime Samples.

(** The status query for "PKD1" while the token "abc" is cached. *)
Lemma request_call_shape_witness :
  let o := Notions.status_request (JStr "PKD1") in
  let w := answering 200 (JObj [("Status", JStr "DLD")]) in
  exists c,
    Spec.calls_made (request production w o) logged_in = [c]
    /\ url c = "https://api.pikndel.com/backoffice/api/pikndel/order/get_status"
    /\ timeout c = 15000%Z
    /\ header (number := decimal) "Authorization" (headers c) = JStr "Bearer abc".
Proof.
  intros o w. eexists.
  assert (H : Spec.calls_made (request production w o) logged_in = [_])
    by (vm_compute; reflexivity).
  split; [exact H|].
  destruct (request_call_shape production w o logged_in _ H)
    as (_ & U & T & _ & _ & A).
  split; [exact U|]. split; [exact T|]. reflexivity.
Defined.

Lemma request_wraps_data_witness :
  let o := Notions.status_request (JStr "PKD1") in
  let w := answering 200 (JObj [("Status", JStr "DLD")]) in
  exists c,
    Spec.calls_made (request production w o) logged_in = [c]
    /\ data c
       = JObj [("Control",
                JObj [("RequestId", JStr "0b0e7c7e-2f3a-4c3e-9a55-1f0f5d6c7a10");
                      ("Source", lit "3");
                      ("RequestTime", lit "1652350911");
                      ("Version", JStr "1")]);
               ("Data", JObj [("AWBNo", JStr "PKD1")])].
Proof.
  intros o w. eexists.
  assert (H : Spec.calls_made (request production w o) logged_in = [_])
    by (vm_compute; reflexivity).
  split; [exact H|].
  destruct (request_wraps_data production w o logged_in _ H eq_refl)
    as (version & V & D).
  vm_compute in V. inversion V as [E]. rewrite <- E in D. exact D.
Defined.

(** A flat body whose data bring a Control of their own. *)
Lemma request_spreads_data_witness :
  let props := [("AWBNo", JStr "PKD1"); ("Control", JStr "mine")] in
  let o := {| opt_method := "post"; opt_path := "/flat";
              opt_data := JObj props; opt_version := JUndefined;
              opt_auth := false; opt_wrapInData := false |} in
  let w := answering 200 (JObj []) in
  exists c,
    Spec.calls_made (request development w o) fresh = [c]
    /\ prop (data c) "AWBNo" = JStr (number := decimal) "PKD1"
    /\ prop (data c) "Control" = JStr (number := decimal) "mine"
    /\ prop (data c) "Data" = JUndefined (number := decimal).
Proof.
  intros props o w. eexists.
  assert (H : Spec.calls_made (request development w o) fresh = [_])
    by (vm_compute; reflexivity).
  assert (N : Notions.distinct_keys props).
  { unfold Notions.distinct_keys. cbn.
    repeat constructor; cbn; intuition discriminate. }
  split; [exact H|].
  destruct (request_spreads_data development w o fresh _ props H eq_refl eq_refl N)
    as (version & _ & P).
  split; [exact (P "AWBNo")|]. split; [exact (P "Control")|]. exact (P "Data").
Defined.

(** An unknown AWBNo, answered 400. *)
Lemma request_provider_error_witness :
  let o := Notions.status_request (JStr "PKD1") in
  let d := JObj [("Message", JStr "Unknown AWBNo")] in
  let w := answering 400 d in
  exists message,
    fst (request production w o logged_in)
    = Throw (Error message (Some (400%Z, d))).
Proof.
  intros o d w.
  assert (H : Spec.calls_made (request production w o) logged_in = [_])
    by (vm_compute; reflexivity).
  destruct (request_provider_error production w o logged_in _ 400%Z d
              H eq_refl eq_refl) as (e & E & M).
  destruct (M eq_refl) as (message & ->).
  now exists message.
Defined.

Lemma request_network_failure_witness :
  let o := Notions.status_request (JStr "PKD1") in
  let w := Notions.unanswered "timeout of 15000ms exceeded" in
  fst (request production w o logged_in)
  = Throw (Error "Network error calling PIKNDEL [/backoffice/api/pikndel/order/get_status]: timeout of 15000ms exceeded" None).
Proof.
  intros o w.
  assert (H : Spec.calls_made (request production w o) logged_in = [_])
    by (vm_compute; reflexivity).
  now rewrite (request_network_failure production w o logged_in _
                 "timeout of 15000ms exceeded" H eq_refl).
Defined.

(** A query answered 201 with an empty object. *)
Lemma request_other_2xx_is_network_error_witness :
  let o := Notions.status_request (JStr "PKD1") in
  let w := answering 201 (JObj []) in
  fst (request production w o logged_in)
  = Throw (Error "Network error calling PIKNDEL [/backoffice/api/pikndel/order/get_status]: PIKNDEL Unexpected Response (201): {}" None).
Proof.
  intros o w.
  assert (H : Spec.calls_made (request production w o) logged_in = [_])
    by (vm_compute; reflexivity).
  rewrite (request_other_2xx_is_network_error production w o logged_in _
             201%Z (JObj []) H eq_refl eq_refl);
    [reflexivity | discriminate].
Defined.

Lemma getOrderStatus_call_witness :
  let w := answering 200 (JObj [("Status", JStr "DLD")]) in
  exists c,
    Spec.calls_made (getOrderStatus production w (JStr "PKD1")) fresh = [c]
    /\ url c = "https://api.pikndel.com/backoffice/api/pikndel/order/get_status"
    /\ prop (data c) "Data" = JObj (number := decimal) [("AWBNo", JStr "PKD1")].
Proof.
  intros w. eexists.
  assert (H : Spec.calls_made (getOrderStatus production w (JStr "PKD1")) fresh
              = [_]) by (vm_compute; reflexivity).
  split; [exact H|].
  destruct (getOrderStatus_call production w (JStr "PKD1") fresh _ H)
    as (_ & _ & U & D).
  split; [exact U|]. now rewrite D.
Defined.

(** A login with the configured credentials while the token "abc" is
    still cached. *)
Lemma login_call_witness :
  let w := answering 200 (JObj [("Token", JStr "jwt")]) in
  exists c,
    Spec.calls_made (login production w JUndefined JUndefined) logged_in = [c]
    /\ prop (data c) "Data"
       = JObj (number := decimal)
           [("Username", JStr "integration"); ("Password", JStr "secret");
            ("GrantType", JStr "password")]
    /\ header (number := decimal) "Authorization" (headers c) = JUndefined.
Proof.
  intros w. eexists.
  assert (H : Spec.calls_made (login production w JUndefined JUndefined) logged_in
              = [_]) by (vm_compute; reflexivity).
  split; [exact H|].
  destruct (login_call production w JUndefined JUndefined logged_in _ H)
    as (_ & _ & _ & _ & D & A).
  split; [now rewrite D | exact A].
Defined.

(** A login answered with the token "jwt", then a status query. *)
Lemma login_authorizes_next_call_witness :
  let response := JObj [("Data", JObj [("Token", JStr "jwt")])] in
  let w := answering 200 response in
  let o := Notions.status_request (JStr "PKD1") in
  let after := snd (login production w JUndefined JUndefined fresh) in
  exists c,
    Spec.calls_made (request production w o) after = [c]
    /\ header (number := decimal) "Authorization" (headers c) = JStr "Bearer jwt".
Proof.
  intros response w o after. eexists.
  assert (L : login production w JUndefined JUndefined fresh
              = (Ok (Spec.login_result response (JStr "jwt")), after))
    by (vm_compute; reflexivity).
  assert (H : Spec.calls_made (request production w o) after = [_])
    by (vm_compute; reflexivity).
  split; [exact H|].
  destruct (login_authorizes_next_call production w JUndefined JUndefined
              _ fresh after w o _ L eq_refl H) as (text & T & A).
  vm_compute in T. inversion T as [E]. rewrite <- E in A. exact A.
Defined.

Lemma placeOrder_call_witness :
  let w := answering 200 (JObj [("AWBNo", JStr "PKD1")]) in
  exists c body,
    Spec.calls_made (placeOrder production w complete_order) logged_in = [c]
    /\ placeOrder_body complete_order = Ok body
    /\ url c = "https://api.pikndel.com/backoffice/api/pikndel/place_order"
    /\ prop (data c) "Data" = body.
Proof.
  intros w. eexists.
  assert (H : Spec.calls_made (placeOrder production w complete_order) logged_in
              = [_]) by (vm_compute; reflexivity).
  destruct (placeOrder_call production w complete_order logged_in _ H)
    as (_ & body & B & U & D).
  exists body. split; [exact H|]. split; [exact B|]. split; [exact U|].
  now rewrite D.
Defined.

Lemma BASE_URL_drops_one_slash_witness :
  BASE_URL production ++ "/" = "https://api.pikndel.com/".
Proof.
  destruct (BASE_URL_drops_one_slash production "https://api.pikndel.com/"
              eq_refl) as [L | [_ R]].
  - discriminate.
  - exact L.
  - exfalso. exact (R "https://api.pikndel.com" eq_refl).
Defined.

End Requests.

(* ================================================================== *)
(** * More on the body of an order                                     *)
(* ================================================================== *)

Module OrderBody.

Import PikndelService Facts.

Section OrderBody.
Context {number : Type} {RT : Runtime number}.

Local Abbreviation value := (jsval number).
Local Abbreviation res := (result number).

(** One field of an object literal, read back. *)
Ltac defaulted_field Hprops :=
  cbn [fst snd];
  match goal with
  | |- prop _ ?k = _ =>
      let H := fresh in
      pose proof (object_prop _ _ k _ Hprops eq_refl) as H;
      apply default_to_get in H as [_ H]; exact H
  end.

Ltac copied_field Hprops :=
  match goal with
  | |- prop _ ?k = _ =>
      let H := fresh in
      pose proof (object_prop _ _ k _ Hprops eq_refl) as H;
      apply get_Ok in H as [_ H]; exact H
  end.

Ltac fallback_field Hprops :=
  cbn [fst snd];
  match goal with
  | |- prop _ ?k = or_ (prop ?input _) _ =>
      let H := fresh in
      let x := fresh in
      let Hx := fresh in
      pose proof (object_prop _ _ k _ Hprops eq_refl) as H;
      apply or_else_Ok in H as (x & Hx & H);
      apply get_Ok in Hx as [_ ->];
      unfold or_;
      destruct (truthy (prop input k)); [exact H|];
      apply get_Ok in H as [_ H]; exact H
  end.

Ltac each := repeat (apply Forall_cons; [|]); [..|apply Forall_nil].

Lemma String_Ok (v out : value) :
  String_ v = Ok out -> exists text, ToString v = Ok text /\ out = JStr text.
Proof.
  unfold String_. intros H. apply bind_Ok in H as (text & Ht & H).
  inversion H. eauto.
Qed.

Lemma build_pickup_party (Pickup out : value) :
  build_pickup Pickup = Ok out -> Notions.party_built Pickup out.
Proof.
  unfold build_pickup. intros H.
  apply bind_Ok in H as (props & Hprops & H). inversion H; subst; clear H.
  split; [|split].
  - unfold Notions.copied, Notions.party_required. each; copied_field Hprops.
  - unfold Notions.defaulted, Notions.party_defaults.
    each; defaulted_field Hprops.
  - pose proof (object_prop _ _ "UniqueNo" _ Hprops eq_refl) as H.
    now apply default_to_get in H as [_ H].
Qed.

Lemma build_delivery_party (Delivery out : value) :
  build_delivery Delivery = Ok out -> Notions.party_built Delivery out.
Proof.
  unfold build_delivery. intros H.
  apply bind_Ok in H as (props & Hprops & H). inversion H; subst; clear H.
  split; [|split].
  - unfold Notions.copied, Notions.party_required. each; copied_field Hprops.
  - unfold Notions.defaulted, Notions.party_defaults.
    each; defaulted_field Hprops.
  - pose proof (object_prop _ _ "UniqueNo" _ Hprops eq_refl) as H.
    now apply default_to_get in H as [_ H].
Qed.

Lemma build_pickup_return (Pickup out : value) :
  build_pickup Pickup = Ok out ->
  Notions.falling_back Notions.return_fallbacks Pickup out
  /\ Notions.defaulted [("PickupDate", JStr ""); ("PickupSlot", JStr "")]
                       Pickup out.
Proof.
  unfold build_pickup. intros H.
  apply bind_Ok in H as (props & Hprops & H). inversion H; subst; clear H.
  split.
  - unfold Notions.falling_back, Notions.return_fallbacks.
    each; fallback_field Hprops.
  - unfold Notions.defaulted. each; defaulted_field Hprops.
Qed.

Lemma build_item_built (item out : value) :
  build_item item = Ok out -> Notions.item_built item out.
Proof.
  unfold build_item. intros H.
  apply bind_Ok in H as (props & Hprops & H). inversion H; subst; clear H.
  split.
  - unfold Notions.copied. each; copied_field Hprops.
  - unfold Notions.defaulted, Notions.item_defaults.
    each; defaulted_field Hprops.
Qed.

Lemma build_detail_built (od d : value) :
  build_detail od = Ok d ->
  Notions.detail_built od d
  /\ exists entry, prop d "Info" = JArr [JObj entry].
Proof.
  unfold build_detail. intros H.
  apply bind_Ok in H as (info & Hinfo & H).
  apply bind_Ok in H as (props & Hprops & H). inversion H; subst; clear H.
  split; [split; [|split]|].
  - copied_field Hprops.
  - pose proof (object_prop _ _ "TotalActualWeight" _ Hprops eq_refl) as H.
    apply bind_Ok in H as (x & Hx & H). apply get_Ok in Hx as [_ ->].
    apply String_Ok in H as (text & Ht & H). now exists text.
  - unfold Notions.defaulted, Notions.detail_defaults.
    each; defaulted_field Hprops.
  - pose proof (object_prop _ _ "Info" _ Hprops eq_refl) as H.
    apply bind_Ok in H as (entry & _ & H). inversion H as [E].
    now exists entry.
Qed.

(** X15. The body keeps the shape of the payload: UserId written as
    text, as many detail blocks as the payload, as many items in each as
    the first Info entry of the payload's block, and exactly one Info
    entry per block, whatever further entries the payload brings. *)
Theorem placeOrder_body_shape (payload body : value) :
  placeOrder_body payload = Ok body ->
  Notions.written_as_text "UserId" payload body
  /\ length (Spec.detail_blocks body) = length (Spec.detail_blocks payload)
  /\ Forall (fun d => length (elements (prop d "Info")) = 1%nat)
            (Spec.detail_blocks body)
  /\ Forall2 (fun od d =>
                length (Spec.items_built d) = length (Spec.items_in od))
             (Spec.detail_blocks payload) (Spec.detail_blocks body).
Proof.
  intros H. pose proof (PlaceOrder.placeOrder_body_details _ _ H) as D.
  split; [|split; [|split]].
  - unfold placeOrder_body in H.
    apply bind_Ok in H as (_ & _ & H).
    apply bind_Ok in H as (props & Hprops & H). inversion H; subst; clear H.
    pose proof (object_prop _ _ "UserId" _ Hprops eq_refl) as U.
    apply String_Ok in U as (text & Ht & U). now exists text.
  - symmetry. exact (Forall2_length D).
  - clear H. induction D as [|od d ods ds Hd _ IH]; constructor; [|exact IH].
    apply build_detail_built in Hd as (_ & entry & ->). reflexivity.
  - eapply Forall2_impl; [|exact D].
    intros od d Hd.
    apply PlaceOrder.build_detail_Ok in Hd as (_ & _ & Hitems & _).
    symmetry. exact (Forall2_length Hitems).
Qed.

(** X16. In every detail block of the body, ClientUniqueNo is the one of
    the payload, TotalActualWeight is the payload's written as text, and
    the optional fields that are missing (or falsy) get their stand-ins:
    VehicleType "Bike", OrderType "B2C", InvoiceValue "0.00", the empty
    text for PreAWBNo, BrandName, InvoiceNo, InvoiceUrl and EWAYBillNo. *)
Theorem placeOrder_detail_fields (payload body : value) :
  placeOrder_body payload = Ok body ->
  Forall2 Notions.detail_built
          (Spec.detail_blocks payload) (Spec.detail_blocks body).
Proof.
  intros H. apply PlaceOrder.placeOrder_body_details in H.
  eapply Forall2_impl; [|exact H].
  intros od d Hd. now apply build_detail_built in Hd.
Qed.

(** X17. Pickup and Delivery of every block are built alike: PersonName,
    Mobile, Address and Pincode are copied as they are, UniqueNo is the
    Mobile (the empty text without one), AddressType stands at "Home"
    and HouseNo, Landmark, Lat, Lng and Comment at the empty text when
    missing. *)
Theorem placeOrder_party_fields (payload body : value) :
  placeOrder_body payload = Ok body ->
  Forall2 Notions.parties_built
          (Spec.detail_blocks payload) (Spec.detail_blocks body).
Proof.
  intros H. apply PlaceOrder.placeOrder_body_details in H.
  eapply Forall2_impl; [|exact H].
  intros od d Hd.
  apply PlaceOrder.build_detail_Ok in Hd as (_ & Hpk & _ & Hdl).
  split; [now apply build_pickup_party | now apply build_delivery_party].
Qed.

(** X18. The return address of every Pickup falls back on the Pickup
    itself: RTOName, RTOMobile, RTOAddr and RTOPincode, when missing,
    are PersonName, Mobile, Address and Pincode; PickupDate and
    PickupSlot stand at the empty text. *)
Theorem placeOrder_return_address (payload body : value) :
  placeOrder_body payload = Ok body ->
  Forall2 Notions.return_address_built
          (Spec.detail_blocks payload) (Spec.detail_blocks body).
Proof.
  intros H. apply PlaceOrder.placeOrder_body_details in H.
  eapply Forall2_impl; [|exact H].
  intros od d Hd.
  apply PlaceOrder.build_detail_Ok in Hd as (_ & Hpk & _ & _).
  now apply build_pickup_return.
Qed.

(** X19. Every item of the body has Qty and Cost as the payload gives
    them (absent ones stay absent) and, where the payload has nothing,
    Type "Goods", Name null, Length, Width and Height 0 and
    ActualWeight 1. *)
Theorem placeOrder_item_fields (payload body : value) :
  placeOrder_body payload = Ok body ->
  Spec.for_every_item Notions.item_built payload body.
Proof.
  intros H. apply PlaceOrder.placeOrder_body_details in H.
  eapply Forall2_impl; [|exact H].
  intros od d Hd.
  apply PlaceOrder.build_detail_Ok in Hd as (_ & _ & Hitems & _).
  eapply Forall2_impl; [|exact Hitems].
  intros item out Hi. now apply build_item_built.
Qed.

End OrderBody.

(** ** The claims of this part on sample orders *)

Import DecimalRuntime Samples.

(** Two Info entries come in, one goes out, with the two items of the
    first. *)
Lemma placeOrder_body_shape_witness :
  exists body : jsval decimal,
    placeOrder_body Notions.order_with_two_info_entries = Ok body
    /\ prop body "UserId" = JStr "7034"
    /\ Forall (fun d => length (elements (prop d "Info")) = 1%nat)
              (Spec.detail_blocks body)
    /\ map (fun d => length (Spec.items_built d)) (Spec.detail_blocks body)
       = [2%nat].
Proof.
  eexists.
  assert (H : placeOrder_body Notions.order_with_two_info_entries = Ok _)
    by (vm_compute; reflexivity).
  split; [exact H|].
  destruct (placeOrder_body_shape _ _ H) as ((text & T & U) & _ & I & N).
  split; [reflexivity|]. split; [exact I|]. reflexivity.
Defined.

Lemma placeOrder_detail_fields_witness :
  exists body : jsval decimal,
    placeOrder_body complete_order = Ok body
    /\ Forall2 Notions.detail_built
         (Spec.detail_blocks complete_order) (Spec.detail_blocks body).
Proof.
  eexists. split; [vm_compute; reflexivity|].
  apply placeOrder_detail_fields. vm_compute. reflexivity.
Defined.

Lemma placeOrder_party_fields_witness :
  exists body : jsval decimal,
    placeOrder_body complete_order = Ok body
    /\ Forall2 Notions.parties_built
         (Spec.detail_blocks complete_order) (Spec.detail_blocks body).
Proof.
  eexists. split; [vm_compute; reflexivity|].
  apply placeOrder_party_fields. vm_compute. reflexivity.
Defined.

Lemma placeOrder_return_address_witness :
  exists body : jsval decimal,
    placeOrder_body complete_order = Ok body
    /\ Forall2 Notions.return_address_built
         (Spec.detail_blocks complete_order) (Spec.detail_blocks body).
Proof.
  eexists. split; [vm_compute; reflexivity|].
  apply placeOrder_return_address. vm_compute. reflexivity.
Defined.

Lemma placeOrder_item_fields_witness :
  exists body : jsval decimal,
    placeOrder_body complete_order = Ok body
    /\ Spec.for_every_item Notions.item_built complete_order body.
Proof.
  eexists. split; [vm_compute; reflexivity|].
  apply placeOrder_item_fields. vm_compute. reflexivity.
Defined.

End OrderBody.

(* ================================================================== *)
(** * The routes of the client                                         *)
(* ================================================================== *)

Module Routes.

Import PikndelService OrderRoutes Facts.

Section Routes.
Context {number : Type} {RT : Runtime number}.
Variable env : environment.

Local Abbreviation value := (jsval number).
Local Abbreviation res := (result number).

(** ** The wrapper of the routes *)

Lemma route_cases (label : string) (m : M number (response number))
    (w : world number) :
  Notions.route label m w
  = match m w with
    | (Ok r, w') => (Ok r, w')
    | (Throw e, w') =>
        (Ok (sendError e),
         snd (console_print error (label ++ " " ++ message_of e) w'))
    end.
Proof.
  unfold Notions.route, try_catch.
  destruct (m w) as [[r|e] w']; reflexivity.
Qed.

Lemma post_place_route (w : io number) (req : request number) :
  post_place env w req
  = Notions.route "[Route /orders/place]"
      (result <== placeOrder env w (body req) ;; ret (sendSuccess result 200%Z)).
Proof. reflexivity. Qed.

Lemma post_status_route (w : io number) (req : request number) :
  post_status env w req
  = Notions.route "[Route /orders/status]"
      (let AWBNo := prop (or_ (body req) (JObj [])) "AWBNo" in
       if negb (truthy AWBNo) then ret Notions.AWBNo_missing
       else result <== getOrderStatus env w AWBNo ;;
            ret (sendSuccess result 200%Z)).
Proof. reflexivity. Qed.

Lemma post_auth_login_route (w : io number) (req : request number) :
  post_auth_login env w req
  = Notions.route "[Route /auth/login]"
      (let credentials := or_ (body req) (JObj []) in
       session <== login env w (prop credentials "username")
                               (prop credentials "password") ;;
       ret (sendSuccess (JObj [("token", prop session "token");
                               ("userId", prop session "userId");
                               ("name", prop session "name")])
                        200%Z)).
Proof. reflexivity. Qed.

Lemma route_answers (label : string) (m : M number (response number)) :
  Notions.answers (Notions.route label m).
Proof.
  intros w. rewrite route_cases.
  destruct (m w) as [[r|e] w']; cbn [fst]; eauto.
Qed.

(** The calls of a route are those of the service behind it. *)
Lemma route_calls (label : string) (m : M number (response number))
    (w : world number) :
  Spec.calls_made (Notions.route label m) w = Spec.calls_made m w.
Proof.
  unfold Spec.calls_made. rewrite route_cases.
  destruct (m w) as [[r|e] w']; reflexivity.
Qed.

Lemma answer_calls {A} (m : M number A) (k : A -> response number)
    (w : world number) :
  Spec.calls_made (x <== m ;; ret (k x)) w = Spec.calls_made m w.
Proof.
  apply Requests.calls_made_bind. reflexivity.
Qed.

Lemma answer_cases {A} (m : M number A) (k : A -> response number)
    (w : world number) :
  (x <== m ;; ret (k x)) w
  = match m w with
    | (Ok a, w') => (Ok (k a), w')
    | (Throw e, w') => (Throw e, w')
    end.
Proof. unfold bindM, ret. now destruct (m w) as [[a|e] w']. Qed.

(** ** What stays offline *)

Lemma offline_ret {A} (a : A) : Notions.offline (ret (number := number) a).
Proof. intros w. split; reflexivity. Qed.

Lemma offline_throw {A} (e : thrown number) :
  Notions.offline (throw (A := A) e).
Proof. intros w. split; reflexivity. Qed.

Lemma offline_lift {A} (r : res A) : Notions.offline (lift r).
Proof. intros w. split; reflexivity. Qed.

Lemma offline_print (l : level) (text : string) :
  Notions.offline (console_print (number := number) l text).
Proof. intros w. split; reflexivity. Qed.

Lemma offline_insert (document : WebhookResponse number) :
  Notions.offline (insert_document document).
Proof. intros w. split; reflexivity. Qed.

Lemma offline_bind {A B} (m : M number A) (k : A -> M number B) :
  Notions.offline m -> (forall a, Notions.offline (k a)) ->
  Notions.offline (bindM m k).
Proof.
  intros Hm Hk w. unfold bindM. specialize (Hm w).
  destruct (m w) as [[a|e] w']; cbn [snd] in *; [|exact Hm].
  destruct (Hk a w') as [T O]. destruct Hm as [T' O'].
  split; congruence.
Qed.

Lemma offline_try_catch {A} (m : M number A) (h : thrown number -> M number A) :
  Notions.offline m -> (forall e, Notions.offline (h e)) ->
  Notions.offline (try_catch m h).
Proof.
  intros Hm Hh w. unfold try_catch. specialize (Hm w).
  destruct (m w) as [[a|e] w']; cbn [snd] in *; [exact Hm|].
  destruct (Hh e w') as [T O]. destruct Hm as [T' O'].
  split; congruence.
Qed.

Ltac offline :=
  repeat first
    [ apply offline_ret
    | apply offline_throw
    | apply offline_lift
    | apply offline_print
    | apply offline_insert
    | apply offline_bind; [|intros]
    | apply offline_try_catch; [|intros] ].

Lemma verifyWebhookSecret_offline (req : request number) :
  Notions.offline (verifyWebhookSecret env req).
Proof.
  unfold verifyWebhookSecret. cbv zeta.
  repeat match goal with
         | |- context [if ?b then _ else _] => destruct b
         end; offline.
Qed.

Lemma status_handler_offline (table : list (string * string))
    (create : WebhookResponse number -> option string) (req : request number) :
  Notions.offline (status_handler_with table create req).
Proof.
  unfold status_handler_with, status_handler_try. cbv zeta.
  offline. destruct (create _); offline.
Qed.

Lemma post_pikndel_status_offline
    (create : WebhookResponse number -> option string) (req : request number) :
  Notions.offline (post_pikndel_status env create req).
Proof.
  unfold post_pikndel_status, post_pikndel_status_with.
  apply offline_bind; [apply verifyWebhookSecret_offline|].
  intros [r|]; [apply offline_ret | apply status_handler_offline].
Qed.

(** The verdict on a push does not depend on the state. *)
Lemma verdict_stateless (req : request number) (w w' : world number) :
  fst (verifyWebhookSecret env req w) = fst (verifyWebhookSecret env req w').
Proof.
  unfold verifyWebhookSecret. cbv zeta.
  repeat match goal with
         | |- context [if ?b then _ else _] => destruct b
         end; reflexivity.
Qed.

(** An accepted push, handled. *)
Lemma accepted_push (create : WebhookResponse number -> option string)
    (req : request number) (w : world number) :
  fst (verifyWebhookSecret env req w) = Ok Next ->
  let outcome := post_pikndel_status env create req w in
  let document := document_of (Spec.payload_of req) in
  (Spec.loggable req = true
   /\ fst outcome = Ok acknowledged
   /\ match create document with
      | None => collection (snd outcome) = (collection w ++ [document])%list
      | Some _ => collection (snd outcome) = collection w
      end)
  \/ (Spec.loggable req = false
      /\ fst outcome = Ok Notions.handler_error
      /\ collection (snd outcome) = collection w).
Proof.
  intros V. cbv zeta. unfold post_pikndel_status.
  destruct (Webhook.post_pikndel_status_cases env STATUS_MAP create req w)
    as [(r & A & _) | (_ & ->)]; [congruence|].
  destruct (Webhook.verifyWebhookSecret_cases env req w) as [C _].
  pose proof (Webhook.status_handler_cases STATUS_MAP create req
                (snd (verifyWebhookSecret env req w))) as H.
  cbv zeta in H. rewrite C in H.
  destruct H as [(L & R & S) | (L & R & S)]; [left | right].
  - split; [exact L|]. split; [exact R|].
    destruct (create _); [now destruct S | exact S].
  - now repeat split.
Qed.

(** ** The claims of this part *)

(** X20. No route lets an exception escape: the three routes of the
    client and the webhook answer every request, whatever the provider
    and the store do. *)
Theorem routes_always_answer (w : io number)
    (create : WebhookResponse number -> option string)
    (req : request number) (before : world number) :
  Spec.succeeds (fst (post_auth_login env w req before))
  /\ Spec.succeeds (fst (post_place env w req before))
  /\ Spec.succeeds (fst (post_status env w req before))
  /\ Spec.succeeds (fst (post_pikndel_status env create req before)).
Proof.
  unfold Spec.succeeds.
  rewrite post_auth_login_route, post_place_route, post_status_route.
  repeat split; try apply route_answers.
  unfold post_pikndel_status.
  destruct (Webhook.post_pikndel_status_cases env STATUS_MAP create req before)
    as [(r & _ & ->) | (_ & ->)]; [now exists r|].
  pose proof (Webhook.status_handler_cases STATUS_MAP create req
                (snd (verifyWebhookSecret env req before))) as H.
  cbv zeta in H. destruct H as [(_ & -> & _) | (_ & -> & _)]; eauto.
Qed.

(** X21. An order that fails validation is answered 500, not 400: the
    answer carries the message naming the missing field and no provider
    data, the failure is printed once, and no call is made. *)
Theorem post_place_validation_failure (w : io number) (req : request number)
    (before : world number) (f : Spec.required) :
  Spec.order_payload (body req) ->
  Spec.first_missing (body req) = Some f ->
  let message := message_of (Spec.ValidationError (number := number) f) in
  post_place env w req before
  = (Ok (Notions.internal_error message),
     snd (console_print error ("[Route /orders/place] " ++ message) before))
  /\ Spec.calls_made (post_place env w req) before = [].
Proof.
  intros Hp Hf message.
  assert (E : post_place env w req before
              = (Ok (Notions.internal_error message),
                 snd (console_print error
                        ("[Route /orders/place] " ++ message) before))).
  { rewrite post_place_route, route_cases, answer_cases.
    pose proof (Requests.placeOrder_calls env w (body req) before) as L.
    unfold placeOrder_body in L.
    rewrite (PlaceOrder.validate_first_missing _ _ Hp Hf) in L.
    cbn [bind] in L. rewrite L. subst message. now destruct f. }
  split; [exact E|].
  unfold Spec.calls_made. rewrite E. cbn [snd console_print outbound].
  apply skipn_all.
Qed.


(** X23. When the provider answers 200, the order route answers 200
    with success [true] and the body of the provider, as it came, under
    data; nothing is printed. *)
Theorem post_place_relays_success (w : io number) (req : request number)
    (before : world number) (c : axios_config number) (v : value) :
  Spec.calls_made (post_place env w req) before = [c] ->
  axios w c = Responded 200 v ->
  fst (post_place env w req before)
  = Ok {| statusCode := 200%Z;
          json := JObj [("success", JBool true); ("data", v)] |}
  /\ console (snd (post_place env w req before)) = console before.
Proof.
  intros Hc Ha.
  rewrite post_place_route in *.
  rewrite route_calls, answer_calls in Hc.
  rewrite route_cases, answer_cases.
  pose proof (Requests.placeOrder_calls env w (body req) before) as L.
  destruct (placeOrder_body (body req)) as [built|e].
  2:{ rewrite (Client.calls_made_none _ _ _ L) in Hc. discriminate. }
  unfold Spec.calls_made in Hc. rewrite L in *.
  destruct (Requests.request_sent env w _ before c Hc) as (-> & _).
  unfold Notions.settle. rewrite Ha. cbn. split; reflexivity.
Qed.

(** X24. The status route answers 400 on its own when the body brings
    no AWBNo (or no body came): nothing is sent, printed or changed. *)
Theorem post_status_requires_AWBNo (w : io number) (req : request number)
    (before : world number) :
  truthy (prop (Spec.payload_of req) "AWBNo") = false ->
  post_status env w req before
  = (Ok {| statusCode := 400%Z;
           json := JObj [("success", JBool false);
                         ("error", JStr "AWBNo is required in request body.")] |},
     before).
Proof.
  unfold Spec.payload_of. intros H.
  rewrite post_status_route, route_cases. cbv zeta. now rewrite H.
Qed.

(** X25. When the provider cannot be reached, the status route answers
    500 with the network error as text and no provider data, and prints
    the failure under its label. *)
Theorem post_status_network_failure (w : io number) (req : request number)
    (before : world number) (c : axios_config number) (reason : string) :
  Spec.calls_made (post_status env w req) before = [c] ->
  axios w c = Failed reason ->
  let message :=
    "Network error calling PIKNDEL [/backoffice/api/pikndel/order/get_status]: "
      ++ reason in
  fst (post_status env w req before) = Ok (Notions.internal_error message)
  /\ In (error, "[Route /orders/status] " ++ message)
        (console (snd (post_status env w req before))).
Proof.
  intros Hc Ha message.
  rewrite post_status_route in *.
  rewrite route_calls in Hc. rewrite route_cases.
  cbv zeta in *.
  destruct (truthy (prop (or_ (body req) (JObj [])) "AWBNo")); cbn [negb] in *.
  2:{ unfold Spec.calls_made, ret in Hc. cbn [snd] in Hc.
      rewrite skipn_all in Hc. discriminate. }
  rewrite answer_calls in Hc. rewrite answer_cases.
  unfold getOrderStatus in *.
  destruct (truthy (prop (or_ (body req) (JObj [])) "AWBNo")); cbn [negb] in *.
  2:{ unfold Spec.calls_made, throw in Hc. cbn [snd] in Hc.
      rewrite skipn_all in Hc. discriminate. }
  destruct (Requests.request_sent env w _ before c Hc) as (-> & _).
  unfold Notions.settle. rewrite Ha.
  cbn [throw fst snd network_error opt_path sendError message_of
       console_print console].
  split; [reflexivity|]. apply in_or_app. right. now left.
Qed.

(** X26. The login route hands the session of [login] back as it is,
    token included, under data with status 200; the credentials are
    those of the body. *)
Theorem post_auth_login_returns_session (w : io number) (req : request number)
    (before after : world number) (session : value) :
  login env w (prop (Spec.payload_of req) "username")
              (prop (Spec.payload_of req) "password") before
  = (Ok session, after) ->
  post_auth_login env w req before
  = (Ok {| statusCode := 200%Z;
           json := JObj [("success", JBool true); ("data", session)] |},
     after)
  /\ cachedToken after = prop session "token".
Proof.
  unfold Spec.payload_of. intros H.
  rewrite post_auth_login_route, route_cases. cbv zeta.
  rewrite answer_cases, H.
  rewrite <- (Requests.login_session env _ _ _ _ _ _ H).
  split; [reflexivity|].
  now destruct (Requests.login_caches env _ _ _ _ _ _ H).
Qed.

(** X27. The webhook keeps no record of what it has seen: the same push
    delivered twice, accepted and stored both times, leaves two equal
    documents, each holding the payload as it came. *)
Theorem webhook_repeated_push_stored_twice
    (create : WebhookResponse number -> option string)
    (req : request number) (before : world number) :
  fst (verifyWebhookSecret env req before) = Ok Next ->
  Spec.loggable req = true ->
  create (document_of (Spec.payload_of req)) = None ->
  let once := snd (post_pikndel_status env create req before) in
  let twice := snd (post_pikndel_status env create req once) in
  let document := document_of (Spec.payload_of req) in
  collection twice = (collection before ++ [document; document])%list
  /\ rawPayload document = Spec.payload_of req.
Proof.
  intros V L C once twice document. split; [|reflexivity].
  assert (V' : fst (verifyWebhookSecret env req once) = Ok Next)
    by (now rewrite (verdict_stateless req once before)).
  pose proof (accepted_push create req before V) as H1.
  pose proof (accepted_push create req once V') as H2.
  cbv zeta in H1, H2. rewrite C in H1, H2.
  destruct H1 as [(_ & _ & S1) | (F & _)]; [|congruence].
  destruct H2 as [(_ & _ & S2) | (F & _)]; [|congruence].
  subst twice. rewrite S2. subst once. rewrite S1.
  now rewrite <- app_assoc.
Qed.

(** X28. The webhook never touches the client: whatever the push and
    the store, the cached token is as before and no call is made to the
    provider. *)
Theorem webhook_stays_offline
    (create : WebhookResponse number -> option string)
    (req : request number) (before : world number) :
  let after := snd (post_pikndel_status env create req before) in
  cachedToken after = cachedToken before
  /\ outbound after = outbound before
  /\ Spec.calls_made (post_pikndel_status env create req) before = [].
Proof.
  cbv zeta.
  destruct (post_pikndel_status_offline create req before) as [T O].
  split; [exact T|]. split; [exact O|].
  unfold Spec.calls_made. rewrite O. apply skipn_all.
Qed.

(** X29. An accepted push whose AWBNo, short_code, activity or
    timestamp cannot be written as text is answered 500 with the fixed
    handler error, and nothing is stored, whatever the store would have
    done. *)
Theorem webhook_unloggable_push
    (create : WebhookResponse number -> option string)
    (req : request number) (before : world number) :
  fst (verifyWebhookSecret env req before) = Ok Next ->
  Spec.loggable req = false ->
  let outcome := post_pikndel_status env create req before in
  fst outcome
  = Ok {| statusCode := 500%Z;
          json := JObj [("success", JBool false);
                        ("error", JStr "Webhook handler error.")] |}
  /\ collection (snd outcome) = collection before.
Proof.
  intros V L. cbv zeta.
  pose proof (accepted_push create req before V) as H. cbv zeta in H.
  destruct H as [(F & _) | (_ & R & S)]; [congruence|].
  now split.
Qed.

End Routes.

(** ** The claims of this part on sample requests *)

Import DecimalRuntime Samples.

(** The order without ClientUniqueNo, posted. *)
Lemma post_place_validation_failure_witness :
  let req := Notions.posting order_without_ClientUniqueNo in
  let w := answering 200 (JObj []) in
  fst (post_place production w req logged_in)
  = Ok {| statusCode := 500%Z;
          json := JObj [("success", JBool false);
                        ("error", JStr "placeOrder: OrderDetails[0].ClientUniqueNo is required.");
                        ("pikndelData", JNull)] |}
  /\ Spec.calls_made (post_place production w req) logged_in = [].
Proof.
  intros req w.
  assert (P : Spec.order_payload (body req)) by (split; reflexivity).
  destruct (post_place_validation_failure production w req logged_in
              Spec.ClientUniqueNo P eq_refl) as [E C].
  split; [now rewrite E | exact C].
Defined.


(** The complete order, accepted. *)
Lemma post_place_relays_success_witness :
  let req := Notions.posting complete_order in
  let v := JObj [("AWBNo", JStr "PKD1")] in
  let w := answering 200 v in
  fst (post_place production w req logged_in)
  = Ok {| statusCode := 200%Z;
          json := JObj [("success", JBool true); ("data", v)] |}.
Proof.
  intros req v w.
  assert (H : Spec.calls_made (post_place production w req) logged_in = [_])
    by (vm_compute; reflexivity).
  now destruct (post_place_relays_success production w req logged_in _ v
                  H eq_refl).
Defined.

(** A status query with an empty body. *)
Lemma post_status_requires_AWBNo_witness :
  let req := Notions.posting (JObj []) in
  let w := answering 200 (JObj []) in
  fst (post_status production w req logged_in)
  = Ok (Notions.AWBNo_missing (number := decimal))
  /\ snd (post_status production w req logged_in) = logged_in.
Proof.
  intros req w.
  rewrite (post_status_requires_AWBNo production w req logged_in eq_refl).
  split; reflexivity.
Defined.

(** A status query while the provider cannot be reached. *)
Lemma post_status_network_failure_witness :
  let req := Notions.posting (JObj [("AWBNo", JStr "PKD1")]) in
  let w := Notions.unanswered "connect ECONNREFUSED" in
  fst (post_status production w req logged_in)
  = Ok (Notions.internal_error
          "Network error calling PIKNDEL [/backoffice/api/pikndel/order/get_status]: connect ECONNREFUSED").
Proof.
  intros req w.
  assert (H : Spec.calls_made (post_status production w req) logged_in = [_])
    by (vm_compute; reflexivity).
  now destruct (post_status_network_failure production w req logged_in _
                  "connect ECONNREFUSED" H eq_refl).
Defined.

(** A login with the credentials of the body. *)
Lemma post_auth_login_returns_session_witness :
  let req := Notions.posting (JObj [("username", JStr "u");
                                    ("password", JStr "p")]) in
  let response := JObj [("Data", JObj [("Token", JStr "jwt")])] in
  let w := answering 200 response in
  fst (post_auth_login production w req fresh)
  = Ok {| statusCode := 200%Z;
          json := JObj [("success", JBool true);
                        ("data", Spec.login_result response (JStr "jwt"))] |}
  /\ cachedToken (snd (post_auth_login production w req fresh)) = JStr "jwt".
Proof.
  intros req response w.
  assert (L : login production w (prop (Spec.payload_of req) "username")
                (prop (Spec.payload_of req) "password") fresh
              = (Ok (Spec.login_result response (JStr "jwt")),
                 snd (login production w (JStr "u") (JStr "p") fresh)))
    by (vm_compute; reflexivity).
  destruct (post_auth_login_returns_session production w req fresh _ _ L)
    as [E T].
  rewrite E. split; [reflexivity | exact T].
Defined.

(** The sample push with the right secret, delivered twice. *)
Lemma webhook_repeated_push_stored_twice_witness :
  let req := push_with [("x-pikndel-secret", "s3cret")] in
  let once := snd (post_pikndel_status production reachable req fresh) in
  let twice := snd (post_pikndel_status production reachable req once) in
  collection twice
  = [document_of (Spec.payload_of req); document_of (Spec.payload_of req)].
Proof.
  intros req once twice.
  exact (proj1 (webhook_repeated_push_stored_twice production reachable req
                  fresh eq_refl eq_refl eq_refl)).
Defined.

(** The push whose AWBNo cannot be written, with no secret configured. *)
Lemma webhook_unloggable_push_witness :
  fst (post_pikndel_status development reachable push_with_unprintable_AWBNo fresh)
  = Ok (Notions.handler_error (number := decimal))
  /\ collection (snd (post_pikndel_status development reachable
                        push_with_unprintable_AWBNo fresh)) = [].
Proof.
  exact (webhook_unloggable_push development reachable
           push_with_unprintable_AWBNo fresh eq_refl eq_refl).
Defined.

End Routes.

